(** * export-to-figma.js: the Figma export script of the hotel front end

    A shallow embedding of [src/scripts/export-to-figma.js] and the proofs of
    the properties its specification states.

    The script reads [./tokens/design-tokens.json], turns it into a document
    of Figma variables and a CSS file, and writes a handful of hard-coded
    Markdown and JSON documents next to them.  The embedding follows the
    script function by function:

    - values are the values [JSON.parse] hands to the script, and the
      operations on them ([Object.entries], property reads, [||], template
      literals, [obj[k] = v]) are total functions that return the exception
      where JavaScript throws one;
    - the file system is a finite map from paths to nodes, the console a list
      of lines, and every [async] function a computation in a state and
      exception monad (each [await] in the script waits for a function that
      never suspends, so the order of effects is the order of the text). *)

From Stdlib Require Import String Ascii List ZArith Lia DecimalString DecimalNat.
From stdpp Require Import base option list strings gmap fin_maps.

Local Open Scope string_scope.
Local Open Scope list_scope.

(** ** Exceptions and results *)

(** What the script can throw: the errors of Node's [fs] calls, the
    [SyntaxError] of [JSON.parse] and the [TypeError] of a read on
    [undefined] or [null]. *)
Inductive error : Type :=
| ENOENT | ENOTDIR | EISDIR | EEXIST
| SyntaxError
| TypeError.

Inductive result (A : Type) : Type :=
| Ok (a : A)
| Throw (e : error).
Arguments Ok {A} a.
Arguments Throw {A} e.

#[global] Instance result_ret : MRet result := fun A a => Ok a.
#[global] Instance result_bind : MBind result := fun A B k r =>
  match r with
  | Ok a => k a
  | Throw e => Throw e
  end.

Definition is_ok {A} (r : result A) : bool :=
  match r with Ok _ => true | Throw _ => false end.

(** ** JavaScript values *)

(** Numbers are IEEE doubles; the script never computes with them, it only
    tests them for truth ([||], [if]) and prints them (template literals).
    Both operations are taken from the runtime. *)
Class Number (num : Type) : Type := {
  Number_toString : num -> string;
  Number_toBoolean : num -> bool
}.

(** The values of a parsed JSON text, and [undefined], which a read of a
    missing property yields.  An object is the list of its own properties in
    the order the engine enumerates them; strings are sequences of code
    units. *)
#[warnings="-register-all"]
Inductive value (num : Type) : Type :=
| Undefined
| Null
| Bool (b : bool)
| Num (n : num)
| Str (s : string)
| Arr (elts : list (value num))
| Obj (props : list (string * value num)).
Arguments Undefined {num}.
Arguments Null {num}.
Arguments Bool {num} b.
Arguments Num {num} n.
Arguments Str {num} s.
Arguments Arr {num} elts.
Arguments Obj {num} props.

(** Decimal spelling of an array index, as in the keys of
    [Object.entries(["a", "b"])]. *)
Definition index_key (i : nat) : string :=
  NilEmpty.string_of_uint (Nat.to_uint i).

Fixpoint indexed {A} (i : nat) (l : list A) : list (string * A) :=
  match l with
  | [] => []
  | x :: r => (index_key i, x) :: indexed (S i) r
  end.

Fixpoint code_units (s : string) : list string :=
  match s with
  | EmptyString => []
  | String c r => String c EmptyString :: code_units r
  end.

(** First binding of a key in a property list. *)
Fixpoint assoc {A} (k : string) (l : list (string * A)) : option A :=
  match l with
  | [] => None
  | (k', v) :: r => if String.eqb k k' then Some v else assoc k r
  end.

(** [obj[k] = v] on the property list of an ordinary object, for a key that
    is not an array index: an existing property keeps its place, a new one
    goes last. *)
Fixpoint assign {A} (k : string) (v : A) (l : list (string * A)) : list (string * A) :=
  match l with
  | [] => [(k, v)]
  | (k', v') :: r => if String.eqb k k' then (k, v) :: r else (k', v') :: assign k v r
  end.

Section Values.
Context {num : Type} `{Number num}.

Local Abbreviation value := (value num).

(** Own property of a value, for the property names the script reads
    ([colors], [spacing], [typography], [font-size], [value],
    [description], [type], ...): none of them is an index, a [length] or a
    property of a prototype, so only an object can have one. *)
Definition own (v : value) (k : string) : option value :=
  match v with
  | Obj props => assoc k props
  | _ => None
  end.

(** [v.k] and [v[k]]: a [TypeError] on [undefined] and [null], [undefined]
    for a property the value does not have. *)
Definition get (v : value) (k : string) : result value :=
  match v with
  | Undefined | Null => Throw TypeError
  | _ => Ok (default Undefined (own v k))
  end.

(** [Object.entries(v)]. *)
Definition Object_entries (v : value) : result (list (string * value)) :=
  match v with
  | Undefined | Null => Throw TypeError
  | Bool _ | Num _ => Ok []
  | Str s => Ok (indexed 0 (map Str (code_units s)))
  | Arr elts => Ok (indexed 0 elts)
  | Obj props => Ok props
  end.

(** [ToBoolean]. *)
Definition truthy (v : value) : bool :=
  match v with
  | Undefined | Null => false
  | Bool b => b
  | Num n => Number_toBoolean n
  | Str s => negb (String.eqb s "")
  | Arr _ | Obj _ => true
  end.

(** [a || b]. *)
Definition or_else (a b : value) : value := if truthy a then a else b.

(** [ToString], as a template literal applies it.  An array prints its
    elements separated by commas, [null] and [undefined] as nothing.  An
    object prints as [[object Object]]; one that has a property called
    [toString] of its own hides the method of the prototype with a value
    that cannot be called, and the conversion throws. *)
Fixpoint ToString (v : value) : result string :=
  match v with
  | Undefined => Ok "undefined"
  | Null => Ok "null"
  | Bool true => Ok "true"
  | Bool false => Ok "false"
  | Num n => Ok (Number_toString n)
  | Str s => Ok s
  | Arr elts =>
      (fix join_elts (l : list value) : result string :=
         match l with
         | [] => Ok ""
         | x :: r =>
             s ← match x with
                 | Undefined | Null => Ok ""
                 | _ => ToString x
                 end;
             match r with
             | [] => Ok s
             | _ => t ← join_elts r; Ok (s +:+ "," +:+ t)
             end
         end) elts
  | Obj props =>
      match assoc "toString" props with
      | Some _ => Throw TypeError
      | None => Ok "[object Object]"
      end
  end.

(** What [JSON.stringify] writes of a value, as a value: a property whose
    value is [undefined] is left out, an [undefined] array element is
    written [null]. *)
Fixpoint serialized (v : value) : value :=
  match v with
  | Arr elts =>
      Arr (map (fun x => match x with Undefined => Null | _ => serialized x end) elts)
  | Obj props =>
      Obj (omap (fun kx => match kx with
                           | (_, Undefined) => None
                           | (k, x) => Some (k, serialized x)
                           end) props)
  | _ => v
  end.

(** What is written of one property. *)
Definition written (kx : string * value) : option (string * value) :=
  match kx with
  | (_, Undefined) => None
  | (k, x) => Some (k, serialized x)
  end.

(** [arr.forEach(f)] for a callback that updates one object and may
    throw, and [arr.map(f)] for one that may throw. *)
Fixpoint forEach {A S} (f : A -> S -> result S) (l : list A) (s : S) : result S :=
  match l with
  | [] => Ok s
  | x :: r => s' ← f x s; forEach f r s'
  end.

Fixpoint Array_map {A B} (f : A -> result B) (l : list A) : result (list B) :=
  match l with
  | [] => Ok []
  | x :: r => y ← f x; ys ← Array_map f r; Ok (y :: ys)
  end.

End Values.

(** [arr.join(sep)] on an array of strings. *)
Definition Array_join (sep : string) (l : list string) : string :=
  String.concat sep l.

Definition LF : string := String (ascii_of_nat 10) EmptyString.

(** ** The token converter: [exportDesignTokens], lines 53 to 128 *)

Section Converter.
Context {num : Type} `{Number num}.

Local Abbreviation value := (value num).

(** The [extensions] member of every variable. *)
Definition figma_extensions (scopes : list string) : value :=
  Obj [("figma", Obj [("collection", Str "core");
                      ("scopes", Arr (map Str scopes))])].

(** The three object literals of lines 68, 83 and 98. *)
Definition color_variable (token : value) : result value :=
  v ← get token "value";
  d ← get token "description";
  Ok (Obj [("type", Str "color");
           ("value", v);
           ("description", or_else d (Str ""));
           ("extensions", figma_extensions ["ALL_SCOPES"])]).

Definition spacing_variable (token : value) : result value :=
  v ← get token "value";
  Ok (Obj [("type", Str "dimension");
           ("value", v);
           ("extensions", figma_extensions ["GAP"; "SPACING"; "WIDTH_HEIGHT"])]).

Definition font_size_variable (token : value) : result value :=
  v ← get token "value";
  Ok (Obj [("type", Str "dimension");
           ("value", v);
           ("extensions", figma_extensions ["FONT_SIZE"])]).

(** One turn of a [forEach] of the converter: build the variable of the
    entry and store it under [prefix + name] in [figmaTokens.tokens]. *)
Definition store (prefix : string) (mk : value -> result value)
    (entry : string * value) (vars : list (string * value))
  : result (list (string * value)) :=
  let '(name, token) := entry in
  var ← mk token;
  Ok (assign (prefix +:+ name) var vars).

(** Lines 67 to 79. *)
Definition convert_colors (tokens : value) (vars : list (string * value))
  : result (list (string * value)) :=
  colors ← get tokens "colors";
  es ← Object_entries colors;
  forEach (store "color/" color_variable) es vars.

(** Lines 82 to 93. *)
Definition convert_spacing (tokens : value) (vars : list (string * value))
  : result (list (string * value)) :=
  spacing ← get tokens "spacing";
  es ← Object_entries spacing;
  forEach (store "spacing/" spacing_variable) es vars.

(** Lines 96 to 109. *)
Definition convert_typography (tokens : value) (vars : list (string * value))
  : result (list (string * value)) :=
  typography ← get tokens "typography";
  if truthy typography then
    sizes ← get typography "font-size";
    es ← Object_entries (or_else sizes (Obj []));
    forEach (store "typography/size/" font_size_variable) es vars
  else Ok vars.

(** The object [figmaTokens] of line 54, with its [tokens] member. *)
Definition figma_document (vars : list (string * value)) : value :=
  Obj [("version", Str "1.0.0");
       ("collections",
        Obj [("core", Obj [("name", Str "Core Tokens");
                           ("modes", Arr [Str "light"; Str "dark"]);
                           ("variables", Obj [])])]);
       ("tokens", Obj vars)].

(** [figmaTokens] as it stands at line 111, when it is serialised. *)
Definition figmaTokens (tokens : value) : result value :=
  vars ← convert_colors tokens [];
  vars ← convert_spacing tokens vars;
  vars ← convert_typography tokens vars;
  Ok (figma_document vars).

(** The two callbacks of the template of line 117. *)
Definition css_declaration (prefix : string) (entry : string * value) : result string :=
  let '(name, token) := entry in
  v ← get token "value";
  s ← ToString v;
  Ok ("  --" +:+ prefix +:+ "-" +:+ name +:+ ": " +:+ s +:+ ";").

Definition css_colors (tokens : value) : result (list string) :=
  colors ← get tokens "colors";
  es ← Object_entries colors;
  Array_map (css_declaration "color") es.

Definition css_spacing (tokens : value) : result (list string) :=
  spacing ← get tokens "spacing";
  es ← Object_entries spacing;
  Array_map (css_declaration "spacing") es.

Definition css_text (colors spacing : list string) : string :=
  LF +:+ "/* Design Tokens para importação no Figma */" +:+ LF
  +:+ ":root {" +:+ LF
  +:+ Array_join LF colors +:+ LF
  +:+ LF
  +:+ Array_join LF spacing +:+ LF
  +:+ "}" +:+ LF.

(** [cssTokens], lines 117 to 128. *)
Definition cssTokens (tokens : value) : result string :=
  cs ← css_colors tokens;
  ss ← css_spacing tokens;
  Ok (css_text cs ss).

End Converter.

(** ** The file system and the console *)

(** A path is the list of its components below the working directory:
    [path.join('./exports/figma-ready', 'tokens')] is
    [["exports"; "figma-ready"; "tokens"]]. *)
Abbreviation fspath := (list string).

Inductive node : Type :=
| File (content : string)
| Dir.

#[global] Instance node_eq_dec : EqDecision node.
Proof. solve_decision. Defined.

Inductive console_line : Type :=
| Log (s : string)
| Error (e : error).

Record world : Type := World {
  files : gmap fspath node;
  console : list console_line
}.

(** Path resolution from the directory [cur]: every component but the last
    has to be a directory. *)
Fixpoint walk (m : gmap fspath node) (cur rest : fspath) : result node :=
  match rest with
  | [] => Ok Dir
  | x :: r =>
      match m !! (cur ++ [x]) with
      | None => Throw ENOENT
      | Some Dir => walk m (cur ++ [x]) r
      | Some (File c) =>
          match r with
          | [] => Ok (File c)
          | _ => Throw ENOTDIR
          end
      end
  end.

Definition stat (m : gmap fspath node) (p : fspath) : result node := walk m [] p.

(** [fs.mkdirSync(p, { recursive: true })]: the missing directories are made
    from the top; a file in the way throws, and what was made stays. *)
Fixpoint mkdirs (m : gmap fspath node) (cur rest : fspath) : gmap fspath node * result unit :=
  match rest with
  | [] => (m, Ok tt)
  | x :: r =>
      match m !! (cur ++ [x]) with
      | None => mkdirs (<[cur ++ [x] := Dir]> m) (cur ++ [x]) r
      | Some Dir => mkdirs m (cur ++ [x]) r
      | Some (File _) =>
          (m, Throw match r with [] => EEXIST | _ => ENOTDIR end)
      end
  end.

(** The state and exception monad of the script's functions. *)
Definition io (A : Type) : Type := world -> world * result A.

#[global] Instance io_ret : MRet io := fun A a w => (w, Ok a).
#[global] Instance io_bind : MBind io := fun A B k m w =>
  match m w with
  | (w', Ok a) => k a w'
  | (w', Throw e) => (w', Throw e)
  end.

(** A synchronous computation used inside an [async] function. *)
Definition lift {A} (r : result A) : io A := fun w => (w, r).

(** [p.catch(h)]. *)
Definition catch {A} (m : io A) (h : error -> io A) : io A := fun w =>
  match m w with
  | (w', Ok a) => (w', Ok a)
  | (w', Throw e) => h e w'
  end.

Definition console_log (s : string) : io unit := fun w =>
  (World (files w) (console w ++ [Log s]), Ok tt).

Definition console_error (e : error) : io unit := fun w =>
  (World (files w) (console w ++ [Error e]), Ok tt).

Definition existsSync (p : fspath) : io bool := fun w =>
  (w, Ok (is_ok (stat (files w) p))).

Definition mkdirSync_recursive (p : fspath) : io unit := fun w =>
  let '(m, r) := mkdirs (files w) [] p in (World m (console w), r).

Definition readFileSync (p : fspath) : io string := fun w =>
  (w, match stat (files w) p with
      | Ok (File c) => Ok c
      | Ok Dir => Throw EISDIR
      | Throw e => Throw e
      end).

(** [fs.writeFileSync(p, c)]: the directory of [p] has to exist, and [p]
    must not be a directory; the file is made or replaced as a whole. *)
Definition writeFileSync (p : fspath) (c : string) : io unit := fun w =>
  match p with
  | [] => (w, Throw EISDIR)
  | _ =>
      match stat (files w) (removelast p) with
      | Ok Dir =>
          match files w !! p with
          | Some Dir => (w, Throw EISDIR)
          | _ => (World (<[p := File c]> (files w)) (console w), Ok tt)
          end
      | Ok (File _) => (w, Throw ENOTDIR)
      | Throw e => (w, Throw e)
      end
  end.

(** [arr.forEach(f)] for a callback with effects. *)
Fixpoint forEach_io {A} (f : A -> io unit) (l : list A) : io unit :=
  match l with
  | [] => mret tt
  | x :: r => f x;; forEach_io f r
  end.

(** ** Configuration, lines 12 to 16 *)

Definition OUTPUT_DIR : fspath := ["exports"; "figma-ready"].
Definition COMPONENTS_DIR : fspath := OUTPUT_DIR ++ ["components"].
Definition PAGES_DIR : fspath := OUTPUT_DIR ++ ["pages"].
Definition ASSETS_DIR : fspath := OUTPUT_DIR ++ ["assets"].
Definition TOKENS_DIR : fspath := OUTPUT_DIR ++ ["tokens"].

Definition tokensPath : fspath := ["tokens"; "design-tokens.json"].

Definition DQ : string := String (ascii_of_nat 34) EmptyString.

(** ** [exportDesignTokens], lines 46 to 133 *)

(** [JSON.parse(text)], [None] where it throws a [SyntaxError], and
    [JSON.stringify(v, null, 2)]. *)
Class JSON (num : Type) : Type := {
  JSON_parse : string -> option (value num);
  JSON_stringify : value num -> string
}.

Section Script.
Context {num : Type} `{Number num} `{JSON num}.

Definition parse (text : string) : io (value num) :=
  lift (match JSON_parse text with
        | Some v => Ok v
        | None => Throw SyntaxError
        end).

Definition exportDesignTokens : io unit :=
  console_log "📋 Exportando design tokens...";;
  text ← readFileSync tokensPath;
  tokens ← parse text;
  figma ← lift (figmaTokens tokens);
  writeFileSync (TOKENS_DIR ++ ["figma-variables.json"]) (JSON_stringify figma);;
  css ← lift (cssTokens tokens);
  writeFileSync (TOKENS_DIR ++ ["tokens.css"]) css;;
  console_log "✅ Design tokens exportados".

End Script.

(** ** [generateComponentSpecs], lines 135 to 216 *)

Module Component.
Record t : Type := Make {
  name : string;
  description : string;
  props : list string;
  states : list string;
  variants : list string
}.
End Component.

Definition components : list Component.t :=
  [ Component.Make "Header" "Cabeçalho principal com navegação"
      ["currentPage"; "onNavigate"] ["default"; "mobile-menu-open"] ["desktop"; "mobile"];
    Component.Make "PaymentModal" "Modal de pagamento reutilizável"
      ["isOpen"; "type"; "data"; "onClose"] ["closed"; "room-booking"; "service-booking"]
      ["default"];
    Component.Make "RoomCard" "Card de quarto com informações"
      ["room"; "onViewDetails"] ["default"; "hover"] ["grid"; "list"];
    Component.Make "ServiceCard" "Card de serviço"
      ["service"; "onViewDetails"] ["default"; "hover"] ["default"];
    Component.Make "Footer" "Rodapé com links e informações"
      [] ["default"] ["desktop"; "mobile"] ].

(** The template of line 177. *)
Definition component_spec (component : Component.t) : string :=
  "# " +:+ Component.name component +:+ LF
  +:+ LF
  +:+ "## Descrição" +:+ LF
  +:+ Component.description component +:+ LF
  +:+ LF
  +:+ "## Props" +:+ LF
  +:+ Array_join LF (map (fun prop => "- `" +:+ prop +:+ "`") (Component.props component)) +:+ LF
  +:+ LF
  +:+ "## Estados" +:+ LF
  +:+ Array_join LF (map (fun state => "- " +:+ state) (Component.states component)) +:+ LF
  +:+ LF
  +:+ "## Variantes" +:+ LF
  +:+ Array_join LF (map (fun variant => "- " +:+ variant) (Component.variants component)) +:+ LF
  +:+ LF
  +:+ Array_join LF
    [ "## Implementação";
      "```tsx";
      "// Ver: /components/" +:+ Component.name component +:+ ".tsx";
      "```";
      "";
      "## Design Guidelines";
      "- Usar Auto Layout para responsividade";
      "- Aplicar design tokens consistentes";
      "- Manter hierarquia visual clara";
      "- Estados de interação (hover, active, disabled)";
      "";
      "## Figma Components";
      "1. Criar Component Set com variantes";
      "2. Configurar propriedades booleanas para estados";
      "3. Usar Instance Swap para conteúdo dinâmico";
      "4. Aplicar constraints para responsividade";
      "" ].

Definition component_file (component : Component.t) : fspath :=
  COMPONENTS_DIR ++ [Component.name component +:+ ".md"].

Definition generateComponentSpecs : io unit :=
  console_log "🧩 Gerando especificações de componentes...";;
  forEach_io (fun component =>
                writeFileSync (component_file component) (component_spec component))
             components;;
  console_log "✅ Especificações de componentes geradas".

(** ** [generatePagesGuide], lines 218 to 338 *)

Module Page.
Record t : Type := Make {
  name : string;
  path : string;
  description : string;
  components : list string;
  breakpoints : list string
}.
End Page.

Definition breakpoints3 : list string :=
  ["desktop: 1440px"; "tablet: 768px"; "mobile: 375px"].

Definition pages : list Page.t :=
  [ Page.Make "Home" "/"
      "Página inicial com hero, quartos em destaque, serviços e atrações"
      ["Header"; "Hero"; "FeaturedRooms"; "ServicesPreview"; "AttractionsPreview"; "Footer"]
      breakpoints3;
    Page.Make "Rooms" "/rooms" "Lista de quartos com filtros"
      ["Header"; "RoomCard"; "Filters"; "Pagination"; "Footer"] breakpoints3;
    Page.Make "Room Details" "/rooms/:id"
      "Detalhes do quarto com galeria e formulário de reserva"
      ["Header"; "Breadcrumb"; "ImageGallery"; "RoomInfo"; "BookingForm"; "Footer"]
      breakpoints3;
    Page.Make "Services" "/services" "Lista de serviços do hotel"
      ["Header"; "ServiceCard"; "Categories"; "Footer"] breakpoints3;
    Page.Make "Service Details" "/services/:id" "Detalhes do serviço com agendamento"
      ["Header"; "Breadcrumb"; "ServiceInfo"; "ScheduleForm"; "Footer"] breakpoints3;
    Page.Make "Attractions" "/attractions" "Atrações locais e pontos turísticos"
      ["Header"; "AttractionCard"; "Map"; "Filters"; "Footer"] breakpoints3;
    Page.Make "Login" "/login" "Página de login"
      ["Header"; "LoginForm"; "Footer"] breakpoints3;
    Page.Make "Register" "/register" "Página de cadastro"
      ["Header"; "RegisterForm"; "Footer"] breakpoints3 ].

(** The inner template of line 287. *)
Definition page_section (page : Page.t) : string :=
  LF
  +:+ "### " +:+ Page.name page +:+ LF
  +:+ "- **Path:** `" +:+ Page.path page +:+ "`" +:+ LF
  +:+ "- **Descrição:** " +:+ Page.description page +:+ LF
  +:+ "- **Componentes:** " +:+ Array_join ", " (Page.components page) +:+ LF
  +:+ "- **Breakpoints:** " +:+ Array_join ", " (Page.breakpoints page) +:+ LF
  +:+ LF.

(** The template of line 280. *)
Definition pages_guide : string :=
  Array_join LF
    [ "# Guia de Páginas - Hotel Booking System";
      "";
      "## Overview";
      "Sistema de reservas de hotel com 8 páginas principais, todas responsivas e com navegação integrada.";
      "";
      "## Páginas";
      "" ]
  +:+ LF
  +:+ Array_join "" (map page_section pages)
  +:+ LF
  +:+ Array_join LF
    [ "";
      "## Navegação";
      "- Header com menu principal";
      "- Breadcrumb em páginas de detalhes";
      "- Footer com links secundários";
      "- Modal de pagamento sobreposto";
      "";
      "## Estados Globais";
      "- Light/Dark mode";
      "- Mobile menu aberto/fechado";
      "- Modal de pagamento aberto/fechado";
      "- Páginas com loading states";
      "";
      "## Responsividade";
      "- Desktop-first approach";
      "- Breakpoints: 1440px, 768px, 375px";
      "- Grid system responsivo";
      "- Imagens otimizadas por dispositivo";
      "";
      "## Figma Structure";
      "```";
      "📁 Hotel Booking System";
      "├── 🎨 Design System";
      "│   ├── Colors";
      "│   ├── Typography  ";
      "│   ├── Spacing";
      "│   └── Components";
      "├── 📱 Pages";
      "│   ├── Home (Desktop/Tablet/Mobile)";
      "│   ├── Rooms (Desktop/Tablet/Mobile)";
      "│   ├─��� Room Details (Desktop/Tablet/Mobile)";
      "│   ├── Services (Desktop/Tablet/Mobile)";
      "│   ├── Service Details (Desktop/Tablet/Mobile)";
      "│   ├── Attractions (Desktop/Tablet/Mobile)";
      "│   ├── Login (Desktop/Tablet/Mobile)";
      "│   └── Register (Desktop/Tablet/Mobile)";
      "└── 🔄 Prototype";
      "    └── Navigation Flow";
      "```";
      "" ].

Definition generatePagesGuide : io unit :=
  console_log "📄 Gerando guia de páginas...";;
  writeFileSync (PAGES_DIR ++ ["README.md"]) pages_guide;;
  console_log "✅ Guia de páginas gerado".

(** ** [generateNavigationFlow], lines 340 to 415 *)

Section Navigation.
Context {num : Type}.

Definition nav_node (title type : string) (connections : list string) : value num :=
  Obj [("title", Str title); ("type", Str type);
       ("connections", Arr (map Str connections))].

Definition nav_interaction (from to trigger animation : string) : value num :=
  Obj [("from", Str from); ("to", Str to);
       ("trigger", Str trigger); ("animation", Str animation)].

Definition navigationFlow : value num :=
  Obj [("title", Str "Hotel Booking - Navigation Flow");
       ("startNode", Str "home");
       ("nodes",
        Obj [("home", nav_node "Home" "page" ["rooms"; "services"; "attractions"; "login"]);
             ("rooms", nav_node "Rooms List" "page" ["home"; "room-details"; "login"]);
             ("room-details", nav_node "Room Details" "page" ["rooms"; "payment-modal"]);
             ("services", nav_node "Services List" "page" ["home"; "service-details"; "login"]);
             ("service-details",
              nav_node "Service Details" "page" ["services"; "payment-modal"]);
             ("attractions", nav_node "Attractions" "page" ["home"]);
             ("login", nav_node "Login" "page" ["register"; "home"]);
             ("register", nav_node "Register" "page" ["login"; "home"]);
             ("payment-modal",
              nav_node "Payment Modal" "overlay" ["room-details"; "service-details"])]);
       ("interactions",
        Arr [nav_interaction "home" "rooms" "header-nav" "navigate";
             nav_interaction "room-details" "payment-modal" "book-now-button"
               "modal-overlay"])].

Context `{JSON num}.

Definition generateNavigationFlow : io unit :=
  console_log "🔄 Gerando fluxo de navegação...";;
  writeFileSync (OUTPUT_DIR ++ ["navigation-flow.json"]) (JSON_stringify navigationFlow);;
  console_log "✅ Fluxo de navegação gerado".

End Navigation.

(** ** [generateImportGuide], lines 417 to 581 *)

Definition import_guide : string :=
  Array_join LF
    [ "# 🎨 Guia de Importação para Figma";
      "";
      "## 📋 Checklist de Preparação";
      "";
      "### 1. Capturar Screenshots";
      "```bash";
      "# Instalar dependências";
      "npm install puppeteer";
      "";
      "# Executar captura";
      "node scripts/capture-screens.js";
      "";
      "# Verificar exports/screenshots/";
      "```";
      "";
      "### 2. Preparar Assets";
      "- ✅ Screenshots de todas as páginas";
      "- ✅ Design tokens exportados";
      "- ✅ Especificações de componentes";
      "- ✅ Fluxo de navegação";
      "";
      "## 🚀 Importação no Figma";
      "";
      "### Opção 1: Plugin " +:+ DQ +:+ "HTML/CSS to Figma" +:+ DQ +:+ "";
      "1. **Instalar plugin** no Figma";
      "2. **Abrir novo arquivo** Figma";
      "3. **Executar plugin** e colar HTML/CSS de cada página";
      "4. **Organizar frames** por breakpoint";
      "";
      "### Opção 2: Manual com Screenshots";
      "1. **Criar novo arquivo** Figma";
      "2. **Importar screenshots** por drag & drop";
      "3. **Organizar em frames** (1440x900, 768x1024, 375x812)";
      "4. **Recriar componentes** usando screenshots como referência";
      "";
      "### Opção 3: Plugin " +:+ DQ +:+ "Figma from Code" +:+ DQ +:+ "";
      "1. **Conectar repositório** GitHub ao plugin";
      "2. **Mapear componentes** React para Figma";
      "3. **Importar estrutura** automaticamente";
      "4. **Ajustar styling** conforme necessário";
      "";
      "## 🎨 Configuração do Design System";
      "";
      "### 1. Importar Variables";
      "```";
      "Figma → Libraries → Variables → Import";
      "Arquivo: exports/figma-ready/tokens/figma-variables.json";
      "```";
      "";
      "### 2. Criar Components";
      "- Use **Component Sets** para variantes";
      "- Configure **Properties** para estados";
      "- Aplique **Auto Layout** para responsividade";
      "- Use **Constraints** para diferentes tamanhos";
      "";
      "### 3. Organizar Biblioteca";
      "```";
      "📁 Hotel Booking System";
      "├── 🎨 Foundations";
      "│   ├── Colors";
      "│   ├── Typography";
      "│   ├── Spacing";
      "│   └── Effects";
      "├── 🧩 Components";
      "│   ├── Header";
      "│   ├── Footer";
      "│   ├── Cards";
      "│   ├── Forms";
      "│   └── Modals";
      "└── 📱 Templates";
      "    ├── Home";
      "    ├── Rooms";
      "    ├── Services";
      "    └── Auth";
      "```";
      "";
      "## 🔄 Configurar Protótipo";
      "";
      "### 1. Connections";
      "- **Smart Animate** entre páginas";
      "- **Overlay** para modals";
      "- **Scroll** para páginas longas";
      "";
      "### 2. Interactions";
      "```";
      "Header Navigation:";
      "Home → On Click → Navigate to → Rooms";
      "";
      "Book Now Button:";
      "Room Details → On Click → Open Overlay → Payment Modal";
      "";
      "Mobile Menu:";
      "Header → On Click → Smart Animate → Mobile Menu Open";
      "```";
      "";
      "### 3. Device Frames";
      "- **Desktop**: 1440x900";
      "- **Tablet**: 768x1024  ";
      "- **Mobile**: 375x812";
      "";
      "## 📱 Responsividade";
      "";
      "### Auto Layout Settings";
      "- **Direction**: Vertical para páginas";
      "- **Spacing**: Entre elementos (8px, 16px, 24px)";
      "- **Padding**: Interno dos containers (16px, 24px, 32px)";
      "- **Resizing**: Fill container para largura";
      "";
      "### Constraints";
      "- **Header**: Fixed top";
      "- **Footer**: Fixed bottom";
      "- **Content**: Scale para altura";
      "- **Sidebar**: Fixed left (se aplicável)";
      "";
      "## 🎯 Finalização";
      "";
      "### 1. Testar Protótipo";
      "- [ ] Navegação entre páginas funciona";
      "- [ ] Responsividade em diferentes tamanhos";
      "- [ ] Modals abrem/fecham corretamente";
      "- [ ] Estados hover/active aplicados";
      "";
      "### 2. Documentar";
      "- [ ] Adicionar descriptions aos components";
      "- [ ] Documentar interactions complexas";
      "- [ ] Criar style guide page";
      "- [ ] Configurar sharing settings";
      "";
      "### 3. Compartilhar";
      "- [ ] Publicar biblioteca se necessário";
      "- [ ] Configurar permissions";
      "- [ ] Gerar link de protótipo";
      "- [ ] Testar em diferentes dispositivos";
      "";
      "## 🔗 Links Úteis";
      "";
      "- [Figma Dev Mode](https://help.figma.com/hc/en-us/articles/15023124644247)";
      "- [Auto Layout Guide](https://help.figma.com/hc/en-us/articles/5731482952599)";
      "- [Prototyping in Figma](https://help.figma.com/hc/en-us/articles/360040314193)";
      "- [Component Properties](https://help.figma.com/hc/en-us/articles/5579474826519)";
      "";
      "## ✨ Tips & Tricks";
      "";
      "### Performance";
      "- Use **Instance Swap** para conteúdo dinâmico";
      "- Otimize **imagens** antes de importar";
      "- Minimize **sobreposições** desnecessárias";
      "";
      "### Manutenção";
      "- Mantenha **naming consistency** ";
      "- Use **description fields** para documentação";
      "- Configure **version control** para mudanças grandes";
      "";
      "### Colaboração";
      "- Use **comments** para feedback";
      "- Configure **branch review** se necessário  ";
      "- Documente **handoff specs** para desenvolvimento";
      "" ].

Definition generateImportGuide : io unit :=
  console_log "📖 Gerando guia de importação...";;
  writeFileSync (OUTPUT_DIR ++ ["IMPORT-GUIDE.md"]) import_guide;;
  console_log "✅ Guia de importação gerado".

(** ** [prepareExport] and [main], lines 18 to 44 and 584 to 597 *)

Section Main.
Context {num : Type} `{Number num} `{JSON num}.

(** The callback of line 22. *)
Definition ensure_dir (dir : fspath) : io unit :=
  found ← existsSync dir;
  if negb found then mkdirSync_recursive dir else mret tt.

Definition prepareExport : io unit :=
  console_log "🎨 Preparando exportação para Figma...";;
  forEach_io ensure_dir [OUTPUT_DIR; COMPONENTS_DIR; PAGES_DIR; ASSETS_DIR; TOKENS_DIR];;
  exportDesignTokens;;
  generateComponentSpecs;;
  generatePagesGuide;;
  generateNavigationFlow;;
  generateImportGuide;;
  console_log "✅ Exportação preparada em: ./exports/figma-ready".

Definition main : io unit :=
  prepareExport;;
  console_log (LF +:+ "🎉 Exportação completa!");;
  console_log (LF +:+ "📋 Próximos passos:");;
  console_log "1. Execute: node scripts/capture-screens.js";;
  console_log "2. Abra o Figma e siga o guia: exports/figma-ready/IMPORT-GUIDE.md";;
  console_log "3. Use screenshots como referência para recriar componentes";;
  console_log "4. Configure protótipo interativo com navegação".

(** Line 596, [main().catch(console.error)], as the entry point of
    [node export-to-figma.js]. *)
Definition entry_point : io unit := catch main console_error.

(** The exit code of the process once the promise of the entry point has
    settled: a rejection nobody handles ends Node with code 1, and nothing
    in the script sets another code. *)
Definition exit_code (settled : result unit) : Z :=
  match settled with
  | Ok _ => 0
  | Throw _ => 1
  end.

Definition run_script (w : world) : world * Z :=
  let '(w', settled) := entry_point w in (w', exit_code settled).

End Main.

(** * Vocabulary of the specification *)

(** The three categories of tokens and the lookup table of the
    specification, section 4.1. *)
Inductive category : Type := Color | Spacing | FontSize.

Definition category_prefix (c : category) : string :=
  match c with
  | Color => "color/"
  | Spacing => "spacing/"
  | FontSize => "typography/size/"
  end.

Definition category_type (c : category) : string :=
  match c with
  | Color => "color"
  | Spacing | FontSize => "dimension"
  end.

Definition category_scopes (c : category) : list string :=
  match c with
  | Color => ["ALL_SCOPES"]
  | Spacing => ["GAP"; "SPACING"; "WIDTH_HEIGHT"]
  | FontSize => ["FONT_SIZE"]
  end.

(** [s.split("\n")]. *)
Fixpoint lines (s : string) : list string :=
  match s with
  | EmptyString => [EmptyString]
  | String c r =>
      if Ascii.eqb c (ascii_of_nat 10) then EmptyString :: lines r
      else match lines r with
           | [] => [String c EmptyString]
           | l :: ls => String c l :: ls
           end
  end.

Fixpoint single_line (s : string) : bool :=
  match s with
  | EmptyString => true
  | String c r => negb (Ascii.eqb c (ascii_of_nat 10)) && single_line r
  end.

Section Vocabulary.
Context {num : Type} `{Number num}.

Local Abbreviation value := (value num).

(** A value as [JSON.parse] builds it: no [undefined] inside, and no two
    properties of an object with the same name. *)
Fixpoint well_formed (v : value) : bool :=
  match v with
  | Undefined => false
  | Arr elts => forallb well_formed elts
  | Obj props =>
      bool_decide (NoDup (map fst props))
      && forallb (fun kx => match kx with (_, x) => well_formed x end) props
  | _ => true
  end.

(** The entries of a map of the token document; none when the map is
    absent. *)
Definition entries_of (v : value) : list (string * value) :=
  match Object_entries v with
  | Ok es => es
  | Throw _ => []
  end.

Definition member (v : value) (k : string) : value := default Undefined (own v k).

(** The entries of [colors], of [spacing] and of
    [typography["font-size"]]. *)
Definition category_entries (c : category) (doc : value) : list (string * value) :=
  match c with
  | Color => entries_of (member doc "colors")
  | Spacing => entries_of (member doc "spacing")
  | FontSize =>
      match own doc "typography" with
      | Some typography => entries_of (member typography "font-size")
      | None => []
      end
  end.

(** The converter's constructor of each category. *)
Definition category_variable (c : category) : value -> result value :=
  match c with
  | Color => color_variable
  | Spacing => spacing_variable
  | FontSize => font_size_variable
  end.

(** The schema of the token document, section 6 of the specification: a
    token is an object with a string for [value], a map of tokens an object
    of tokens. *)
Definition is_token (t : value) : bool :=
  match own t "value" with
  | Some (Str _) => true
  | _ => false
  end.

Definition token_map (v : value) : bool :=
  match v with
  | Obj props => forallb (fun kv => is_token (snd kv)) props
  | _ => false
  end.

Definition conforms (doc : value) : bool :=
  match doc with
  | Obj _ =>
      token_map (member doc "colors")
      && token_map (member doc "spacing")
      && match own doc "typography" with
         | None => true
         | Some (Obj typography) =>
             match assoc "font-size" typography with
             | None => true
             | Some sizes => token_map sizes
             end
         | Some _ => false
         end
  | _ => false
  end.

(** [new] holds the variables of the entries of category [c], one per
    entry and in their order. *)
Definition stored (c : category) (doc : value) (new : list (string * value)) : Prop :=
  Forall2 (fun en kv => fst kv = category_prefix c +:+ fst en
                        /\ category_variable c (snd en) = Ok (snd kv))
          (category_entries c doc) new.

(** The entries under [tokens] of the document [JSON.stringify] writes. *)
Definition emitted_tokens (fig : value) : list (string * value) :=
  match own (serialized fig) "tokens" with
  | Some (Obj vars) => vars
  | _ => []
  end.

(** [v.k1.k2...] in an emitted document. *)
Fixpoint own_path (v : value) (ks : list string) : option value :=
  match ks with
  | [] => Some v
  | k :: r =>
      match own v k with
      | Some x => own_path x r
      | None => None
      end
  end.

Definition has_field (v : value) (ks : list string) : Prop := is_Some (own_path v ks).

(** An input token that gives a value. *)
Definition has_value (token : value) : Prop :=
  exists v, own token "value" = Some v /\ v <> Undefined.

(** The text a template literal prints for [token.value]. *)
Definition printed_value (token : value) : result string :=
  v ← get token "value"; ToString v.

(** A CSS declaration of a custom property, and the declaration lines of
    a CSS text for one prefix. *)
Definition declaration (prefix name val : string) : string :=
  "--" +:+ prefix +:+ "-" +:+ name +:+ ": " +:+ val +:+ ";".

(** [line] is the declaration of the entry [en], indented as the template
    indents it. *)
Definition declared (prefix : string) (en : string * value) (line : string) : Prop :=
  exists s, printed_value (snd en) = Ok s /\ line = "  " +:+ declaration prefix (fst en) s.

Definition declaration_lines (prefix css : string) : list string :=
  filter (fun l => String.prefix ("  --" +:+ prefix +:+ "-") l = true) (lines css).

Definition entry_single_line (entry : string * value) : bool :=
  single_line (fst entry)
  && match printed_value (snd entry) with
     | Ok s => single_line s
     | Throw _ => true
     end.

End Vocabulary.

(** The paths a resolution of [rest] from [cur] looks up. *)
Fixpoint ancestors (cur rest : fspath) : list fspath :=
  match rest with
  | [] => []
  | x :: r => (cur ++ [x]) :: ancestors (cur ++ [x]) r
  end.

(** [m'] is [m] with directories made at some of the paths [ps], where [m]
    had nothing. *)
Definition made_dirs (m m' : gmap fspath node) (ps : list fspath) : Prop :=
  forall p, m' !! p = m !! p \/ (p ∈ ps /\ m !! p = None /\ m' !! p = Some Dir).

(** The directories [prepareExport] makes sure of, and the files the five
    steps write. *)
Definition export_dirs : list fspath :=
  [OUTPUT_DIR; COMPONENTS_DIR; PAGES_DIR; ASSETS_DIR; TOKENS_DIR].

Definition token_files : list fspath :=
  [TOKENS_DIR ++ ["figma-variables.json"]; TOKENS_DIR ++ ["tokens.css"]].

Definition later_files : list fspath :=
  map component_file components
  ++ [PAGES_DIR ++ ["README.md"];
      OUTPUT_DIR ++ ["navigation-flow.json"];
      OUTPUT_DIR ++ ["IMPORT-GUIDE.md"]].

Definition output_files : list fspath := token_files ++ later_files.

Section WorldVocabulary.
Context {num : Type} `{JSON num}.

(** The token document is missing, is no file, or is no JSON text. *)
Definition unreadable (w : world) : Prop :=
  match stat (files w) tokensPath with
  | Ok (File text) => JSON_parse text = None
  | _ => True
  end.

End WorldVocabulary.

Section NavigationVocabulary.
Context {num : Type}.

Definition strings_of (v : value num) : list string :=
  match v with
  | Arr elts => omap (fun x => match x with Str s => Some s | _ => None end) elts
  | _ => []
  end.

Definition node_ids (flow : value num) : list string :=
  map fst (entries_of (member flow "nodes")).

(** Every identifier the graph refers to: the start node, the connections
    of every node, and both ends of every interaction. *)
Definition references (flow : value num) : list string :=
  strings_of (Arr [member flow "startNode"])
  ++ concat (map (fun kv => strings_of (member (snd kv) "connections"))
                 (entries_of (member flow "nodes")))
  ++ concat (map (fun i => strings_of (Arr [member i "from"; member i "to"]))
                 (match member flow "interactions" with Arr l => l | _ => [] end)).

Definition referentially_closed (flow : value num) : Prop :=
  Forall (fun id => id ∈ node_ids flow) (references flow).

End NavigationVocabulary.

(** The files a list of writes leaves. *)
Definition write_one (pc : fspath * string) : io unit := writeFileSync (fst pc) (snd pc).

Definition write_all (outs : list (fspath * string)) (m : gmap fspath node) : gmap fspath node :=
  foldl (fun m pc => <[fst pc := File (snd pc)]> m) m outs.

Definition component_outputs : list (fspath * string) :=
  map (fun component => (component_file component, component_spec component)) components.

(** A computation that ends well and leaves the files [fs] as they are. *)
Definition keeps (m : io unit) (fs : gmap fspath node) : Prop :=
  forall cs, exists cs', m (World fs cs) = (World fs cs', Ok tt).

Section Outputs.
Context {num : Type} `{JSON num}.

(** What a run writes, in the order of the writes, for the document [fig]
    of Figma variables and the CSS text [css] of the token document. *)
Definition token_outputs (fig : value num) (css : string) : list (fspath * string) :=
  [(TOKENS_DIR ++ ["figma-variables.json"], JSON_stringify fig);
   (TOKENS_DIR ++ ["tokens.css"], css)].

Definition outputs (fig : value num) (css : string) : list (fspath * string) :=
  token_outputs fig css
  ++ component_outputs
  ++ [(PAGES_DIR ++ ["README.md"], pages_guide);
      (OUTPUT_DIR ++ ["navigation-flow.json"], JSON_stringify navigationFlow);
      (OUTPUT_DIR ++ ["IMPORT-GUIDE.md"], import_guide)].

End Outputs.

(** * Examples *)

(** Whole numbers, printed in decimal as JavaScript prints them. *)
#[global] Instance Z_Number : Number Z := {
  Number_toString z := NilZero.string_of_int (Z.to_int z);
  Number_toBoolean z := negb (Z.eqb z 0)
}.

Section Examples.
Context {num : Type}.

(** The example of the specification, section 8. *)
Definition spec_example : value num :=
  Obj [("colors", Obj [("primary", Obj [("value", Str "#FF0000")])]);
       ("spacing", Obj [("sm", Obj [("value", Str "4px")])])].

(** One color, whose value runs over two lines. *)
Definition two_line_color : value num :=
  Obj [("colors", Obj [("a", Obj [("value", Str ("x;" +:+ LF +:+ "  --color-b: y"))])]);
       ("spacing", Obj [])].

(** A document with the three categories and a description. *)
Definition full_example : value num :=
  Obj [("colors", Obj [("primary", Obj [("value", Str "#FF0000");
                                        ("description", Str "Brand")]);
                       ("muted", Obj [("value", Str "#888888")])]);
       ("spacing", Obj [("sm", Obj [("value", Str "4px")])]);
       ("typography", Obj [("font-size", Obj [("base", Obj [("value", Str "16px")])])])].

End Examples.

(** A runtime for the examples.  It prints with an indentation of two
    spaces, quoting strings without escapes (the examples need none), and
    reads one text: that of [spec_example]. *)
Fixpoint spaces (n : nat) : string :=
  match n with
  | O => ""
  | S n => " " +:+ spaces n
  end.

Fixpoint print_json (depth : nat) (v : value Z) : string :=
  match v with
  | Undefined | Null => "null"
  | Bool true => "true"
  | Bool false => "false"
  | Num n => Number_toString n
  | Str s => DQ +:+ s +:+ DQ
  | Arr [] => "[]"
  | Arr elts =>
      "[" +:+ LF
      +:+ Array_join ("," +:+ LF)
            (map (fun x => spaces (2 * S depth) +:+ print_json (S depth) x) elts)
      +:+ LF +:+ spaces (2 * depth) +:+ "]"
  | Obj props =>
      match omap (fun kx => match kx with
                            | (_, Undefined) => None
                            | (k, x) =>
                                Some (spaces (2 * S depth) +:+ DQ +:+ k +:+ DQ +:+ ": "
                                      +:+ print_json (S depth) x)
                            end) props with
      | [] => "{}"
      | members =>
          "{" +:+ LF +:+ Array_join ("," +:+ LF) members
          +:+ LF +:+ spaces (2 * depth) +:+ "}"
      end
  end.

Definition spec_example_text : string := print_json 0 spec_example.

#[global] Instance example_JSON : JSON Z := {
  JSON_parse text := if String.eqb text spec_example_text then Some spec_example else None;
  JSON_stringify v := print_json 0 v
}.

(** An empty working directory, and one that holds the token document of
    the example. *)
Definition empty_world : world := World ∅ [].

Definition example_world : world :=
  World {[ ["tokens"] := Dir; tokensPath := File spec_example_text ]} [].

(** A working directory with the directory of the component files. *)
Definition components_world : world :=
  World {[ ["exports"] := Dir; OUTPUT_DIR := Dir; COMPONENTS_DIR := Dir ]} [].

(** * Vocabulary of the further properties *)

Section MoreVocabulary.
Context {num : Type} `{Number num}.
Local Abbreviation value := (value num).

(** [undefined] and [null], the values a property read throws on. *)
Definition nullish (v : value) : bool :=
  match v with
  | Undefined | Null => true
  | _ => false
  end.

(** A map the converter can walk: it is there, and none of its tokens is
    [null]. *)
Definition tokens_readable (v : value) : bool :=
  negb (nullish v) && forallb (fun kx => negb (nullish (snd kx))) (entries_of v).

(** The documents on which the converter does not throw. *)
Definition convertible (doc : value) : bool :=
  negb (nullish doc)
  && tokens_readable (member doc "colors")
  && tokens_readable (member doc "spacing")
  && (if truthy (member doc "typography")
      then tokens_readable (or_else (member (member doc "typography") "font-size") (Obj []))
      else true).

(** A map the CSS template can walk: it is there, and the [value] of each
    of its tokens can be read and printed. *)
Definition tokens_printable (v : value) : bool :=
  negb (nullish v) && forallb (fun kx => is_ok (printed_value (snd kx))) (entries_of v).
End MoreVocabulary.

(** The lines [arr.join("\n")] takes in a text: an empty array still takes
    one, empty, line. *)
Definition block (ls : list string) : list string :=
  match ls with
  | [] => [""]
  | _ => ls
  end.

(** [m'] is [m] but for directories made at paths of [ds] where [m] had
    nothing, and files made or replaced at paths of [fs] where [m] had no
    directory. *)
Definition touched (ds fs : list fspath) (m m' : gmap fspath node) : Prop :=
  forall p,
    m' !! p = m !! p
    \/ (p ∈ ds /\ m !! p = None /\ m' !! p = Some Dir)
    \/ (p ∈ fs /\ m !! p <> Some Dir /\ exists c, m' !! p = Some (File c)).

(** A computation that does no more than that to the files, whatever its
    outcome. *)
Definition confined {A} (ds fs : list fspath) (m : io A) : Prop :=
  forall w w' r, m w = (w', r) -> touched ds fs (files w) (files w').

(** Every directory the script may make. *)
Definition all_dirs : list fspath := ["exports"] :: export_dirs.

(** What a run that ends well prints, line by line. *)
Definition transcript : list string :=
  ["🎨 Preparando exportação para Figma...";
   "📋 Exportando design tokens...";
   "✅ Design tokens exportados";
   "🧩 Gerando especificações de componentes...";
   "✅ Especificações de componentes geradas";
   "📄 Gerando guia de páginas...";
   "✅ Guia de páginas gerado";
   "🔄 Gerando fluxo de navegação...";
   "✅ Fluxo de navegação gerado";
   "📖 Gerando guia de importação...";
   "✅ Guia de importação gerado";
   "✅ Exportação preparada em: ./exports/figma-ready";
   LF +:+ "🎉 Exportação completa!";
   LF +:+ "📋 Próximos passos:";
   "1. Execute: node scripts/capture-screens.js";
   "2. Abra o Figma e siga o guia: exports/figma-ready/IMPORT-GUIDE.md";
   "3. Use screenshots como referência para recriar componentes";
   "4. Configure protótipo interativo com navegação"].

(** A computation that prints the lines [t] when it ends well, and the
    first [k] of them, for a [k] of [stops], when it throws. *)
Definition talks {A} (t : list string) (stops : list nat) (m : io A) : Prop :=
  forall w w' r,
    m w = (w', r) ->
    match r with
    | Ok _ => console w' = console w ++ map Log t
    | Throw _ =>
        exists k, k ∈ stops /\ k <= length t
                  /\ console w' = console w ++ map Log (take k t)
    end.

(** A step that either writes the file [p] with the text [c] and prints
    its two lines, or changes no file, prints its first line and throws. *)
Definition all_or_nothing (step : io unit) (a b : string) (p : fspath) (c : string)
    (w : world) : Prop :=
  (stat (files w) (removelast p) = Ok Dir
   /\ files w !! p <> Some Dir
   /\ step w = (World (<[p := File c]> (files w)) (console w ++ [Log a; Log b]), Ok tt))
  \/ (~ (stat (files w) (removelast p) = Ok Dir /\ files w !! p <> Some Dir)
      /\ exists e, step w = (World (files w) (console w ++ [Log a]), Throw e)).

(** ** Examples for the further properties *)

(** A color without a [value], and a color whose value cannot be printed:
    an object with a property [toString] of its own. *)
Definition valueless_color {num : Type} : value num :=
  Obj [("colors", Obj [("ghost", Obj [])]);
       ("spacing", Obj [])].

Definition unprintable_color : value Z :=
  Obj [("colors", Obj [("a", Obj [("value", Obj [("toString", Str "x")])])]);
       ("spacing", Obj [])].

(** A runtime that reads the text of a given document, and a working
    directory that holds this text and the directories of the export. *)
Definition reader_JSON (doc : value Z) : JSON Z := {|
  JSON_parse text := if String.eqb text (print_json 0 doc) then Some doc else None;
  JSON_stringify v := print_json 0 v
|}.

Definition prepared_world (doc : value Z) : world :=
  World {[ ["tokens"] := Dir; tokensPath := File (print_json 0 doc);
           ["exports"] := Dir; OUTPUT_DIR := Dir; TOKENS_DIR := Dir ]} [].

(** A working directory in which a directory sits where the file of the
    third component goes. *)
Definition blocked_components_world : world :=
  World {[ ["exports"] := Dir; OUTPUT_DIR := Dir; COMPONENTS_DIR := Dir;
           COMPONENTS_DIR ++ ["RoomCard.md"] := Dir ]} [].

(** A component without props and a page, for the templates. *)
Definition badge : Component.t :=
  Component.Make "Badge" "Etiqueta de estado" [] ["default"; "active"] ["small"].

Definition contact_page : Page.t :=
  Page.Make "Contact" "/contact" "Formulário de contato" ["Header"; "Footer"]
            ["Desktop"; "Mobile"].


(** * Properties of the token converter *)

Lemma result_bind_Ok {A B} (r : result A) (k : A -> result B) (b : B) :
  r ≫= k = Ok b -> exists a, r = Ok a /\ k a = Ok b.
Proof. destruct r as [a|e]; simpl; [eauto | discriminate]. Qed.

Tactic Notation "inv_bind" hyp(H) "as" ident(a) ident(Ha) :=
  apply result_bind_Ok in H; destruct H as (a & Ha & H).

Tactic Notation "inv_bind" hyp(H) :=
  let a := fresh "a" in
  let Ha := fresh "Ha" in
  apply result_bind_Ok in H; destruct H as (a & Ha & H).

Lemma append_inj (p a b : string) : p +:+ a = p +:+ b -> a = b.
Proof. induction p as [|c p IH]; simpl; [done | intros [= ?]; auto]. Qed.

Lemma index_key_inj : Inj (=) (=) index_key.
Proof.
  intros i j Hij. apply Unsigned.to_uint_inj.
  assert (Hs : Some (Nat.to_uint i) = Some (Nat.to_uint j)); [| by injection Hs].
  rewrite <- !NilEmpty.usu. unfold index_key in Hij. by rewrite Hij.
Qed.

Lemma indexed_keys {A} (i : nat) (l : list A) :
  map fst (indexed i l) = map index_key (seq i (length l)).
Proof. revert i; induction l as [|x l IH]; intros i; simpl; [done | by rewrite IH]. Qed.

Lemma assoc_elem_of {A} (k : string) (l : list (string * A)) (v : A) :
  assoc k l = Some v -> (k, v) ∈ l.
Proof.
  induction l as [|[k' v'] l IH]; simpl; [done |].
  destruct (String.eqb_spec k k') as [->|]; [intros [= ->]; left | right; auto].
Qed.

Lemma assign_fresh {A} (k : string) (v : A) (l : list (string * A)) :
  k ∉ map fst l -> assign k v l = l ++ [(k, v)].
Proof.
  induction l as [|[k' v'] l IH]; simpl; intros Hk; [done |].
  apply not_elem_of_cons in Hk as [Hne Hk].
  destruct (String.eqb_spec k k'); [done | by rewrite IH].
Qed.

Section ConverterProperties.
Context {num : Type} `{Number num}.

Local Abbreviation value := (value num).

Lemma get_Ok (v x : value) (k : string) : get v k = Ok x -> x = member v k.
Proof. unfold member; destruct v; simpl; congruence. Qed.

Lemma well_formed_own (v x : value) (k : string) :
  well_formed v = true -> own v k = Some x -> well_formed x = true.
Proof.
  destruct v; simpl; try done.
  intros [_ Hall]%andb_prop Hk%assoc_elem_of.
  rewrite forallb_forall in Hall. apply list_elem_of_In in Hk. exact (Hall _ Hk).
Qed.

Lemma entries_NoDup (v : value) (es : list (string * value)) :
  well_formed v = true -> Object_entries v = Ok es -> NoDup (map fst es).
Proof.
  destruct v; simpl; try done; intros Hwf [= <-].
  - apply NoDup_nil_2.
  - apply NoDup_nil_2.
  - rewrite indexed_keys. apply (NoDup_fmap_2 _ (Inj0 := index_key_inj)), NoDup_seq.
  - rewrite indexed_keys. apply (NoDup_fmap_2 _ (Inj0 := index_key_inj)), NoDup_seq.
  - apply andb_prop in Hwf as [Hnd _]. by apply bool_decide_eq_true in Hnd.
Qed.

(** A loop of the converter appends one variable per entry, in order, as
    long as the names of the entries differ and none of the new keys is in
    use. *)
Lemma forEach_store (p : string) (mk : value -> result value)
    (es vars vars' : list (string * value)) :
  NoDup (map fst es) ->
  (forall name, name ∈ map fst es -> p +:+ name ∉ map fst vars) ->
  forEach (store p mk) es vars = Ok vars' ->
  exists new, vars' = vars ++ new
    /\ Forall2 (fun en kv => fst kv = p +:+ fst en /\ mk (snd en) = Ok (snd kv)) es new.
Proof.
  revert vars. induction es as [|[name token] es IH]; simpl; intros vars Hnd Hfresh Hrun.
  - injection Hrun as <-. exists []. by rewrite app_nil_r.
  - apply NoDup_cons in Hnd as [Hname Hnd].
    inv_bind Hrun. unfold store in Ha. inv_bind Ha. injection Ha as <-.
    rewrite assign_fresh in Hrun by (apply Hfresh; left).
    apply IH in Hrun as (new & -> & Hnew); [| done |].
    + exists ((p +:+ name, a0) :: new). split; [by rewrite <- app_assoc |].
      constructor; [done | exact Hnew].
    + intros name' Hin. rewrite map_app, elem_of_app. intros [Hold | Hnew].
      * revert Hold. apply Hfresh. by right.
      * simpl in Hnew. apply list_elem_of_singleton, append_inj in Hnew. by subst.
Qed.

Lemma entries_of_NoDup (v : value) :
  well_formed v = true -> NoDup (map fst (entries_of v)).
Proof.
  intros Hwf. unfold entries_of. destruct (Object_entries v) as [es|] eqn:Hes.
  - by eapply entries_NoDup.
  - apply NoDup_nil_2.
Qed.

Lemma member_NoDup (v : value) (k : string) :
  well_formed v = true -> NoDup (map fst (entries_of (member v k))).
Proof.
  intros Hwf. unfold member. destruct (own v k) as [x|] eqn:Hx; simpl.
  - eapply entries_of_NoDup, well_formed_own; eauto.
  - apply NoDup_nil_2.
Qed.

Lemma category_entries_NoDup (c : category) (doc : value) :
  well_formed doc = true -> NoDup (map fst (category_entries c doc)).
Proof.
  intros Hwf. destruct c; simpl; try by apply member_NoDup.
  destruct (own doc "typography") as [t|] eqn:Ht; [| apply NoDup_nil_2].
  eapply member_NoDup, well_formed_own; eauto.
Qed.

Lemma entries_of_Ok (v : value) (es : list (string * value)) :
  Object_entries v = Ok es -> entries_of v = es.
Proof. unfold entries_of. by intros ->. Qed.

Lemma falsy_entries (v : value) : truthy v = false -> entries_of v = [].
Proof.
  destruct v; simpl; try done.
  unfold entries_of; simpl.
  destruct (String.eqb_spec s ""); [by subst | done].
Qed.

Lemma falsy_member_entries (v : value) (k : string) :
  truthy v = false -> entries_of (member v k) = [].
Proof. by destruct v. Qed.

Lemma truthy_member (v t : value) (k : string) :
  member v k = t -> truthy t = true -> own v k = Some t.
Proof. unfold member. destruct (own v k); simpl; [congruence | by intros <-]. Qed.

(** Each of the three stages appends the variables of its category. *)
Lemma convert_stage (c : category) (doc : value) (vars vars' : list (string * value)) :
  well_formed doc = true ->
  (forall name, category_prefix c +:+ name ∉ map fst vars) ->
  forEach (store (category_prefix c) (category_variable c)) (category_entries c doc) vars
    = Ok vars' ->
  exists new, vars' = vars ++ new /\ stored c doc new.
Proof.
  intros Hwf Hfresh Hrun.
  eapply forEach_store in Hrun; eauto using category_entries_NoDup.
Qed.

Lemma convert_colors_stored (doc : value) (vars vars' : list (string * value)) :
  well_formed doc = true ->
  (forall name, "color/" +:+ name ∉ map fst vars) ->
  convert_colors doc vars = Ok vars' ->
  exists new, vars' = vars ++ new /\ stored Color doc new.
Proof.
  intros Hwf Hfresh Hrun. unfold convert_colors in Hrun.
  inv_bind Hrun. apply get_Ok in Ha as ->.
  inv_bind Hrun. apply entries_of_Ok in Ha as <-.
  by apply (convert_stage Color).
Qed.

Lemma convert_spacing_stored (doc : value) (vars vars' : list (string * value)) :
  well_formed doc = true ->
  (forall name, "spacing/" +:+ name ∉ map fst vars) ->
  convert_spacing doc vars = Ok vars' ->
  exists new, vars' = vars ++ new /\ stored Spacing doc new.
Proof.
  intros Hwf Hfresh Hrun. unfold convert_spacing in Hrun.
  inv_bind Hrun. apply get_Ok in Ha as ->.
  inv_bind Hrun. apply entries_of_Ok in Ha as <-.
  by apply (convert_stage Spacing).
Qed.

Lemma convert_typography_stored (doc : value) (vars vars' : list (string * value)) :
  well_formed doc = true ->
  (forall name, "typography/size/" +:+ name ∉ map fst vars) ->
  convert_typography doc vars = Ok vars' ->
  exists new, vars' = vars ++ new /\ stored FontSize doc new.
Proof.
  intros Hwf Hfresh Hrun. unfold convert_typography in Hrun.
  inv_bind Hrun. apply get_Ok in Ha. symmetry in Ha.
  destruct (truthy a) eqn:Ht.
  - pose proof (truthy_member _ _ _ Ha Ht) as Hown.
    inv_bind Hrun. apply get_Ok in Ha0 as ->.
    inv_bind Hrun.
    assert (Hes : category_entries FontSize doc = a0).
    { simpl. rewrite Hown. unfold or_else in Ha0.
      destruct (truthy (member a "font-size")) eqn:Hs.
      - by apply entries_of_Ok.
      - injection Ha0 as <-. by apply falsy_entries. }
    rewrite <- Hes in Hrun. by apply (convert_stage FontSize).
  - injection Hrun as <-. exists []. split; [by rewrite app_nil_r |].
    unfold stored; simpl. destruct (own doc "typography") as [t|] eqn:Hown.
    + unfold member in Ha. rewrite Hown in Ha. simpl in Ha. subst t.
      rewrite falsy_member_entries by done. constructor.
    + constructor.
Qed.

Lemma stored_keys (c : category) (doc : value) (new : list (string * value)) :
  stored c doc new ->
  map fst new = map (String.append (category_prefix c)) (map fst (category_entries c doc)).
Proof.
  unfold stored. induction 1 as [|en kv es new [Hk _] _ IH]; simpl; [done |].
  by rewrite Hk, IH.
Qed.

Lemma stored_key_elem (c : category) (doc : value) (new : list (string * value)) (k : string) :
  stored c doc new -> k ∈ map fst new ->
  exists name, k = category_prefix c +:+ name /\ name ∈ map fst (category_entries c doc).
Proof.
  intros Hst. rewrite (stored_keys _ _ _ Hst). intros (name & -> & Hin)%list_elem_of_fmap.
  eauto.
Qed.

(** The document the converter builds holds the variables of the colors,
    then those of the spacings, then those of the font sizes. *)
Lemma figmaTokens_stored (doc fig : value) :
  well_formed doc = true ->
  figmaTokens doc = Ok fig ->
  exists cs ss ts, fig = figma_document (cs ++ ss ++ ts)
    /\ stored Color doc cs /\ stored Spacing doc ss /\ stored FontSize doc ts.
Proof.
  intros Hwf Hrun. unfold figmaTokens in Hrun.
  inv_bind Hrun. apply convert_colors_stored in Ha as (cs & -> & Hcs);
    [| done | intros name Hin; by apply elem_of_nil in Hin].
  simpl in *.
  inv_bind Hrun. apply convert_spacing_stored in Ha as (ss & -> & Hss); [| done |].
  2:{ by intros name (n' & Heq & _)%(stored_key_elem Color doc). }
  inv_bind Hrun. apply convert_typography_stored in Ha as (ts & -> & Hts); [| done |].
  2:{ intros name. rewrite map_app, elem_of_app.
      by intros [(n' & Heq & _)%(stored_key_elem Color doc)
                |(n' & Heq & _)%(stored_key_elem Spacing doc)]. }
  injection Hrun as <-. exists cs, ss, ts. by rewrite <- app_assoc.
Qed.

Lemma serialized_Obj (props : list (string * value)) :
  serialized (Obj props) = Obj (omap written props).
Proof. reflexivity. Qed.

Lemma written_cons (k : string) (x : value) (r : list (string * value)) :
  x <> Undefined -> omap written ((k, x) :: r) = (k, serialized x) :: omap written r.
Proof. by destruct x. Qed.

Lemma written_all (vars : list (string * value)) :
  Forall (fun kv => snd kv <> Undefined) vars ->
  omap written vars = map (fun kv => (fst kv, serialized (snd kv))) vars.
Proof.
  induction 1 as [|[k x] vars Hx _ IH]; [done |].
  rewrite written_cons by done. simpl. by rewrite IH.
Qed.

Lemma undefined_dec (v : value) : {v = Undefined} + {v <> Undefined}.
Proof. destruct v; (by left) || (by right). Qed.

Lemma or_else_defined (a b : value) : b <> Undefined -> or_else a b <> Undefined.
Proof. unfold or_else. by destruct a; simpl; try case_match. Qed.

Lemma emitted_figma_document (vars : list (string * value)) :
  Forall (fun kv => snd kv <> Undefined) vars ->
  emitted_tokens (figma_document vars)
    = map (fun kv => (fst kv, serialized (snd kv))) vars.
Proof.
  intros Hvars. unfold emitted_tokens, figma_document.
  rewrite serialized_Obj. simpl. by rewrite written_all.
Qed.

Lemma has_value_member (token : value) :
  has_value token <-> member token "value" <> Undefined.
Proof.
  unfold has_value, member. destruct (own token "value") as [v|]; simpl.
  - split; [by intros (? & [= <-] & ?) | eauto].
  - split; [by intros (? & ? & ?) | done].
Qed.

Lemma category_variable_emitted (c : category) (token e : value) :
  category_variable c token = Ok e ->
  e <> Undefined
  /\ own (serialized e) "type" = Some (Str (category_type c))
  /\ own_path (serialized e) ["extensions"; "figma"; "collection"] = Some (Str "core")
  /\ own_path (serialized e) ["extensions"; "figma"; "scopes"]
     = Some (Arr (map Str (category_scopes c)))
  /\ (is_Some (own (serialized e) "value") <-> has_value token)
  /\ (is_Some (own (serialized e) "description") <-> c = Color)
  /\ (c = Color -> own token "description" = None ->
      own (serialized e) "description" = Some (Str "")).
Proof.
  intros He. rewrite has_value_member.
  destruct c; simpl in He.
  - unfold color_variable in He. inv_bind He. apply get_Ok in Ha as ->.
    inv_bind He. apply get_Ok in Ha as ->. injection He as <-.
    split; [done |]. rewrite serialized_Obj.
    pose proof (or_else_defined (member token "description") (Str "") ltac:(done)) as Hd.
    rewrite written_cons by done.
    destruct (undefined_dec (member token "value")) as [Hv | Hv].
    + rewrite Hv. change (omap written ((?k, Undefined) :: ?r)) with (omap written r).
      rewrite written_cons by done. simpl.
      repeat split; try done; try by intros [].
      intros _ Hnone. unfold member. by rewrite Hnone.
    + rewrite written_cons by done. rewrite written_cons by done. simpl.
      repeat split; try done; try by intros [].
      intros _ Hnone. unfold member. by rewrite Hnone.
  - unfold spacing_variable in He. inv_bind He. apply get_Ok in Ha as ->.
    injection He as <-.
    split; [done |]. rewrite serialized_Obj. rewrite written_cons by done.
    destruct (undefined_dec (member token "value")) as [Hv | Hv].
    + rewrite Hv. simpl. repeat split; try done; by intros [].
    + rewrite written_cons by done. simpl. repeat split; try done; by intros [].
  - unfold font_size_variable in He. inv_bind He. apply get_Ok in Ha as ->.
    injection He as <-.
    split; [done |]. rewrite serialized_Obj. rewrite written_cons by done.
    destruct (undefined_dec (member token "value")) as [Hv | Hv].
    + rewrite Hv. simpl. repeat split; try done; by intros [].
    + rewrite written_cons by done. simpl. repeat split; try done; by intros [].
Qed.

Lemma stored_defined (c : category) (doc : value) (new : list (string * value)) :
  stored c doc new -> Forall (fun kv => snd kv <> Undefined) new.
Proof.
  unfold stored. induction 1 as [|en kv es new [_ Hv] _ IH]; constructor; [| done].
  by apply category_variable_emitted in Hv as [? _].
Qed.

(** The entry of the emitted document for an entry of the input. *)
Lemma stored_lookup (c : category) (doc : value) (new : list (string * value))
    (name : string) (token : value) :
  stored c doc new -> (name, token) ∈ category_entries c doc ->
  exists e, (category_prefix c +:+ name, e) ∈ new /\ category_variable c token = Ok e.
Proof.
  unfold stored. induction 1 as [|en [k e] es new [Hk Hv] _ IH]; intros Hin.
  - by apply elem_of_nil in Hin.
  - apply elem_of_cons in Hin as [<- | Hin].
    + exists e. simpl in *. subst k. split; [left | done].
    + destruct (IH Hin) as (e' & ? & ?). exists e'. split; [by right | done].
Qed.

Lemma stored_elem (c : category) (doc : value) (new : list (string * value))
    (k : string) (e : value) :
  stored c doc new -> (k, e) ∈ new ->
  exists name token, (name, token) ∈ category_entries c doc
    /\ k = category_prefix c +:+ name /\ category_variable c token = Ok e.
Proof.
  unfold stored. induction 1 as [|[name token] [k' e'] es new [Hk Hv] _ IH]; intros Hin.
  - by apply elem_of_nil in Hin.
  - apply elem_of_cons in Hin as [[= -> ->] | Hin].
    + exists name, token. split; [left | done].
    + destruct (IH Hin) as (n' & t' & ? & ? & ?). exists n', t'. split; [by right | done].
Qed.

(** The entries the converter emits, spelled out: one per input entry, the
    colors first, then the spacings, then the font sizes. *)
Lemma emitted_tokens_stored (doc fig : value) :
  well_formed doc = true ->
  figmaTokens doc = Ok fig ->
  exists cs ss ts,
    emitted_tokens fig = map (fun kv => (fst kv, serialized (snd kv))) (cs ++ ss ++ ts)
    /\ stored Color doc cs /\ stored Spacing doc ss /\ stored FontSize doc ts.
Proof.
  intros Hwf Hrun.
  destruct (figmaTokens_stored _ _ Hwf Hrun) as (cs & ss & ts & -> & Hcs & Hss & Hts).
  exists cs, ss, ts. split; [| done].
  apply emitted_figma_document. rewrite !Forall_app.
  repeat split; by eapply stored_defined.
Qed.

Lemma emitted_keys (vars : list (string * value)) :
  map fst (map (fun kv => (fst kv, serialized (snd kv))) vars) = map fst vars.
Proof. induction vars as [|kv vars IH]; simpl; [done | by rewrite IH]. Qed.

Lemma stored_NoDup (c : category) (doc : value) (new : list (string * value)) :
  well_formed doc = true -> stored c doc new -> NoDup (map fst new).
Proof.
  intros Hwf Hst. rewrite (stored_keys _ _ _ Hst).
  apply NoDup_fmap_2_strong; [| by apply category_entries_NoDup].
  intros a b _ _. apply append_inj.
Qed.

Lemma stored_all_NoDup (doc : value) (cs ss ts : list (string * value)) :
  well_formed doc = true ->
  stored Color doc cs -> stored Spacing doc ss -> stored FontSize doc ts ->
  NoDup (map fst (cs ++ ss ++ ts)).
Proof.
  intros Hwf Hcs Hss Hts.
  rewrite !map_app. apply NoDup_app. split; [by eapply stored_NoDup |].
  split.
  + intros k (n1 & -> & _)%(stored_key_elem Color doc); [| done].
    rewrite elem_of_app.
    by intros [(n2 & Heq & _)%(stored_key_elem Spacing doc)
              |(n2 & Heq & _)%(stored_key_elem FontSize doc)].
  + apply NoDup_app. split; [by eapply stored_NoDup |].
    split; [| by eapply stored_NoDup].
    intros k (n1 & -> & _)%(stored_key_elem Spacing doc); [| done].
    by intros (n2 & Heq & _)%(stored_key_elem FontSize doc).
Qed.

Lemma assoc_NoDup {A} (k : string) (v : A) (l : list (string * A)) :
  NoDup (map fst l) -> (k, v) ∈ l -> assoc k l = Some v.
Proof.
  induction l as [|[k' v'] l IH]; simpl; intros Hnd Hin.
  - by apply elem_of_nil in Hin.
  - apply NoDup_cons in Hnd as [Hk' Hnd].
    apply elem_of_cons in Hin as [[= <- <-] | Hin]; [by rewrite String.eqb_refl |].
    destruct (String.eqb_spec k k') as [<- | _]; [| auto].
    destruct Hk'. apply list_elem_of_fmap. by exists (k, v).
Qed.

(** The emitted entry of an entry of the input. *)
Lemma emitted_entry (doc fig : value) (c : category) (name : string) (token : value) :
  well_formed doc = true ->
  figmaTokens doc = Ok fig ->
  (name, token) ∈ category_entries c doc ->
  exists e, category_variable c token = Ok e
    /\ assoc (category_prefix c +:+ name) (emitted_tokens fig) = Some (serialized e).
Proof.
  intros Hwf Hrun Hin.
  destruct (emitted_tokens_stored _ _ Hwf Hrun) as (cs & ss & ts & -> & Hcs & Hss & Hts).
  assert (exists e, (category_prefix c +:+ name, e) ∈ cs ++ ss ++ ts
                    /\ category_variable c token = Ok e) as (e & He & Hvar).
  { destruct c.
    - destruct (stored_lookup _ _ _ _ _ Hcs Hin) as (e & ? & ?).
      exists e. rewrite !elem_of_app. auto.
    - destruct (stored_lookup _ _ _ _ _ Hss Hin) as (e & ? & ?).
      exists e. rewrite !elem_of_app. auto.
    - destruct (stored_lookup _ _ _ _ _ Hts Hin) as (e & ? & ?).
      exists e. rewrite !elem_of_app. auto. }
  exists e. split; [done |].
  apply assoc_NoDup.
  - rewrite emitted_keys. by eapply stored_all_NoDup.
  - apply list_elem_of_fmap. by exists (category_prefix c +:+ name, e).
Qed.

(** C1. The emitted document of Figma variables has exactly N+M+T keys
    under [tokens], for N entries of [colors], M of [spacing] and T of
    [typography["font-size"]] (none when [typography] is absent), and the
    [type] and the [extensions.figma.scopes] of every entry are those the
    lookup table gives for the category of its key. *)
Theorem token_count_and_categories (doc fig : value) :
  well_formed doc = true ->
  figmaTokens doc = Ok fig ->
  length (emitted_tokens fig)
    = length (category_entries Color doc) + length (category_entries Spacing doc)
      + length (category_entries FontSize doc)
  /\ NoDup (map fst (emitted_tokens fig))
  /\ forall k e, (k, e) ∈ emitted_tokens fig ->
       exists c name, k = category_prefix c +:+ name
         /\ name ∈ map fst (category_entries c doc)
         /\ own e "type" = Some (Str (category_type c))
         /\ own_path e ["extensions"; "figma"; "scopes"]
            = Some (Arr (map Str (category_scopes c))).
Proof.
  intros Hwf Hrun.
  destruct (emitted_tokens_stored _ _ Hwf Hrun) as (cs & ss & ts & -> & Hcs & Hss & Hts).
  split; [| split].
  - rewrite length_map, !length_app.
    apply Forall2_length in Hcs, Hss, Hts. lia.
  - rewrite emitted_keys. by eapply stored_all_NoDup.
  - intros k e ([k' e'] & [= -> ->] & Hin)%list_elem_of_fmap. simpl.
    assert (exists c new, stored c doc new /\ (k', e') ∈ new) as (c & new & Hst & Hnew).
    { rewrite !elem_of_app in Hin. destruct Hin as [?|[?|?]]; eauto 6. }
    destruct (stored_elem _ _ _ _ _ Hst Hnew) as (name & token & Hent & -> & Hvar).
    apply category_variable_emitted in Hvar as (_ & Hty & _ & Hsc & _).
    exists c, name. split; [done |]. split; [| done].
    apply list_elem_of_fmap. by exists (name, token).
Qed.

(** C3, amended.  Every entry of the input has its entry under
    [tokens["<category>/<name>"]]; that entry carries [type],
    [extensions.figma.collection] and [extensions.figma.scopes], carries
    [value] when the input token gives one, and carries [description] when
    and only when it is a color. *)
Theorem emitted_entry_fields (doc fig : value) (c : category) (name : string) (token : value) :
  well_formed doc = true ->
  figmaTokens doc = Ok fig ->
  (name, token) ∈ category_entries c doc ->
  exists e, assoc (category_prefix c +:+ name) (emitted_tokens fig) = Some e
    /\ has_field e ["type"]
    /\ has_field e ["extensions"; "figma"; "collection"]
    /\ has_field e ["extensions"; "figma"; "scopes"]
    /\ (has_field e ["value"] <-> has_value token)
    /\ (has_field e ["description"] <-> c = Color).
Proof.
  intros Hwf Hrun Hin.
  destruct (emitted_entry _ _ _ _ _ Hwf Hrun Hin) as (e & Hvar & Hassoc).
  exists (serialized e). split; [done |].
  apply category_variable_emitted in Hvar as (_ & Hty & Hcol & Hsc & Hval & Hdesc & _).
  unfold has_field. rewrite Hcol, Hsc. simpl. rewrite Hty.
  repeat split; eauto.
  - intros Hv. apply Hval. by destruct (own (serialized e) "value").
  - intros Hv%Hval. by destruct (own (serialized e) "value").
  - intros Hd. apply Hdesc. by destruct (own (serialized e) "description").
  - intros Hd%Hdesc. by destruct (own (serialized e) "description").
Qed.

(** C9. A color whose token has no [description] still gets one in the
    emitted document: the empty string. *)
Theorem color_description_default (doc fig : value) (name : string) (token : value) :
  well_formed doc = true ->
  figmaTokens doc = Ok fig ->
  (name, token) ∈ category_entries Color doc ->
  own token "description" = None ->
  exists e, assoc ("color/" +:+ name) (emitted_tokens fig) = Some e
    /\ own e "description" = Some (Str "").
Proof.
  intros Hwf Hrun Hin Hnone.
  destruct (emitted_entry _ _ _ _ _ Hwf Hrun Hin) as (e & Hvar & Hassoc).
  exists (serialized e). split; [done |].
  apply category_variable_emitted in Hvar as (_ & _ & _ & _ & _ & _ & Hdesc). auto.
Qed.

Lemma convert_typography_none (doc : value) (vars : list (string * value)) :
  is_ok (get doc "typography") = true ->
  own doc "typography" = None
  \/ (exists typography,
        own doc "typography" = Some typography /\ own typography "font-size" = None) ->
  convert_typography doc vars = Ok vars.
Proof.
  intros Hdoc Hlack. unfold convert_typography.
  destruct (get doc "typography") as [t|] eqn:Ht; [| done]. simpl.
  apply get_Ok in Ht. unfold member in Ht.
  destruct Hlack as [Hnone | (typography & Hsome & Hsizes)].
  - rewrite Hnone in Ht. by subst t.
  - rewrite Hsome in Ht. simpl in Ht. subst t.
    destruct (truthy typography) eqn:Htruthy; [| done].
    assert (get typography "font-size" = Ok Undefined) as ->.
    { destruct typography; simpl in *; try done. by rewrite Hsizes. }
    done.
Qed.

Lemma convert_colors_reads (doc : value) (vars vars' : list (string * value)) :
  convert_colors doc vars = Ok vars' -> is_ok (get doc "typography") = true.
Proof. unfold convert_colors. by destruct doc. Qed.

(** C8. Without a [typography] key, or with one that has no [font-size],
    the converter succeeds as soon as the colors and the spacings convert:
    the typography stage adds nothing, and the emitted document has no key
    under [typography/size/]. *)
Theorem typography_is_optional (doc : value) (v1 v2 : list (string * value)) :
  well_formed doc = true ->
  own doc "typography" = None
  \/ (exists typography,
        own doc "typography" = Some typography /\ own typography "font-size" = None) ->
  convert_colors doc [] = Ok v1 ->
  convert_spacing doc v1 = Ok v2 ->
  figmaTokens doc = Ok (figma_document v2)
  /\ Forall (fun kv => String.prefix "typography/size/" (fst kv) = false)
            (emitted_tokens (figma_document v2)).
Proof.
  intros Hwf Hlack Hc Hs.
  assert (Hrun : figmaTokens doc = Ok (figma_document v2)).
  { unfold figmaTokens. rewrite Hc. simpl. rewrite Hs. simpl.
    rewrite convert_typography_none; eauto using convert_colors_reads. }
  split; [done |].
  destruct (emitted_tokens_stored _ _ Hwf Hrun) as (cs & ss & ts & -> & Hcs & Hss & Hts).
  assert (ts = []) as ->.
  { unfold stored in Hts. simpl in Hts.
    destruct Hlack as [Hnone | (typography & Hsome & Hsizes)].
    - rewrite Hnone in Hts. by apply Forall2_nil_inv_l in Hts.
    - rewrite Hsome in Hts. unfold member in Hts. rewrite Hsizes in Hts.
      by apply Forall2_nil_inv_l in Hts. }
  rewrite app_nil_r. apply Forall_forall. intros [k e] Hin.
  apply (list_elem_of_fmap_2 fst) in Hin. rewrite emitted_keys, map_app in Hin.
  simpl in *. apply elem_of_app in Hin.
  by destruct Hin as [(n & -> & _)%(stored_key_elem Color doc)
                     |(n & -> & _)%(stored_key_elem Spacing doc)].
Qed.

Lemma token_map_entries (v : value) :
  token_map v = true ->
  exists es, Object_entries v = Ok es /\ forallb (fun kv => is_token (snd kv)) es = true.
Proof. destruct v; try done. simpl. eauto. Qed.

Lemma is_token_value (t : value) :
  is_token t = true -> exists s, get t "value" = Ok (Str s).
Proof.
  unfold is_token. destruct t; try done. simpl.
  destruct (assoc "value" props) as [[]|]; try done. eauto.
Qed.

Lemma category_variable_total (c : category) (t : value) :
  is_token t = true -> is_ok (category_variable c t) = true.
Proof.
  intros [s Hs]%is_token_value.
  destruct c; simpl; unfold color_variable, spacing_variable, font_size_variable;
    rewrite Hs; simpl; try done.
  by destruct t.
Qed.

Lemma forEach_store_total (c : category) (es vars : list (string * value)) :
  forallb (fun kv => is_token (snd kv)) es = true ->
  is_ok (forEach (store (category_prefix c) (category_variable c)) es vars) = true.
Proof.
  revert vars. induction es as [|[name t] es IH]; intros vars; simpl; [done |].
  intros [Ht Hes]%andb_prop. apply (category_variable_total c) in Ht.
  destruct (category_variable c t) as [e|]; [| done]. simpl. by apply IH.
Qed.

Lemma Array_map_total (prefix : string) (es : list (string * value)) :
  forallb (fun kv => is_token (snd kv)) es = true ->
  is_ok (Array_map (css_declaration prefix) es) = true.
Proof.
  induction es as [|[name t] es IH]; simpl; [done |].
  intros [[s Hs]%is_token_value Hes]%andb_prop. rewrite Hs. simpl.
  specialize (IH Hes). by destruct (Array_map (css_declaration prefix) es).
Qed.

Lemma convert_typography_total (props : list (string * value)) (vars : list (string * value)) :
  match assoc "typography" props with
  | None => true
  | Some (Obj sizes) =>
      match assoc "font-size" sizes with
      | None => true
      | Some v => token_map v
      end
  | Some _ => false
  end = true ->
  is_ok (convert_typography (Obj props) vars) = true.
Proof.
  unfold convert_typography. simpl.
  destruct (assoc "typography" props) as [[| | | | | |sizes]|]; try done. simpl.
  destruct (assoc "font-size" sizes) as [v|]; simpl; [| done].
  destruct v as [| | | | | |entries]; try done. simpl.
  apply (forEach_store_total FontSize).
Qed.

(** X5.  A document that follows the schema converts: neither the document of
    Figma variables nor the CSS throws on it. *)
Lemma conforming_document_converts (doc : value) :
  conforms doc = true ->
  is_ok (figmaTokens doc) = true /\ is_ok (cssTokens doc) = true.
Proof.
  unfold conforms. destruct doc as [| | | | | |props]; try done.
  intros [[Hc Hs]%andb_prop Ht]%andb_prop.
  apply token_map_entries in Hc as (ces & Hces & Hc).
  apply token_map_entries in Hs as (ses & Hses & Hs).
  split.
  - unfold figmaTokens.
    assert (Hcolors : forall vars, is_ok (convert_colors (Obj props) vars) = true).
    { intros vars. unfold convert_colors.
      change (get (Obj props) "colors") with (Ok (member (Obj props) "colors")).
      simpl. rewrite Hces. simpl. by apply (forEach_store_total Color). }
    assert (Hspacing : forall vars, is_ok (convert_spacing (Obj props) vars) = true).
    { intros vars. unfold convert_spacing.
      change (get (Obj props) "spacing") with (Ok (member (Obj props) "spacing")).
      simpl. rewrite Hses. simpl. by apply (forEach_store_total Spacing). }
    specialize (Hcolors []).
    destruct (convert_colors (Obj props) []) as [v1|]; [simpl | done].
    specialize (Hspacing v1).
    destruct (convert_spacing (Obj props) v1) as [v2|]; [simpl | done].
    pose proof (convert_typography_total props v2 Ht) as Htypo.
    by destruct (convert_typography (Obj props) v2).
  - unfold cssTokens, css_colors, css_spacing.
    change (get (Obj props) ?k) with (Ok (member (Obj props) k)).
    simpl. rewrite Hces, Hses. simpl.
    pose proof (Array_map_total "color" ces Hc) as H1.
    pose proof (Array_map_total "spacing" ses Hs) as H2.
    destruct (Array_map (css_declaration "color") ces); [simpl | done].
    by destruct (Array_map (css_declaration "spacing") ses).
Qed.
End ConverterProperties.

(** ** More on the token converter *)

Section MoreConverter.
Context {num : Type} `{Number num}.
Local Abbreviation value := (value num).

Lemma value_nested_ind (P : value -> Prop) :
  P Undefined -> P Null -> (forall b, P (Bool b)) -> (forall n, P (Num n)) ->
  (forall s, P (Str s)) ->
  (forall elts, Forall P elts -> P (Arr elts)) ->
  (forall props, Forall (fun kx => P (snd kx)) props -> P (Obj props)) ->
  forall v, P v.
Proof.
  intros HU HN HB Hn HS HA HO.
  refine (fix IH (v : value) : P v :=
            match v with
            | Undefined => HU
            | Null => HN
            | Bool b => HB b
            | Num n => Hn n
            | Str s => HS s
            | Arr elts =>
                HA elts ((fix go (l : list value) : Forall P l :=
                            match l with
                            | [] => @List.Forall_nil _ _
                            | x :: r => @List.Forall_cons _ _ x r (IH x) (go r)
                            end) elts)
            | Obj props =>
                HO props ((fix go (l : list (string * value))
                             : Forall (fun kx => P (snd kx)) l :=
                             match l with
                             | [] => @List.Forall_nil _ _
                             | kx :: r => @List.Forall_cons _ _ kx r (IH (snd kx)) (go r)
                             end) props)
            end).
Qed.









(** X3.  The keys under [tokens] come in the order of the conversion: the colors
    in the order of the input, then the spacings, then the font sizes. *)
Theorem emitted_keys_in_order (doc fig : value) :
  well_formed doc = true ->
  figmaTokens doc = Ok fig ->
  map fst (emitted_tokens fig)
  = map (String.append "color/") (map fst (category_entries Color doc))
    ++ map (String.append "spacing/") (map fst (category_entries Spacing doc))
    ++ map (String.append "typography/size/") (map fst (category_entries FontSize doc)).
Proof.
  intros Hwf Hrun.
  destruct (emitted_tokens_stored _ _ Hwf Hrun) as (cs & ss & ts & -> & Hcs & Hss & Hts).
  rewrite emitted_keys, !map_app.
  by rewrite (stored_keys _ _ _ Hcs), (stored_keys _ _ _ Hss), (stored_keys _ _ _ Hts).
Qed.

Lemma ret_bind {A B} (a : A) (k : A -> result B) : Ok a ≫= k = k a.
Proof. done. Qed.

Lemma category_variable_is_ok (c : category) (token : value) :
  is_ok (category_variable c token) = negb (nullish token)
  /\ forall e, category_variable c token = Throw e -> e = TypeError.
Proof.
  destruct c, token; simpl; split; try done; by intros e [= <-].
Qed.

Lemma forEach_store_is_ok (c : category) (es vars : list (string * value)) :
  is_ok (forEach (store (category_prefix c) (category_variable c)) es vars)
  = forallb (fun kx => negb (nullish (snd kx))) es
  /\ forall e, forEach (store (category_prefix c) (category_variable c)) es vars = Throw e ->
               e = TypeError.
Proof.
  revert vars. induction es as [|[name token] es IH]; intros vars; simpl; [done |].
  destruct (category_variable_is_ok c token) as [Hok Herr].
  destruct (category_variable c token) as [e0|e0]; simpl in *.
  - rewrite <- Hok. simpl. apply IH.
  - rewrite <- Hok. split; [done |]. intros e [= <-]. eauto.
Qed.

Lemma convert_map_is_ok (c : category) (v : value) (vars : list (string * value)) :
  is_ok (es ← Object_entries v;
         forEach (store (category_prefix c) (category_variable c)) es vars)
  = tokens_readable v
  /\ forall e, (es ← Object_entries v;
                forEach (store (category_prefix c) (category_variable c)) es vars) = Throw e ->
               e = TypeError.
Proof.
  unfold tokens_readable, entries_of.
  destruct (Object_entries v) as [es|e0] eqn:Hes; simpl.
  - assert (nullish v = false) as -> by (by destruct v). simpl.
    apply forEach_store_is_ok.
  - assert (nullish v = true /\ e0 = TypeError) as [-> ->].
    { destruct v; simpl in *; by simplify_eq. }
    split; [done |]. by intros e [= <-].
Qed.

(** X4.  The converter throws exactly on the documents that are [null], that
    lack [colors] or [spacing], or that have [null] for a token; whatever it
    throws is a [TypeError]. *)
Theorem figmaTokens_fails_exactly (doc : value) :
  is_ok (figmaTokens doc) = convertible doc
  /\ forall e, figmaTokens doc = Throw e -> e = TypeError.
Proof.
  unfold figmaTokens, convertible.
  destruct (nullish doc) eqn:Hdoc.
  { destruct doc; try done; simpl; split; try done; by intros e [= <-]. }
  assert (Hget : forall k, get doc k = Ok (member doc k)) by (by destruct doc).
  unfold convert_colors, convert_spacing, convert_typography.
  rewrite !Hget, !ret_bind.
  destruct (convert_map_is_ok Color (member doc "colors") []) as [Hc Hce].
  destruct (Object_entries (member doc "colors") ≫= _) as [v1|e1] eqn:H1;
    rewrite <- Hc; [| split; [done | intros e [= <-]; eauto]].
  rewrite !ret_bind.
  destruct (convert_map_is_ok Spacing (member doc "spacing") v1) as [Hs Hse].
  destruct (Object_entries (member doc "spacing") ≫= _) as [v2|e2] eqn:H2;
    rewrite <- Hs; [| split; [done | intros e [= <-]; eauto]].
  rewrite !ret_bind.
  destruct (truthy (member doc "typography")) eqn:Ht; [| done].
  assert (get (member doc "typography") "font-size"
          = Ok (member (member doc "typography") "font-size")) as ->.
  { by destruct (member doc "typography"). }
  rewrite !ret_bind.
  destruct (convert_map_is_ok FontSize
              (or_else (member (member doc "typography") "font-size") (Obj [])) v2)
    as [Hf Hfe].
  destruct (Object_entries (or_else _ _) ≫= _) as [v3|e3] eqn:H3;
    rewrite <- Hf; [done | split; [done | intros e [= <-]; eauto]].
Qed.
Lemma ToString_error (v : value) (e : error) : ToString v = Throw e -> e = TypeError.
Proof.
  induction v as [| |b|n|s|elts IH|props _] using value_nested_ind; try done.
  - by destruct b.
  - simpl. induction IH as [|x r Hx _ IHr]; [done |].
    intros Hrun. simpl in Hrun.
    match type of Hrun with
    | mbind _ ?m = _ => destruct m as [s|e0] eqn:Hs
    end.
    + rewrite ret_bind in Hrun. destruct r as [|y r]; [done |].
      match type of IHr with
      | ?t = _ -> _ => destruct t as [t'|e1] eqn:Ht
      end; [done |].
      injection Hrun as <-. by apply IHr.
    + injection Hrun as <-. apply Hx. by destruct x.
  - simpl. destruct (assoc "toString" props); [by intros [= <-] | done].
Qed.

Lemma css_declaration_is_ok (prefix : string) (entry : string * value) :
  is_ok (css_declaration prefix entry) = is_ok (printed_value (snd entry))
  /\ forall e, css_declaration prefix entry = Throw e -> e = TypeError.
Proof.
  destruct entry as [name token]. unfold css_declaration, printed_value. simpl.
  destruct (get token "value") as [v|e0] eqn:Hv; simpl.
  - destruct (ToString v) as [s|e1] eqn:Hs; simpl; [done |].
    split; [done |]. intros e [= <-]. by eapply ToString_error.
  - split; [done |]. intros e [= <-]. destruct token; simpl in Hv; by simplify_eq.
Qed.

Lemma Array_map_declarations_is_ok (prefix : string) (es : list (string * value)) :
  is_ok (Array_map (css_declaration prefix) es)
  = forallb (fun kx => is_ok (printed_value (snd kx))) es
  /\ forall e, Array_map (css_declaration prefix) es = Throw e -> e = TypeError.
Proof.
  induction es as [|entry es [IHok IHerr]]; simpl; [done |].
  destruct (css_declaration_is_ok prefix entry) as [Hok Herr].
  destruct (css_declaration prefix entry) as [d|e0]; simpl in *; rewrite <- Hok.
  - destruct (Array_map (css_declaration prefix) es) as [ds|e1]; simpl in *.
    + done.
    + split; [done |]. intros e [= <-]. eauto.
  - split; [done |]. intros e [= <-]. eauto.
Qed.

Lemma css_map_is_ok (prefix : string) (v : value) :
  is_ok (es ← Object_entries v; Array_map (css_declaration prefix) es) = tokens_printable v
  /\ forall e, (es ← Object_entries v; Array_map (css_declaration prefix) es) = Throw e ->
               e = TypeError.
Proof.
  unfold tokens_printable, entries_of.
  destruct (Object_entries v) as [es|e0] eqn:Hes; simpl.
  - assert (nullish v = false) as -> by (by destruct v). simpl.
    apply Array_map_declarations_is_ok.
  - assert (nullish v = true /\ e0 = TypeError) as [-> ->].
    { destruct v; simpl in *; by simplify_eq. }
    split; [done |]. by intros e [= <-].
Qed.

(** X6.  The CSS template throws exactly on the documents that are [null], that
    lack [colors] or [spacing], or in which the value of a color or of a
    spacing cannot be read or printed; it never looks at the typography, and
    whatever it throws is a [TypeError]. *)
Theorem cssTokens_fails_exactly (doc : value) :
  is_ok (cssTokens doc)
  = negb (nullish doc)
    && tokens_printable (member doc "colors")
    && tokens_printable (member doc "spacing")
  /\ forall e, cssTokens doc = Throw e -> e = TypeError.
Proof.
  unfold cssTokens, css_colors, css_spacing.
  destruct (nullish doc) eqn:Hdoc.
  { destruct doc; try done; simpl; split; try done; by intros e [= <-]. }
  assert (Hget : forall k, get doc k = Ok (member doc k)) by (by destruct doc).
  rewrite !Hget, !ret_bind.
  destruct (css_map_is_ok "color" (member doc "colors")) as [Hc Hce].
  destruct (Object_entries (member doc "colors") ≫= _) as [cs|e1] eqn:H1;
    rewrite <- Hc; [| split; [done | intros e [= <-]; eauto]].
  rewrite !ret_bind.
  destruct (css_map_is_ok "spacing" (member doc "spacing")) as [Hs Hse].
  destruct (Object_entries (member doc "spacing") ≫= _) as [ss|e2] eqn:H2;
    rewrite <- Hs; [done | split; [done | intros e [= <-]; eauto]].
Qed.
End MoreConverter.

(** * Properties of the CSS file *)

#[local] Arguments String.append !_ _ / : simpl nomatch.

Lemma append_assoc (a b c : string) : (a +:+ b) +:+ c = a +:+ (b +:+ c).
Proof. induction a as [|x a IH]; simpl; [done | by rewrite IH]. Qed.

Lemma single_line_app (a b : string) :
  single_line (a +:+ b) = single_line a && single_line b.
Proof. induction a as [|x a IH]; simpl; [done | by rewrite IH, andb_assoc]. Qed.

Lemma lines_app (s t : string) :
  single_line s = true -> lines (s +:+ LF +:+ t) = s :: lines t.
Proof.
  unfold LF. induction s as [|c s IH]; simpl in *; [done |].
  intros [Hc Hs]%andb_prop. apply negb_true_iff in Hc. by rewrite Hc, IH.
Qed.

Lemma lines_LF (t : string) : lines (LF +:+ t) = "" :: lines t.
Proof. done. Qed.

Lemma lines_join (l : list string) (rest : string) :
  forallb single_line l = true ->
  lines (Array_join LF l +:+ LF +:+ rest)
  = match l with [] => [""] | _ => l end ++ lines rest.
Proof.
  induction l as [|x l IH]; [done |].
  intros [Hx Hl]%andb_prop. destruct l as [|y l].
  - change (Array_join LF [x]) with x. by rewrite lines_app.
  - change (Array_join LF (x :: y :: l)) with (x +:+ LF +:+ Array_join LF (y :: l)).
    rewrite !append_assoc. rewrite lines_app by done.
    by rewrite IH.
Qed.

Lemma prefix_append (p x : string) : String.prefix p (p +:+ x) = true.
Proof.
  induction p as [|c p IH]; simpl; [by destruct x |].
  destruct (Ascii.ascii_dec c c); [done | congruence].
Qed.

Lemma lines_css_text (cs ss : list string) :
  forallb single_line cs = true -> forallb single_line ss = true ->
  lines (css_text cs ss)
  = ["" ; "/* Design Tokens para importação no Figma */"; ":root {"]
    ++ match cs with [] => [""] | _ => cs end
    ++ [""]
    ++ match ss with [] => [""] | _ => ss end
    ++ ["}"; ""].
Proof.
  intros Hcs Hss. unfold css_text.
  rewrite lines_LF, !lines_app by done.
  rewrite lines_join, lines_LF, lines_join by done.
  done.
Qed.

Section CssProperties.
Context {num : Type} `{Number num}.
Local Abbreviation value := (value num).

Lemma Array_map_declarations (prefix : string) (es : list (string * value)) (ds : list string) :
  Array_map (css_declaration prefix) es = Ok ds -> Forall2 (declared prefix) es ds.
Proof.
  revert ds. induction es as [|[name token] es IH]; simpl; intros ds Hrun.
  - injection Hrun as <-. constructor.
  - inv_bind Hrun. inv_bind Hrun. injection Hrun as <-.
    constructor; [| by apply IH].
    unfold css_declaration in Ha. inv_bind Ha as v Hv. inv_bind Ha as s Hs.
    injection Ha as <-.
    exists s. unfold printed_value. simpl. rewrite Hv. simpl. by rewrite Hs.
Qed.

Lemma declared_single_line (prefix : string) (en : string * value) (line : string) :
  single_line prefix = true -> entry_single_line en = true -> declared prefix en line ->
  single_line line = true.
Proof.
  intros Hp [Hn Hv]%andb_prop (s & Hs & ->). rewrite Hs in Hv.
  unfold declaration. rewrite !single_line_app, Hp, Hn, Hv. done.
Qed.

Lemma declared_prefix (prefix : string) (en : string * value) (line : string) :
  declared prefix en line -> String.prefix ("  --" +:+ prefix +:+ "-") line = true.
Proof.
  intros (s & _ & ->). unfold declaration.
  set (r := fst en +:+ ": " +:+ s +:+ ";").
  assert ("  " +:+ "--" +:+ prefix +:+ "-" +:+ r = ("  --" +:+ prefix +:+ "-") +:+ r) as ->.
  { by rewrite !append_assoc. }
  apply prefix_append.
Qed.

Lemma declared_color_not_spacing (en : string * value) (line : string) :
  declared "color" en line -> String.prefix "  --spacing-" line = false.
Proof. by intros (s & _ & ->). Qed.

Lemma declared_spacing_not_color (en : string * value) (line : string) :
  declared "spacing" en line -> String.prefix "  --color-" line = false.
Proof. by intros (s & _ & ->). Qed.

Lemma declared_lines (prefix : string) (es : list (string * value)) (ds : list string) :
  single_line prefix = true ->
  forallb entry_single_line es = true ->
  Forall2 (declared prefix) es ds ->
  forallb single_line ds = true
  /\ Forall (fun line => exists en, declared prefix en line) ds.
Proof.
  intros Hp Hes Hds. induction Hds as [|en line es ds Hd _ IH]; simpl in *; [done |].
  apply andb_prop in Hes as [Hen Hes]. destruct (IH Hes) as [-> Hall].
  rewrite (declared_single_line _ _ _ Hp Hen Hd). eauto.
Qed.

Lemma filter_all {A} (P : A -> Prop) `{forall x, Decision (P x)} (l : list A) :
  Forall P l -> filter P l = l.
Proof. induction 1; simpl; [done |]. rewrite filter_cons_True by done. by f_equal. Qed.

Lemma filter_none {A} (P : A -> Prop) `{forall x, Decision (P x)} (l : list A) :
  Forall (fun x => ~ P x) l -> filter P l = [].
Proof. induction 1; simpl; [done |]. by rewrite filter_cons_False. Qed.

Lemma filter_block {A} (P : A -> Prop) `{forall x, Decision (P x)} (blank : A) (l : list A) :
  ~ P blank -> Forall P l -> filter P (match l with [] => [blank] | _ => l end) = l.
Proof.
  intros Hb Hl. destruct l; [by rewrite filter_cons_False | by apply filter_all].
Qed.

Lemma filter_block_none {A} (P : A -> Prop) `{forall x, Decision (P x)} (blank : A) (l : list A) :
  ~ P blank -> Forall (fun x => ~ P x) l ->
  filter P (match l with [] => [blank] | _ => l end) = [].
Proof.
  intros Hb Hl. destruct l; [by rewrite filter_cons_False | by apply filter_none].
Qed.

(** The declaration lines of a CSS text made of single lines. *)
Lemma declaration_lines_css_text (ces ses : list (string * value)) (cs ss : list string) :
  Forall2 (declared "color") ces cs -> Forall2 (declared "spacing") ses ss ->
  forallb entry_single_line (ces ++ ses) = true ->
  declaration_lines "color" (css_text cs ss) = cs
  /\ declaration_lines "spacing" (css_text cs ss) = ss.
Proof.
  intros Hcs Hss Hsingle. rewrite forallb_app in Hsingle.
  apply andb_prop in Hsingle as [Hc Hs].
  destruct (declared_lines "color" _ _ eq_refl Hc Hcs) as [Hcl Hcd].
  destruct (declared_lines "spacing" _ _ eq_refl Hs Hss) as [Hsl Hsd].
  assert (Hcc : Forall (fun l => String.prefix ("  --" +:+ "color" +:+ "-") l = true) cs).
  { eapply Forall_impl; [exact Hcd |]. intros line [en Hd]. exact (declared_prefix _ _ _ Hd). }
  assert (Hss' : Forall (fun l => String.prefix ("  --" +:+ "spacing" +:+ "-") l = true) ss).
  { eapply Forall_impl; [exact Hsd |]. intros line [en Hd]. exact (declared_prefix _ _ _ Hd). }
  assert (Hcs' : Forall (fun l => ~ String.prefix ("  --" +:+ "spacing" +:+ "-") l = true) cs).
  { eapply Forall_impl; [exact Hcd |]. intros line [en Hd] Hp.
    exact (eq_true_false_abs _ Hp (declared_color_not_spacing _ _ Hd)). }
  assert (Hsc : Forall (fun l => ~ String.prefix ("  --" +:+ "color" +:+ "-") l = true) ss).
  { eapply Forall_impl; [exact Hsd |]. intros line [en Hd] Hp.
    exact (eq_true_false_abs _ Hp (declared_spacing_not_color _ _ Hd)). }
  unfold declaration_lines. rewrite lines_css_text by done.
  rewrite !filter_app.
  set (Pc := fun l => String.prefix ("  --" +:+ "color" +:+ "-") l = true) in *.
  set (Ps := fun l => String.prefix ("  --" +:+ "spacing" +:+ "-") l = true) in *.
  rewrite (filter_block Pc "" cs), (filter_block_none Pc "" ss),
    (filter_block Ps "" ss), (filter_block_none Ps "" cs); try done; try by vm_compute.
  repeat match goal with
         | |- context [filter ?P (?x :: ?l)] =>
             let r := eval vm_compute in (filter P (x :: l)) in
             change (filter P (x :: l)) with r
         end.
  by rewrite !app_nil_r.
Qed.

Lemma css_entries (doc : value) (k prefix : string) (ds : list string) :
  (colors ← get doc k; es ← Object_entries colors; Array_map (css_declaration prefix) es) = Ok ds ->
  Forall2 (declared prefix) (entries_of (member doc k)) ds.
Proof.
  intros Hrun. inv_bind Hrun as x Hx. apply get_Ok in Hx as ->.
  inv_bind Hrun as es Hes. apply entries_of_Ok in Hes as <-.
  by apply Array_map_declarations.
Qed.

(** C2, amended.  When no name and no printed value of a color or a spacing
    holds a line break, the lines of the emitted CSS that start with
    [--color-] are the declarations [--color-<name>: <value>;] of the color
    entries, one per entry and in their order, and likewise for [--spacing-].
    For the example of the specification the CSS has the lines
    [--color-primary: #FF0000;] and [--spacing-sm: 4px;], and the document of
    Figma variables has the keys [color/primary], of type [color], and
    [spacing/sm], of type [dimension]. *)
Theorem css_declaration_lines (doc : value) (css : string) :
  cssTokens doc = Ok css ->
  forallb entry_single_line (category_entries Color doc ++ category_entries Spacing doc)
    = true ->
  (Forall2 (declared "color") (category_entries Color doc) (declaration_lines "color" css)
   /\ Forall2 (declared "spacing") (category_entries Spacing doc)
              (declaration_lines "spacing" css))
  /\ (exists css' fig',
        cssTokens spec_example = Ok css'
        /\ declaration_lines "color" css' = ["  " +:+ declaration "color" "primary" "#FF0000"]
        /\ declaration_lines "spacing" css' = ["  " +:+ declaration "spacing" "sm" "4px"]
        /\ figmaTokens spec_example = Ok fig'
        /\ map fst (emitted_tokens fig') = ["color/primary"; "spacing/sm"]
        /\ (exists e, assoc "color/primary" (emitted_tokens fig') = Some e
                      /\ own e "type" = Some (Str "color"))
        /\ (exists e, assoc "spacing/sm" (emitted_tokens fig') = Some e
                      /\ own e "type" = Some (Str "dimension"))).
Proof.
  intros Hrun Hsingle. split.
  - unfold cssTokens in Hrun.
    inv_bind Hrun as cs Hcs. inv_bind Hrun as ss Hss. injection Hrun as <-.
    apply css_entries in Hcs, Hss.
    by destruct (declaration_lines_css_text _ _ _ _ Hcs Hss Hsingle) as [-> ->].
  - eexists _, _. split; [by vm_compute |].
    split; [by vm_compute |]. split; [by vm_compute |].
    split; [by vm_compute |]. split; [by vm_compute |].
    split; eexists; (split; [by vm_compute | by vm_compute]).
Qed.

End CssProperties.

(** ** More on the CSS file *)

Section MoreCss.
Context {num : Type} `{Number num}.
Local Abbreviation value := (value num).

(** X7.  The whole CSS file, line by line: the comment, the opening of the
    [:root] block, the color declarations, an empty line, the spacing
    declarations and the closing brace.  Where there is no color, or no
    spacing, the block has an empty line instead; nothing of the typography
    is written. *)
Theorem css_layout (doc : value) (css : string) :
  cssTokens doc = Ok css ->
  forallb entry_single_line (category_entries Color doc ++ category_entries Spacing doc)
    = true ->
  exists cs ss,
    Forall2 (declared "color") (category_entries Color doc) cs
    /\ Forall2 (declared "spacing") (category_entries Spacing doc) ss
    /\ lines css
       = [""; "/* Design Tokens para importação no Figma */"; ":root {"]
         ++ block cs ++ [""] ++ block ss ++ ["}"; ""].
Proof.
  intros Hrun Hsingle. unfold cssTokens in Hrun.
  inv_bind Hrun as cs Hcs. inv_bind Hrun as ss Hss. injection Hrun as <-.
  apply css_entries in Hcs, Hss. exists cs, ss. split; [done |]. split; [done |].
  rewrite forallb_app in Hsingle. apply andb_prop in Hsingle as [Hc Hs].
  destruct (declared_lines "color" _ _ eq_refl Hc Hcs) as [Hcl _].
  destruct (declared_lines "spacing" _ _ eq_refl Hs Hss) as [Hsl _].
  by rewrite lines_css_text.
Qed.

(** X8.  A color or a spacing whose token has no [value] is declared with the
    value [undefined]. *)
Theorem css_missing_value_prints_undefined (doc : value) (css name : string) (token : value) :
  cssTokens doc = Ok css ->
  forallb entry_single_line (category_entries Color doc ++ category_entries Spacing doc)
    = true ->
  own token "value" = None ->
  ((name, token) ∈ category_entries Color doc ->
   ("  --color-" +:+ name +:+ ": undefined;") ∈ lines css)
  /\ ((name, token) ∈ category_entries Spacing doc ->
      ("  --spacing-" +:+ name +:+ ": undefined;") ∈ lines css).
Proof.
  intros Hrun Hsingle Hnone.
  assert (Hline : forall prefix line, declared prefix (name, token) line ->
                    line = "  --" +:+ prefix +:+ "-" +:+ name +:+ ": undefined;").
  { intros prefix line (s & Hs & ->). unfold printed_value in Hs. simpl in Hs.
    inv_bind Hs as v Hv. apply get_Ok in Hv as ->. unfold member in Hs.
    rewrite Hnone in Hs. by injection Hs as <-. }
  unfold cssTokens in Hrun.
  inv_bind Hrun as cs Hcs. inv_bind Hrun as ss Hss. injection Hrun as <-.
  apply css_entries in Hcs, Hss.
  destruct (declaration_lines_css_text _ _ _ _ Hcs Hss Hsingle) as [Hdc Hds].
  assert (Hfound : forall prefix es ds,
             Forall2 (declared prefix) es ds -> (name, token) ∈ es ->
             ("  --" +:+ prefix +:+ "-" +:+ name +:+ ": undefined;") ∈ ds).
  { intros prefix es ds Hds' (i & Hi)%list_elem_of_lookup_1.
    destruct (Forall2_lookup_l _ _ _ _ _ Hds' Hi) as (line & Hline' & Hd).
    rewrite <- (Hline _ _ Hd). by eapply list_elem_of_lookup_2. }
  split; intros Hin.
  - apply (Hfound "color" _ _ Hcs) in Hin. rewrite <- Hdc in Hin.
    unfold declaration_lines in Hin. by apply list_elem_of_filter in Hin as [_ ?].
  - apply (Hfound "spacing" _ _ Hss) in Hin. rewrite <- Hds in Hin.
    unfold declaration_lines in Hin. by apply list_elem_of_filter in Hin as [_ ?].
Qed.
End MoreCss.

(** * The Markdown templates *)

Lemma lines_single (s : string) : single_line s = true -> lines s = [s].
Proof.
  induction s as [|c s IH]; simpl; [done |].
  intros [Hc Hs]%andb_prop. apply negb_true_iff in Hc. by rewrite Hc, IH.
Qed.

Lemma lines_join_end (l : list string) :
  forallb single_line l = true -> lines (Array_join LF l) = block l.
Proof.
  induction l as [|x l IH]; [done |].
  intros [Hx Hl]%andb_prop. destruct l as [|y l].
  - change (Array_join LF [x]) with x. by apply lines_single.
  - change (Array_join LF (x :: y :: l)) with (x +:+ LF +:+ Array_join LF (y :: l)).
    rewrite lines_app by done. by rewrite IH.
Qed.

Lemma single_line_join (sep : string) (l : list string) :
  single_line sep = true -> forallb single_line l = true ->
  single_line (Array_join sep l) = true.
Proof.
  intros Hsep. induction l as [|x l IH]; [done |].
  intros [Hx Hl]%andb_prop. destruct l as [|y l]; [done |].
  change (Array_join sep (x :: y :: l)) with (x +:+ sep +:+ Array_join sep (y :: l)).
  by rewrite !single_line_app, Hx, Hsep, IH.
Qed.

Lemma forallb_single_line_map (f : string -> string) (l : list string) :
  (forall s, single_line s = true -> single_line (f s) = true) ->
  forallb single_line l = true -> forallb single_line (map f l) = true.
Proof.
  intros Hf. induction l as [|x l IH]; simpl; [done |].
  intros [Hx Hl]%andb_prop. by rewrite Hf, IH.
Qed.

Lemma lines_bullets (f : string -> string) (l : list string) (rest : string) :
  (forall s, single_line s = true -> single_line (f s) = true) ->
  forallb single_line l = true ->
  lines (Array_join LF (map f l) +:+ LF +:+ rest) = block (map f l) ++ lines rest.
Proof. intros Hf Hl. apply lines_join. by apply forallb_single_line_map. Qed.

(** X9.  The specification of a component, line by line, for any descriptor
    whose fields hold no line break: title, description, then one bullet
    per prop, per state and per variant under their headings, then the fixed
    closing sections.  A descriptor without props leaves an empty line under
    [## Props]. *)
Theorem component_spec_lines (component : Component.t) :
  single_line (Component.name component) = true ->
  single_line (Component.description component) = true ->
  forallb single_line (Component.props component) = true ->
  forallb single_line (Component.states component) = true ->
  forallb single_line (Component.variants component) = true ->
  lines (component_spec component)
  = ["# " +:+ Component.name component; "";
     "## Descrição"; Component.description component; "";
     "## Props"]
    ++ block (map (fun prop => "- `" +:+ prop +:+ "`") (Component.props component))
    ++ [""; "## Estados"]
    ++ block (map (fun state => "- " +:+ state) (Component.states component))
    ++ [""; "## Variantes"]
    ++ block (map (fun variant => "- " +:+ variant) (Component.variants component))
    ++ [""; "## Implementação"; "```tsx";
        "// Ver: /components/" +:+ Component.name component +:+ ".tsx";
        "```"; "";
        "## Design Guidelines";
        "- Usar Auto Layout para responsividade";
        "- Aplicar design tokens consistentes";
        "- Manter hierarquia visual clara";
        "- Estados de interação (hover, active, disabled)"; "";
        "## Figma Components";
        "1. Criar Component Set com variantes";
        "2. Configurar propriedades booleanas para estados";
        "3. Usar Instance Swap para conteúdo dinâmico";
        "4. Aplicar constraints para responsividade"; ""].
Proof.
  destruct component as [name description props states variants].
  unfold component_spec.
  cbn [Component.name Component.description Component.props Component.states
       Component.variants].
  intros Hname Hdesc Hprops Hstates Hvariants.
  rewrite <- (append_assoc "# " name).
  rewrite lines_app by (by rewrite single_line_app, Hname).
  rewrite lines_LF, lines_app, lines_app, lines_LF, lines_app by done.
  rewrite lines_bullets; [| by intros s Hs; rewrite !single_line_app, Hs | done].
  rewrite lines_LF, lines_app by done.
  rewrite lines_bullets; [| by intros s Hs; rewrite !single_line_app, Hs | done].
  rewrite lines_LF, lines_app by done.
  rewrite lines_bullets; [| by intros s Hs; rewrite !single_line_app, Hs | done].
  rewrite lines_LF.
  rewrite lines_join_end; [done |].
  simpl. by rewrite !single_line_app, Hname.
Qed.

(** X10.  The section of a page in the guide, line by line, for any descriptor
    whose fields hold no line break: an empty line, the heading, the four
    bullets with the components and the breakpoints joined by commas, and
    two empty lines. *)
Theorem page_section_lines (page : Page.t) :
  single_line (Page.name page) = true ->
  single_line (Page.path page) = true ->
  single_line (Page.description page) = true ->
  forallb single_line (Page.components page) = true ->
  forallb single_line (Page.breakpoints page) = true ->
  lines (page_section page)
  = [""; "### " +:+ Page.name page;
     "- **Path:** `" +:+ Page.path page +:+ "`";
     "- **Descrição:** " +:+ Page.description page;
     "- **Componentes:** " +:+ Array_join ", " (Page.components page);
     "- **Breakpoints:** " +:+ Array_join ", " (Page.breakpoints page);
     ""; ""].
Proof.
  destruct page as [name path description comps bps].
  unfold page_section.
  cbn [Page.name Page.path Page.description Page.components Page.breakpoints].
  intros Hname Hpath Hdesc Hcomps Hbps.
  rewrite lines_LF.
  rewrite <- (append_assoc "### " name).
  rewrite lines_app by (by rewrite single_line_app, Hname).
  rewrite <- (append_assoc path "`"), <- (append_assoc "- **Path:** `").
  rewrite lines_app by (by rewrite !single_line_app, Hpath).
  rewrite <- (append_assoc "- **Descrição:** ").
  rewrite lines_app by (by rewrite !single_line_app, Hdesc).
  rewrite <- (append_assoc "- **Componentes:** ").
  rewrite lines_app by (by rewrite !single_line_app, single_line_join).
  rewrite <- (append_assoc "- **Breakpoints:** ").
  rewrite lines_app by (by rewrite !single_line_app, single_line_join).
  done.
Qed.

(** * Properties of the file system *)

Lemma walk_agree (m m' : gmap fspath node) (cur rest : fspath) :
  (forall p, p ∈ ancestors cur rest -> m' !! p = m !! p) ->
  walk m' cur rest = walk m cur rest.
Proof.
  revert cur. induction rest as [|x r IH]; intros cur Hagree; simpl; [done |].
  rewrite Hagree by (simpl; left).
  destruct (m !! (cur ++ [x])) as [[c|]|]; try done.
  apply IH. intros p Hp. apply Hagree. simpl. by right.
Qed.

Lemma walk_extend (m m' : gmap fspath node) (cur rest : fspath) :
  (forall p n, m !! p = Some n -> m' !! p = Some n) ->
  is_ok (walk m cur rest) = true ->
  walk m' cur rest = walk m cur rest.
Proof.
  intros Hext. revert cur. induction rest as [|x r IH]; intros cur Hok; simpl in *; [done |].
  destruct (m !! (cur ++ [x])) as [n|] eqn:Hn; [| done].
  rewrite (Hext _ _ Hn). destruct n; [done |]. by apply IH.
Qed.

Lemma stat_insert (m : gmap fspath node) (q p : fspath) (n : node) :
  q ∉ ancestors [] p -> stat (<[q := n]> m) p = stat m p.
Proof.
  intros Hq. apply walk_agree. intros p' Hp'.
  apply lookup_insert_ne. by intros ->.
Qed.

Lemma made_dirs_refl (m : gmap fspath node) (ps : list fspath) : made_dirs m m ps.
Proof. intros p. by left. Qed.

Lemma made_dirs_trans (m1 m2 m3 : gmap fspath node) (ps qs : list fspath) :
  made_dirs m1 m2 ps -> made_dirs m2 m3 qs -> made_dirs m1 m3 (ps ++ qs).
Proof.
  intros H12 H23 p. destruct (H23 p) as [-> | (Hq & Hnone & ->)].
  - destruct (H12 p) as [-> | (Hp & ? & ?)]; [by left | right].
    rewrite elem_of_app. auto.
  - destruct (H12 p) as [Heq | (Hp & ? & Hdir)]; [| congruence].
    rewrite Heq in Hnone. right. rewrite elem_of_app. auto.
Qed.

Lemma made_dirs_extend (m m' : gmap fspath node) (ps : list fspath) :
  made_dirs m m' ps -> forall p n, m !! p = Some n -> m' !! p = Some n.
Proof. intros Hmade p n Hn. destruct (Hmade p) as [-> | (_ & ? & _)]; congruence. Qed.

Lemma made_dirs_files (m m' : gmap fspath node) (ps : list fspath) (p : fspath) (c : string) :
  made_dirs m m' ps -> m' !! p = Some (File c) <-> m !! p = Some (File c).
Proof. intros Hmade. destruct (Hmade p) as [-> | (_ & ? & ?)]; [done | split; congruence]. Qed.

Lemma made_dirs_outside (m m' : gmap fspath node) (ps : list fspath) (p : fspath) :
  made_dirs m m' ps -> p ∉ ps -> m' !! p = m !! p.
Proof. intros Hmade Hp. by destruct (Hmade p) as [-> | (? & _)]. Qed.

Lemma mkdirs_made (m m' : gmap fspath node) (cur rest : fspath) (r : result unit) :
  mkdirs m cur rest = (m', r) -> made_dirs m m' (ancestors cur rest).
Proof.
  revert m cur. induction rest as [|x rest IH]; intros m cur; simpl.
  - intros [= <- _]. apply made_dirs_refl.
  - destruct (m !! (cur ++ [x])) as [[c|]|] eqn:Hx.
    + intros [= <- _]. apply made_dirs_refl.
    + intros Hrun%IH. intros p. destruct (Hrun p) as [? | (? & ? & ?)]; [by left | right].
      split; [by right | done].
    + intros Hrun%IH. intros p. destruct (Hrun p) as [Heq | (? & Hnone & ?)].
      * destruct (decide (p = cur ++ [x])) as [-> | Hne].
        -- right. rewrite Heq, lookup_insert_eq. split; [left | done].
        -- left. by rewrite Heq, lookup_insert_ne.
      * right. split; [by right |]. split; [| done].
        destruct (decide (p = cur ++ [x])) as [-> | Hne].
        -- by rewrite lookup_insert_eq in Hnone.
        -- by rewrite lookup_insert_ne in Hnone.
Qed.

Lemma mkdirs_ok (m m' : gmap fspath node) (cur rest : fspath) :
  mkdirs m cur rest = (m', Ok tt) -> walk m' cur rest = Ok Dir.
Proof.
  revert m cur. induction rest as [|x rest IH]; intros m cur; simpl; [done |].
  destruct (m !! (cur ++ [x])) as [[c|]|] eqn:Hx; [done | |].
  - intros Hrun. pose proof (mkdirs_made _ _ _ _ _ Hrun) as Hmade.
    rewrite (made_dirs_extend _ _ _ Hmade _ _ Hx). eauto.
  - intros Hrun. pose proof (mkdirs_made _ _ _ _ _ Hrun) as Hmade.
    rewrite (made_dirs_extend _ _ _ Hmade (cur ++ [x]) Dir) by apply lookup_insert_eq.
    eauto.
Qed.



#[local] Arguments component_spec : simpl never.
#[local] Arguments pages_guide : simpl never.
#[local] Arguments import_guide : simpl never.

Ltac solve_paths := by apply (bool_decide_unpack _); vm_compute.

(** * Properties of the script *)

Lemma io_bind_Ok {A B} (m : io A) (k : A -> io B) (w w' : world) (b : B) :
  (m ≫= k) w = (w', Ok b) -> exists a w1, m w = (w1, Ok a) /\ k a w1 = (w', Ok b).
Proof.
  unfold mbind, io_bind. destruct (m w) as [w1 [a|e]]; [eauto | done].
Qed.

Lemma io_bind_run {A B} (m : io A) (k : A -> io B) (w w1 : world) (a : A) :
  m w = (w1, Ok a) -> (m ≫= k) w = k a w1.
Proof. unfold mbind, io_bind. by intros ->. Qed.

Lemma io_bind_Throw {A B} (m : io A) (k : A -> io B) (w w1 : world) (e : error) :
  m w = (w1, Throw e) -> (m ≫= k) w = (w1, Throw e).
Proof. unfold mbind, io_bind. by intros ->. Qed.

Tactic Notation "inv_io" hyp(H) "as" ident(a) ident(w) ident(Ha) :=
  apply io_bind_Ok in H; destruct H as (a & w & Ha & H).

Lemma world_eta (w : world) : World (files w) (console w) = w.
Proof. by destruct w. Qed.

Lemma console_log_Ok (s : string) (w w' : world) (u : unit) :
  console_log s w = (w', Ok u) -> files w' = files w /\ console w' = console w ++ [Log s].
Proof. by intros [= <- _]. Qed.

Lemma lift_Ok {A} (r : result A) (w w' : world) (a : A) :
  lift r w = (w', Ok a) -> w' = w /\ r = Ok a.
Proof. by intros [= <- ->]. Qed.

Lemma readFileSync_Ok (p : fspath) (w w' : world) (text : string) :
  readFileSync p w = (w', Ok text) -> w' = w /\ stat (files w) p = Ok (File text).
Proof.
  unfold readFileSync. intros [= <- Hr]. split; [done |].
  by destruct (stat (files w) p) as [[c|]|]; simplify_eq.
Qed.

Lemma writeFileSync_Ok (p : fspath) (c : string) (w w' : world) (u : unit) :
  writeFileSync p c w = (w', Ok u) ->
  stat (files w) (removelast p) = Ok Dir
  /\ files w' = <[p := File c]> (files w)
  /\ console w' = console w.
Proof.
  unfold writeFileSync. destruct p as [|x p]; [done |].
  destruct (stat (files w) (removelast (x :: p))) as [[c'|]|]; try done.
  by destruct (files w !! (x :: p)) as [[c'|]|]; intros [= <- _].
Qed.

Lemma writeFileSync_again (p : fspath) (c : string) (w : world) :
  p <> [] ->
  stat (files w) (removelast p) = Ok Dir ->
  files w !! p = Some (File c) ->
  writeFileSync p c w = (w, Ok tt).
Proof.
  intros Hp Hdir Hfile. unfold writeFileSync. destruct p as [|x p]; [done |].
  rewrite Hdir, Hfile, insert_id by done. by rewrite world_eta.
Qed.

Lemma ensure_dir_run (d : fspath) (w w' : world) (r : result unit) :
  ensure_dir d w = (w', r) ->
  console w' = console w
  /\ made_dirs (files w) (files w') (ancestors [] d)
  /\ (r = Ok tt -> is_ok (stat (files w') d) = true).
Proof.
  unfold ensure_dir, existsSync, mbind, io_bind.
  destruct (is_ok (stat (files w) d)) eqn:Hd; simpl.
  - intros [= <- <-]. auto using made_dirs_refl.
  - unfold mkdirSync_recursive. destruct (mkdirs (files w) [] d) as [m r'] eqn:Hm.
    intros [= <- <-]. simpl. split; [done |]. split; [by eapply mkdirs_made |].
    intros ->. unfold stat. by rewrite (mkdirs_ok _ _ _ _ Hm).
Qed.

Lemma ensure_dirs_run (ds : list fspath) (w w' : world) (r : result unit) :
  forEach_io ensure_dir ds w = (w', r) ->
  console w' = console w
  /\ made_dirs (files w) (files w') (concat (map (ancestors []) ds))
  /\ (r = Ok tt -> Forall (fun d => is_ok (stat (files w') d) = true) ds).
Proof.
  revert w. induction ds as [|d ds IH]; intros w; simpl.
  - intros [= <- <-]. auto using made_dirs_refl.
  - unfold mbind, io_bind. destruct (ensure_dir d w) as [w1 [[]|e]] eqn:Hd.
    + apply ensure_dir_run in Hd as (Hc1 & Hm1 & Hok1).
      intros (Hc & Hm & Hok)%IH. split; [congruence |].
      split; [by eapply made_dirs_trans |].
      intros ->. constructor; [| auto].
      unfold stat. rewrite (walk_extend (files w1)); eauto using made_dirs_extend.
    + apply ensure_dir_run in Hd as (Hc1 & Hm1 & _).
      intros [= <- <-]. split; [done |]. split; [| done].
      intros p. destruct (Hm1 p) as [? | (? & ? & ?)]; [by left | right].
      rewrite elem_of_app. auto.
Qed.

Lemma ensure_dir_skip (d : fspath) (w : world) :
  is_ok (stat (files w) d) = true -> ensure_dir d w = (w, Ok tt).
Proof. intros Hd. unfold ensure_dir, existsSync, mbind, io_bind. by rewrite Hd. Qed.

Lemma ensure_dirs_skip (ds : list fspath) (w : world) :
  Forall (fun d => is_ok (stat (files w) d) = true) ds ->
  forEach_io ensure_dir ds w = (w, Ok tt).
Proof.
  induction 1 as [|d ds Hd _ IH]; simpl; [done |].
  by rewrite (io_bind_run _ _ _ _ _ (ensure_dir_skip _ _ Hd)).
Qed.

(** A [forEach] of writes. *)
Lemma forEach_io_map {A B} (g : A -> B) (f : B -> io unit) (l : list A) :
  forEach_io (fun x => f (g x)) l = forEach_io f (map g l).
Proof. induction l as [|x l IH]; simpl; [done | by rewrite IH]. Qed.

Lemma write_each_Ok (outs : list (fspath * string)) (w w' : world) (u : unit) :
  forEach_io write_one outs w = (w', Ok u) ->
  files w' = write_all outs (files w)
  /\ console w' = console w
  /\ match outs with
     | [] => True
     | pc :: _ => stat (files w) (removelast (fst pc)) = Ok Dir
     end.
Proof.
  revert w. induction outs as [|[p c] outs IH]; intros w; simpl.
  - by intros [= <- _].
  - intros Hrun. inv_io Hrun as u1 w1 Hw.
    apply writeFileSync_Ok in Hw as (Hdir & Hfiles & Hcons).
    apply IH in Hrun as (-> & -> & _). by rewrite Hfiles.
Qed.

Lemma write_all_lookup_ne (outs : list (fspath * string)) (m : gmap fspath node) (q : fspath) :
  q ∉ map fst outs -> write_all outs m !! q = m !! q.
Proof.
  revert m. induction outs as [|[p c] outs IH]; intros m; simpl; [done |].
  intros [Hne Hq]%not_elem_of_cons. rewrite IH by done. by apply lookup_insert_ne.
Qed.

Lemma write_all_lookup (outs : list (fspath * string)) (m : gmap fspath node)
    (p : fspath) (c : string) :
  NoDup (map fst outs) -> (p, c) ∈ outs -> write_all outs m !! p = Some (File c).
Proof.
  revert m. induction outs as [|[p' c'] outs IH]; intros m; simpl.
  - intros _ Hin. by apply elem_of_nil in Hin.
  - intros [Hp' Hnd]%NoDup_cons [[= -> ->] | Hin]%elem_of_cons; [| by apply IH].
    rewrite write_all_lookup_ne by done. apply lookup_insert_eq.
Qed.

Lemma stat_write_all (outs : list (fspath * string)) (m : gmap fspath node) (q : fspath) :
  Forall (fun p => p ∉ ancestors [] q) (map fst outs) ->
  stat (write_all outs m) q = stat m q.
Proof.
  intros Hall. apply walk_agree. intros p Hp. apply write_all_lookup_ne.
  intros Hin. rewrite Forall_forall in Hall. by apply (Hall p).
Qed.

Lemma write_each_again (outs : list (fspath * string)) (w : world) :
  Forall (fun pc => fst pc <> [] /\ stat (files w) (removelast (fst pc)) = Ok Dir
                    /\ files w !! fst pc = Some (File (snd pc))) outs ->
  forEach_io write_one outs w = (w, Ok tt).
Proof.
  induction 1 as [|[p c] outs (Hp & Hdir & Hfile) _ IH]; simpl; [done |].
  unfold write_one at 1. simpl.
  by rewrite (io_bind_run _ _ _ _ _ (writeFileSync_again _ _ _ Hp Hdir Hfile)).
Qed.

Lemma keeps_seq (m k : io unit) (fs : gmap fspath node) :
  keeps m fs -> keeps k fs -> keeps (m;; k) fs.
Proof.
  intros Hm Hk cs. destruct (Hm cs) as [cs1 H1]. destruct (Hk cs1) as [cs2 H2].
  exists cs2. by rewrite (io_bind_run _ _ _ _ _ H1).
Qed.

Lemma keeps_log (s : string) (fs : gmap fspath node) : keeps (console_log s) fs.
Proof. intros cs. by eexists. Qed.

Section ScriptProperties.
Context {num : Type} `{Number num} `{JSON num}.

Local Abbreviation value := (value num).

Lemma parse_Ok (text : string) (w w' : world) (doc : value) :
  parse text w = (w', Ok doc) -> w' = w /\ JSON_parse text = Some doc.
Proof.
  unfold parse. intros [-> Hp]%lift_Ok. split; [done |].
  by destruct (JSON_parse text); simplify_eq.
Qed.

Lemma exportDesignTokens_Ok (w w' : world) (u : unit) :
  exportDesignTokens w = (w', Ok u) ->
  exists text doc fig css,
    stat (files w) tokensPath = Ok (File text)
    /\ JSON_parse text = Some doc
    /\ figmaTokens doc = Ok fig
    /\ cssTokens doc = Ok css
    /\ stat (files w) TOKENS_DIR = Ok Dir
    /\ files w' = write_all (token_outputs fig css) (files w).
Proof.
  unfold exportDesignTokens. intros Hrun.
  inv_io Hrun as u0 w0 Hlog. apply console_log_Ok in Hlog as [Hf0 _].
  inv_io Hrun as text w1 Hread. apply readFileSync_Ok in Hread as [-> Hread].
  inv_io Hrun as doc w1 Hparse. apply parse_Ok in Hparse as [-> Hparse].
  inv_io Hrun as fig w1 Hfig. apply lift_Ok in Hfig as [-> Hfig].
  inv_io Hrun as u1 w1 Hw1. apply writeFileSync_Ok in Hw1 as (Hdir & Hf1 & _).
  inv_io Hrun as css w2 Hcss. apply lift_Ok in Hcss as [-> Hcss].
  inv_io Hrun as u2 w2 Hw2. apply writeFileSync_Ok in Hw2 as (_ & Hf2 & _).
  apply console_log_Ok in Hrun as [Hf3 _].
  exists text, doc, fig, css. rewrite Hf0 in *.
  repeat split; try done. by rewrite Hf3, Hf2, Hf1.
Qed.

Lemma exportDesignTokens_again (w : world) (text : string) (doc fig : value) (css : string) :
  stat (files w) tokensPath = Ok (File text) ->
  JSON_parse text = Some doc ->
  figmaTokens doc = Ok fig ->
  cssTokens doc = Ok css ->
  stat (files w) TOKENS_DIR = Ok Dir ->
  files w !! (TOKENS_DIR ++ ["figma-variables.json"]) = Some (File (JSON_stringify fig)) ->
  files w !! (TOKENS_DIR ++ ["tokens.css"]) = Some (File css) ->
  exists cs, exportDesignTokens w = (World (files w) cs, Ok tt).
Proof.
  intros Hread Hparse Hfig Hcss Hdir Hf1 Hf2. eexists.
  unfold exportDesignTokens.
  rewrite (io_bind_run _ _ _ _ _ eq_refl).
  erewrite io_bind_run; [| unfold readFileSync; simpl; by rewrite Hread].
  erewrite io_bind_run; [| unfold parse, lift; by rewrite Hparse].
  erewrite io_bind_run; [| unfold lift; by rewrite Hfig].
  erewrite io_bind_run; [| by apply writeFileSync_again].
  erewrite io_bind_run; [| unfold lift; by rewrite Hcss].
  erewrite io_bind_run; [| by apply writeFileSync_again].
  reflexivity.
Qed.

Lemma exportDesignTokens_unreadable (w : world) :
  unreadable w ->
  exists e, exportDesignTokens w
            = (World (files w) (console w ++ [Log "📋 Exportando design tokens..."]), Throw e).
Proof.
  unfold unreadable, exportDesignTokens. intros Hun.
  rewrite (io_bind_run _ _ _ _ _ eq_refl).
  destruct (stat (files w) tokensPath) as [[text|]|e] eqn:Hstat.
  - exists SyntaxError.
    erewrite io_bind_run; [| unfold readFileSync; simpl; by rewrite Hstat].
    erewrite io_bind_Throw; [done |]. unfold parse, lift. by rewrite Hun.
  - exists EISDIR. erewrite io_bind_Throw; [done |].
    unfold readFileSync; simpl; by rewrite Hstat.
  - exists e. erewrite io_bind_Throw; [done |].
    unfold readFileSync; simpl; by rewrite Hstat.
Qed.

Lemma generateComponentSpecs_Ok (w w' : world) (u : unit) :
  generateComponentSpecs w = (w', Ok u) ->
  stat (files w) COMPONENTS_DIR = Ok Dir
  /\ files w' = write_all component_outputs (files w).
Proof.
  unfold generateComponentSpecs. intros Hrun.
  inv_io Hrun as u0 w0 Hlog. apply console_log_Ok in Hlog as [Hf0 _].
  inv_io Hrun as u1 w1 Hw.
  change (fun component => writeFileSync (component_file component) (component_spec component))
    with (fun component => write_one (component_file component, component_spec component))
    in Hw.
  rewrite forEach_io_map in Hw. apply write_each_Ok in Hw as (Hf1 & _ & Hdir).
  apply console_log_Ok in Hrun as [Hf2 _].
  rewrite Hf0 in *. split; [exact Hdir | by rewrite Hf2, Hf1].
Qed.

Lemma component_outputs_dir :
  Forall (fun pc => fst pc <> [] /\ removelast (fst pc) = COMPONENTS_DIR) component_outputs.
Proof. by repeat constructor. Qed.

Lemma generateComponentSpecs_again (w : world) :
  stat (files w) COMPONENTS_DIR = Ok Dir ->
  Forall (fun pc => files w !! fst pc = Some (File (snd pc))) component_outputs ->
  exists cs, generateComponentSpecs w = (World (files w) cs, Ok tt).
Proof.
  intros Hdir Hfiles. eexists. unfold generateComponentSpecs.
  rewrite (io_bind_run _ _ _ _ _ eq_refl).
  change (fun component => writeFileSync (component_file component) (component_spec component))
    with (fun component => write_one (component_file component, component_spec component)).
  rewrite forEach_io_map. fold component_outputs.
  erewrite io_bind_run; [| apply write_each_again]; [reflexivity |].
  pose proof component_outputs_dir as Hshape.
  rewrite Forall_forall in Hfiles, Hshape. apply Forall_forall. intros pc Hin.
  destruct (Hshape pc Hin) as [Hne ->]. auto.
Qed.

Lemma generatePagesGuide_Ok (w w' : world) (u : unit) :
  generatePagesGuide w = (w', Ok u) ->
  stat (files w) PAGES_DIR = Ok Dir
  /\ files w' = write_all [(PAGES_DIR ++ ["README.md"], pages_guide)] (files w).
Proof.
  unfold generatePagesGuide. intros Hrun.
  inv_io Hrun as u0 w0 Hlog. apply console_log_Ok in Hlog as [Hf0 _].
  inv_io Hrun as u1 w1 Hw. apply writeFileSync_Ok in Hw as (Hdir & Hf1 & _).
  apply console_log_Ok in Hrun as [Hf2 _].
  rewrite Hf0 in *. split; [exact Hdir | by rewrite Hf2, Hf1].
Qed.

Lemma generatePagesGuide_again (w : world) :
  stat (files w) PAGES_DIR = Ok Dir ->
  files w !! (PAGES_DIR ++ ["README.md"]) = Some (File pages_guide) ->
  exists cs, generatePagesGuide w = (World (files w) cs, Ok tt).
Proof.
  intros Hdir Hfile. eexists. unfold generatePagesGuide.
  rewrite (io_bind_run _ _ _ _ _ eq_refl).
  erewrite io_bind_run; [| by apply writeFileSync_again]. reflexivity.
Qed.

Lemma generateNavigationFlow_Ok (w w' : world) (u : unit) :
  generateNavigationFlow w = (w', Ok u) ->
  stat (files w) OUTPUT_DIR = Ok Dir
  /\ files w' = write_all [(OUTPUT_DIR ++ ["navigation-flow.json"],
                            JSON_stringify (navigationFlow (num := num)))] (files w).
Proof.
  unfold generateNavigationFlow. intros Hrun.
  inv_io Hrun as u0 w0 Hlog. apply console_log_Ok in Hlog as [Hf0 _].
  inv_io Hrun as u1 w1 Hw. apply writeFileSync_Ok in Hw as (Hdir & Hf1 & _).
  apply console_log_Ok in Hrun as [Hf2 _].
  rewrite Hf0 in *. split; [exact Hdir | by rewrite Hf2, Hf1].
Qed.

Lemma generateNavigationFlow_again (w : world) :
  stat (files w) OUTPUT_DIR = Ok Dir ->
  files w !! (OUTPUT_DIR ++ ["navigation-flow.json"])
    = Some (File (JSON_stringify (navigationFlow (num := num)))) ->
  exists cs, generateNavigationFlow w = (World (files w) cs, Ok tt).
Proof.
  intros Hdir Hfile. eexists. unfold generateNavigationFlow.
  rewrite (io_bind_run _ _ _ _ _ eq_refl).
  erewrite io_bind_run; [| by apply writeFileSync_again]. reflexivity.
Qed.

Lemma generateImportGuide_Ok (w w' : world) (u : unit) :
  generateImportGuide w = (w', Ok u) ->
  stat (files w) OUTPUT_DIR = Ok Dir
  /\ files w' = write_all [(OUTPUT_DIR ++ ["IMPORT-GUIDE.md"], import_guide)] (files w).
Proof.
  unfold generateImportGuide. intros Hrun.
  inv_io Hrun as u0 w0 Hlog. apply console_log_Ok in Hlog as [Hf0 _].
  inv_io Hrun as u1 w1 Hw. apply writeFileSync_Ok in Hw as (Hdir & Hf1 & _).
  apply console_log_Ok in Hrun as [Hf2 _].
  rewrite Hf0 in *. split; [exact Hdir | by rewrite Hf2, Hf1].
Qed.

Lemma generateImportGuide_again (w : world) :
  stat (files w) OUTPUT_DIR = Ok Dir ->
  files w !! (OUTPUT_DIR ++ ["IMPORT-GUIDE.md"]) = Some (File import_guide) ->
  exists cs, generateImportGuide w = (World (files w) cs, Ok tt).
Proof.
  intros Hdir Hfile. eexists. unfold generateImportGuide.
  rewrite (io_bind_run _ _ _ _ _ eq_refl).
  erewrite io_bind_run; [| by apply writeFileSync_again]. reflexivity.
Qed.


Lemma write_all_app (a b : list (fspath * string)) (m : gmap fspath node) :
  write_all (a ++ b) m = write_all b (write_all a m).
Proof. apply foldl_app. Qed.

(** Making the directories of the export leaves the token document alone. *)
Lemma made_dirs_tokens (m m1 : gmap fspath node) :
  made_dirs m m1 (concat (map (ancestors []) export_dirs)) ->
  stat m1 tokensPath = stat m tokensPath.
Proof.
  intros Hmade. apply walk_agree. intros p Hp. apply (made_dirs_outside _ _ _ _ Hmade).
  revert p Hp. apply Forall_forall. solve_paths.
Qed.

(** What a run of [prepareExport] that ends well has done. *)
Lemma prepareExport_Ok (w w' : world) (u : unit) :
  prepareExport w = (w', Ok u) ->
  exists m1 text doc fig css,
    made_dirs (files w) m1 (concat (map (ancestors []) export_dirs))
    /\ Forall (fun d => is_ok (stat m1 d) = true) export_dirs
    /\ stat m1 tokensPath = Ok (File text)
    /\ JSON_parse text = Some doc
    /\ figmaTokens doc = Ok fig
    /\ cssTokens doc = Ok css
    /\ Forall (fun d => stat m1 d = Ok Dir) [TOKENS_DIR; COMPONENTS_DIR; PAGES_DIR; OUTPUT_DIR]
    /\ files w' = write_all (outputs fig css) m1.
Proof.
  unfold prepareExport. intros Hrun.
  inv_io Hrun as u0 w0 Hlog. apply console_log_Ok in Hlog as [Hf0 _].
  inv_io Hrun as u1 w1 Hdirs. apply ensure_dirs_run in Hdirs as (_ & Hmade & Hok).
  specialize (Hok ltac:(by destruct u1)). rewrite Hf0 in Hmade.
  inv_io Hrun as u2 w2 Htok.
  apply exportDesignTokens_Ok in Htok
    as (text & doc & fig & css & Hread & Hparse & Hfig & Hcss & Hd1 & Hf2).
  inv_io Hrun as u3 w3 Hcomp. apply generateComponentSpecs_Ok in Hcomp as (Hd2 & Hf3).
  inv_io Hrun as u4 w4 Hpages. apply generatePagesGuide_Ok in Hpages as (Hd3 & Hf4).
  inv_io Hrun as u5 w5 Hnav. apply generateNavigationFlow_Ok in Hnav as (Hd4 & Hf5).
  inv_io Hrun as u6 w6 Himp. apply generateImportGuide_Ok in Himp as (_ & Hf6).
  apply console_log_Ok in Hrun as [Hf7 _].
  exists (files w1), text, doc, fig, css.
  rewrite Hf3, Hf2 in Hd3. rewrite Hf4, Hf3, Hf2 in Hd4. rewrite Hf2 in Hd2.
  rewrite !stat_write_all in Hd2 by solve_paths.
  rewrite !stat_write_all in Hd3 by solve_paths.
  rewrite !stat_write_all in Hd4 by solve_paths.
  repeat split; try done.
  - by repeat constructor.
  - rewrite Hf7, Hf6, Hf5, Hf4, Hf3, Hf2. unfold outputs.
    by rewrite !write_all_app.
Qed.

(** A run of [prepareExport] over the files a run has left. *)
Lemma prepareExport_again (w : world) (text : string) (doc fig : value) (css : string) :
  Forall (fun d => is_ok (stat (files w) d) = true) export_dirs ->
  stat (files w) tokensPath = Ok (File text) ->
  JSON_parse text = Some doc ->
  figmaTokens doc = Ok fig ->
  cssTokens doc = Ok css ->
  Forall (fun d => stat (files w) d = Ok Dir)
         [TOKENS_DIR; COMPONENTS_DIR; PAGES_DIR; OUTPUT_DIR] ->
  Forall (fun pc => files w !! fst pc = Some (File (snd pc))) (outputs fig css) ->
  exists cs, prepareExport w = (World (files w) cs, Ok tt).
Proof.
  intros Hdirs Hread Hparse Hfig Hcss Hparents Hfiles.
  apply Forall_cons in Hparents as [Hd1 Hparents].
  apply Forall_cons in Hparents as [Hd2 Hparents].
  apply Forall_cons in Hparents as [Hd3 Hparents].
  apply Forall_cons in Hparents as [Hd4 _].
  unfold outputs in Hfiles. rewrite !Forall_app in Hfiles.
  destruct Hfiles as (Htok & Hcomp & Hrest).
  apply Forall_cons in Htok as [Hf1 Htok]. apply Forall_cons in Htok as [Hf2 _].
  apply Forall_cons in Hrest as [Hf3 Hrest]. apply Forall_cons in Hrest as [Hf4 Hrest].
  apply Forall_cons in Hrest as [Hf5 _].
  assert (Hkeeps : keeps prepareExport (files w)).
  { unfold prepareExport.
    apply keeps_seq; [apply keeps_log |].
    apply keeps_seq;
      [intros cs; eexists; by apply (ensure_dirs_skip _ (World (files w) cs)) |].
    apply keeps_seq;
      [intros cs; by apply (exportDesignTokens_again (World (files w) cs) text doc fig css) |].
    apply keeps_seq;
      [intros cs; by apply (generateComponentSpecs_again (World (files w) cs)) |].
    apply keeps_seq; [intros cs; by apply (generatePagesGuide_again (World (files w) cs)) |].
    apply keeps_seq;
      [intros cs; by apply (generateNavigationFlow_again (World (files w) cs)) |].
    apply keeps_seq;
      [intros cs; by apply (generateImportGuide_again (World (files w) cs)) |].
    apply keeps_log. }
  destruct (Hkeeps (console w)) as [cs Hcs]. exists cs. by rewrite world_eta in Hcs.
Qed.

(** C6. A second run of the export over the files of a run that ended well
    ends well too and leaves every file as the first run left it.  The
    outputs are a function of the token document: a run that ends well from
    any other state with the same token document leaves the same contents in
    every output file.  (The token document is not among the outputs, and a
    write replaces the whole file.) *)
Theorem export_idempotent (w w1 : world) :
  prepareExport w = (w1, Ok tt) ->
  (exists w2, prepareExport w1 = (w2, Ok tt) /\ files w2 = files w1)
  /\ (forall w' w1',
        stat (files w') tokensPath = stat (files w) tokensPath ->
        prepareExport w' = (w1', Ok tt) ->
        Forall (fun p => files w1' !! p = files w1 !! p) output_files)
  /\ Forall (fun p => exists c, files w1 !! p = Some (File c)) output_files.
Proof.
  intros Hrun.
  apply prepareExport_Ok in Hrun
    as (m1 & text & doc & fig & css & Hmade & Hdirs & Hread & Hparse & Hfig & Hcss
        & Hparents & Hfiles).
  assert (Hnd : NoDup (map fst (outputs fig css))) by solve_paths.
  assert (Hout : Forall (fun pc => files w1 !! fst pc = Some (File (snd pc))) (outputs fig css)).
  { apply Forall_forall. intros [p c] Hin. rewrite Hfiles. by apply write_all_lookup. }
  assert (Hkept : forall d, d ∈ tokensPath :: export_dirs ->
                            stat (files w1) d = stat m1 d).
  { intros d Hd. rewrite Hfiles. apply stat_write_all.
    assert (Hall : Forall (fun d => Forall (fun p => p ∉ ancestors [] d)
                                           (map fst (outputs fig css)))
                          (tokensPath :: export_dirs)) by solve_paths.
    rewrite Forall_forall in Hall. auto. }
  split; [| split].
  - destruct (prepareExport_again w1 text doc fig css) as [cs Hagain]; try done.
    + apply Forall_forall. intros d Hd. rewrite Hkept by (by right).
      rewrite Forall_forall in Hdirs. auto.
    + rewrite Hkept by left. done.
    + apply Forall_forall. intros d Hd. rewrite Hkept.
      * rewrite Forall_forall in Hparents. auto.
      * right. revert d Hd. apply Forall_forall. solve_paths.
    + by exists (World (files w1) cs).
  - intros w' w1' Hsame Hrun'.
    apply prepareExport_Ok in Hrun'
      as (m1' & text' & doc' & fig' & css' & Hmade' & _ & Hread' & Hparse' & Hfig' & Hcss'
          & _ & Hfiles').
    rewrite (made_dirs_tokens _ _ Hmade') in Hread'.
    rewrite (made_dirs_tokens _ _ Hmade) in Hread.
    assert (text' = text) as -> by congruence.
    assert (doc' = doc) as -> by congruence.
    assert (fig' = fig) as -> by congruence.
    assert (css' = css) as -> by congruence.
    change output_files with (map fst (outputs fig css)).
    apply Forall_forall. intros p ([p' c] & -> & Hin)%list_elem_of_fmap.
    rewrite Hfiles, Hfiles'. by rewrite !(write_all_lookup _ _ _ c).
  - change output_files with (map fst (outputs fig css)).
    apply Forall_fmap. eapply Forall_impl; [exact Hout |]. intros [p c] Hp. by exists c.
Qed.

(** C5. When the token document is missing or is no JSON text,
    [prepareExport] throws: no file is written or changed, and the console
    shows that no step after the converter has started. *)
Theorem unreadable_tokens_abort (w : world) :
  unreadable w ->
  exists w' e,
    prepareExport w = (w', Throw e)
    /\ (forall p c, files w' !! p = Some (File c) <-> files w !! p = Some (File c))
    /\ (console w' = console w ++ [Log "🎨 Preparando exportação para Figma..."]
        \/ console w' = console w ++ [Log "🎨 Preparando exportação para Figma...";
                                      Log "📋 Exportando design tokens..."]).
Proof.
  intros Hun. unfold prepareExport.
  rewrite (io_bind_run _ _ _ _ _ eq_refl).
  set (w0 := World (files w) (console w ++ [Log "🎨 Preparando exportação para Figma..."])).
  destruct (forEach_io ensure_dir
              [OUTPUT_DIR; COMPONENTS_DIR; PAGES_DIR; ASSETS_DIR; TOKENS_DIR] w0)
    as [w1 [[]|e]] eqn:Hdirs.
  - destruct (ensure_dirs_run _ _ _ _ Hdirs) as (Hcons & Hmade & _).
    rewrite (io_bind_run _ _ _ _ _ Hdirs).
    assert (Hun1 : unreadable w1).
    { unfold unreadable in *. by rewrite (made_dirs_tokens _ _ Hmade). }
    destruct (exportDesignTokens_unreadable _ Hun1) as [e He].
    rewrite (io_bind_Throw _ _ _ _ _ He).
    eexists _, e. split; [done |]. split.
    + intros p c. simpl. apply (made_dirs_files _ _ _ _ _ Hmade).
    + right. simpl. rewrite Hcons. simpl. by rewrite <- app_assoc.
  - destruct (ensure_dirs_run _ _ _ _ Hdirs) as (Hcons & Hmade & _).
    rewrite (io_bind_Throw _ _ _ _ _ Hdirs).
    eexists _, e. split; [done |]. split.
    + intros p c. apply (made_dirs_files _ _ _ _ _ Hmade).
    + left. by rewrite Hcons.
Qed.

(** C4, amended.  The entry point settles with the rejection handled: the
    process exits with code 0 whether the export ends well or throws, and
    what [main] throws is printed on the console by the handler of line 596. *)
Theorem exit_code_is_zero (w w1 : world) (r : result unit) :
  main w = (w1, r) ->
  snd (run_script w) = 0%Z
  /\ match r with
     | Ok _ => fst (run_script w) = w1
     | Throw e => fst (run_script w) = World (files w1) (console w1 ++ [Error e])
     end.
Proof.
  intros Hmain. unfold run_script, entry_point, catch. rewrite Hmain.
  by destruct r.
Qed.

End ScriptProperties.

Lemma writeFileSync_run (p : fspath) (c : string) (w : world) :
  p <> [] ->
  stat (files w) (removelast p) = Ok Dir ->
  files w !! p <> Some Dir ->
  writeFileSync p c w = (World (<[p := File c]> (files w)) (console w), Ok tt).
Proof.
  intros Hp Hdir Hfile. unfold writeFileSync. destruct p as [|x p]; [done |].
  rewrite Hdir. by destruct (files w !! (x :: p)) as [[c'|]|].
Qed.

Lemma write_each_run (outs : list (fspath * string)) (w : world) :
  Forall (fun pc => fst pc <> [] /\ stat (files w) (removelast (fst pc)) = Ok Dir
                    /\ files w !! fst pc <> Some Dir) outs ->
  Forall (fun pc => Forall (fun q => q ∉ ancestors [] (removelast (fst pc))) (map fst outs))
         outs ->
  forEach_io write_one outs w = (World (write_all outs (files w)) (console w), Ok tt).
Proof.
  revert w. induction outs as [|[p c] outs IH]; intros w Hpre Hsep; simpl.
  - by rewrite world_eta.
  - apply Forall_cons in Hpre as [(Hp & Hdir & Hfile) Hpre].
    apply Forall_cons in Hsep as [_ Hsep].
    unfold write_one at 1. simpl.
    rewrite (io_bind_run _ _ _ _ _ (writeFileSync_run _ c _ Hp Hdir Hfile)).
    rewrite IH; [done | |].
    + rewrite Forall_forall in Hpre, Hsep. apply Forall_forall. intros [p' c'] Hin. simpl.
      destruct (Hpre _ Hin) as (Hp' & Hdir' & Hfile'). split; [done |]. split.
      * rewrite stat_insert; [done |].
        specialize (Hsep _ Hin). simpl in Hsep. by apply Forall_cons in Hsep as [? _].
      * destruct (decide (p = p')) as [<- | Hne];
          [by rewrite lookup_insert_eq | by rewrite lookup_insert_ne].
    + eapply Forall_impl; [exact Hsep |]. intros pc Hpc. simpl in Hpc.
      by apply Forall_cons in Hpc as [_ ?].
Qed.

(** C7. The writer of component specifications writes exactly five
    Markdown files, one per descriptor and named after it; each file has the
    name of its descriptor in the title line, and every prop (between
    backticks), state and variant of the descriptor as a bullet line of its
    own. *)
Theorem component_specs_written (w : world) :
  stat (files w) COMPONENTS_DIR = Ok Dir ->
  Forall (fun component => files w !! component_file component <> Some Dir) components ->
  map component_file components
    = map (fun name => COMPONENTS_DIR ++ [name +:+ ".md"])
          ["Header"; "PaymentModal"; "RoomCard"; "ServiceCard"; "Footer"]
  /\ (exists w',
        generateComponentSpecs w = (w', Ok tt)
        /\ Forall (fun component =>
                     files w' !! component_file component
                     = Some (File (component_spec component))) components
        /\ forall p, p ∉ map component_file components -> files w' !! p = files w !! p)
  /\ Forall (fun component =>
               let ls := lines (component_spec component) in
               head ls = Some ("# " +:+ Component.name component)
               /\ Forall (fun prop => ("- `" +:+ prop +:+ "`") ∈ ls) (Component.props component)
               /\ Forall (fun state => ("- " +:+ state) ∈ ls) (Component.states component)
               /\ Forall (fun variant => ("- " +:+ variant) ∈ ls)
                         (Component.variants component))
            components.
Proof.
  intros Hdir Hfree. split; [done |]. split; [| cbv zeta; solve_paths].
  assert (Hrun : forEach_io write_one component_outputs
                   (World (files w)
                      (console w ++ [Log "🧩 Gerando especificações de componentes..."]))
                 = (World (write_all component_outputs (files w))
                      (console w ++ [Log "🧩 Gerando especificações de componentes..."]),
                    Ok tt)).
  { apply write_each_run; [| solve_paths].
    pose proof component_outputs_dir as Hshape.
    unfold component_outputs in *. rewrite Forall_fmap in *.
    rewrite Forall_forall in Hfree, Hshape. apply Forall_forall. intros c Hc. simpl in *.
    destruct (Hshape c Hc) as [Hne ->]. auto. }
  eexists. split; [| split].
  - unfold generateComponentSpecs.
    rewrite (io_bind_run _ _ _ _ _ eq_refl).
    change (fun component => writeFileSync (component_file component) (component_spec component))
      with (fun component => write_one (component_file component, component_spec component)).
    rewrite forEach_io_map. fold component_outputs.
    by rewrite (io_bind_run _ _ _ _ _ Hrun).
  - cbn [files]. apply Forall_forall. intros c Hc. apply write_all_lookup; [solve_paths |].
    unfold component_outputs. apply list_elem_of_fmap. by exists c.
  - intros p Hp. cbn [files]. apply write_all_lookup_ne.
    unfold component_outputs. by rewrite <- list_fmap_compose.
Qed.

(** C10. The navigation graph the script writes refers to nodes it has: the
    start node, every connection of a node and both ends of every
    interaction are keys of [nodes]. *)
Theorem navigation_graph_closed (num : Type) :
  referentially_closed (navigationFlow (num := num))
  /\ references (navigationFlow (num := num))
     = ["home"]
       ++ ["rooms"; "services"; "attractions"; "login"]
       ++ ["home"; "room-details"; "login"]
       ++ ["rooms"; "payment-modal"]
       ++ ["home"; "service-details"; "login"]
       ++ ["services"; "payment-modal"]
       ++ ["home"]
       ++ ["register"; "home"]
       ++ ["login"; "home"]
       ++ ["room-details"; "service-details"]
       ++ ["home"; "rooms"; "room-details"; "payment-modal"]
  /\ node_ids (navigationFlow (num := num))
     = ["home"; "rooms"; "room-details"; "services"; "service-details"; "attractions";
        "login"; "register"; "payment-modal"].
Proof.
  split; [| by split]. unfold referentially_closed. solve_paths.
Qed.

(** * The script in every state *)

Lemma touched_refl (ds fs : list fspath) (m : gmap fspath node) : touched ds fs m m.
Proof. intros p. by left. Qed.

Lemma touched_trans (ds fs : list fspath) (m1 m2 m3 : gmap fspath node) :
  touched ds fs m1 m2 -> touched ds fs m2 m3 -> touched ds fs m1 m3.
Proof.
  intros H12 H23 p.
  destruct (H23 p) as [-> | [(Hp & Hnone & Hdir) | (Hp & Hnd & c & Hc)]]; [apply H12 | |].
  - destruct (H12 p) as [Heq | [(_ & _ & ?) | (_ & _ & c & ?)]]; [| congruence ..].
    right; left. by rewrite <- Heq.
  - destruct (H12 p) as [Heq | [(_ & _ & ?) | (_ & ? & _)]]; [| congruence |].
    + right; right. rewrite <- Heq. eauto.
    + right; right. eauto.
Qed.

Lemma confined_bind {A B} (ds fs : list fspath) (m : io A) (k : A -> io B) :
  confined ds fs m -> (forall a, confined ds fs (k a)) -> confined ds fs (m ≫= k).
Proof.
  intros Hm Hk w w' r. unfold mbind, io_bind.
  destruct (m w) as [w1 [a|e]] eqn:Hw.
  - intros Hrun. eapply touched_trans; [by eapply Hm | by eapply Hk].
  - intros [= <- <-]. by eapply Hm.
Qed.

Lemma confined_pure {A} (ds fs : list fspath) (m : io A) :
  (forall w, fst (m w) = w) -> confined ds fs m.
Proof. intros Hm w w' r Hrun. specialize (Hm w). rewrite Hrun in Hm. simpl in Hm. subst w'. apply touched_refl. Qed.

Lemma confined_log (ds fs : list fspath) (s : string) : confined ds fs (console_log s).
Proof. intros w w' r [= <- _]. apply touched_refl. Qed.

Lemma confined_error (ds fs : list fspath) (e : error) : confined ds fs (console_error e).
Proof. intros w w' r [= <- _]. apply touched_refl. Qed.

Lemma confined_write (ds fs : list fspath) (p : fspath) (c : string) :
  p ∈ fs -> confined ds fs (writeFileSync p c).
Proof.
  intros Hp w w' r. unfold writeFileSync. destruct p as [|x p]; [intros [= <- _]; apply touched_refl |].
  destruct (stat (files w) (removelast (x :: p))) as [[c'|]|e];
    try (intros [= <- _]; apply touched_refl).
  destruct (files w !! (x :: p)) as [[c'|]|] eqn:Hold;
    try (intros [= <- _]; apply touched_refl).
  - intros [= <- _] q. simpl. destruct (decide (q = x :: p)) as [-> | Hne].
    + right; right. rewrite lookup_insert_eq, Hold. eauto.
    + left. by rewrite lookup_insert_ne.
  - intros [= <- _] q. simpl. destruct (decide (q = x :: p)) as [-> | Hne].
    + right; right. rewrite lookup_insert_eq, Hold. eauto.
    + left. by rewrite lookup_insert_ne.
Qed.

Lemma made_dirs_touched (ds fs ps : list fspath) (m m' : gmap fspath node) :
  Forall (fun p => p ∈ ds) ps -> made_dirs m m' ps -> touched ds fs m m'.
Proof.
  intros Hps Hmade p. destruct (Hmade p) as [? | (Hp & ? & ?)]; [by left |].
  right; left. rewrite Forall_forall in Hps. auto.
Qed.

Lemma confined_ensure_dir (ds fs : list fspath) (d : fspath) :
  Forall (fun p => p ∈ ds) (ancestors [] d) -> confined ds fs (ensure_dir d).
Proof.
  intros Hd w w' r Hrun. apply ensure_dir_run in Hrun as (_ & Hmade & _).
  by eapply made_dirs_touched.
Qed.

Lemma confined_forEach {A} (ds fs : list fspath) (f : A -> io unit) (l : list A) :
  Forall (fun x => confined ds fs (f x)) l -> confined ds fs (forEach_io f l).
Proof.
  induction 1 as [|x l Hx _ IH]; simpl.
  - intros w w' r [= <- _]. apply touched_refl.
  - by apply confined_bind.
Qed.

Lemma confined_catch {A} (ds fs : list fspath) (m : io A) (h : error -> io A) :
  confined ds fs m -> (forall e, confined ds fs (h e)) -> confined ds fs (catch m h).
Proof.
  intros Hm Hh w w' r. unfold catch. destruct (m w) as [w1 [a|e]] eqn:Hw.
  - intros [= <- <-]. by eapply Hm.
  - intros Hrun. eapply touched_trans; [by eapply Hm | by eapply Hh].
Qed.

Lemma talks_log (s : string) : talks [s] [] (console_log s).
Proof. by intros w w' r [= <- <-]. Qed.

Lemma talks_quiet {A} (m : io A) :
  (forall w w' r, m w = (w', r) -> console w' = console w) -> talks [] [0] m.
Proof.
  intros Hm w w' r Hrun. apply Hm in Hrun. destruct r as [a|e]; simpl.
  - by rewrite app_nil_r.
  - exists 0. rewrite app_nil_r. split; [left | done].
Qed.

Lemma talks_bind {A B} (t1 t2 : list string) (s1 s2 : list nat) (m : io A) (k : A -> io B) :
  talks t1 s1 m -> (forall a, talks t2 s2 (k a)) ->
  talks (t1 ++ t2) (s1 ++ map (Nat.add (length t1)) s2) (m ≫= k).
Proof.
  intros Hm Hk w w' r. unfold mbind, io_bind.
  destruct (m w) as [w1 [a|e]] eqn:Hw.
  - intros Hrun. apply Hm in Hw. apply Hk in Hrun. destruct r as [b|e].
    + by rewrite Hrun, Hw, map_app, app_assoc.
    + destruct Hrun as (n & Hn & Hle & Hrun). exists (length t1 + n).
      split; [| split].
      * apply elem_of_app. right. apply list_elem_of_fmap. by exists n.
      * rewrite length_app. lia.
      * rewrite Hrun, Hw, take_app_add, map_app. by rewrite app_assoc.
  - intros [= <- <-]. apply Hm in Hw as (n & Hn & Hle & Hw). exists n.
    split; [| split].
    + apply elem_of_app. by left.
    + rewrite length_app. lia.
    + by rewrite Hw, take_app_le.
Qed.

Lemma talks_weaken {A} (t t' : list string) (s s' : list nat) (m : io A) :
  talks t s m -> t = t' -> Forall (fun k => k ∈ s') s -> talks t' s' m.
Proof.
  intros Hm <- Hs w w' r Hrun. apply Hm in Hrun. destruct r as [a|e]; [done |].
  destruct Hrun as (k & Hk & Hrun). exists k. split; [| done].
  rewrite Forall_forall in Hs. auto.
Qed.

Lemma quiet_write (p : fspath) (c : string) (w w' : world) (r : result unit) :
  writeFileSync p c w = (w', r) -> console w' = console w.
Proof.
  unfold writeFileSync. destruct p as [|x p]; [by intros [= <- _] |].
  destruct (stat (files w) (removelast (x :: p))) as [[c'|]|e]; try by intros [= <- _].
  by destruct (files w !! (x :: p)) as [[c'|]|]; intros [= <- _].
Qed.

Lemma quiet_forEach {A} (f : A -> io unit) (l : list A) :
  (forall x w w' r, f x w = (w', r) -> console w' = console w) ->
  forall w w' r, forEach_io f l w = (w', r) -> console w' = console w.
Proof.
  intros Hf. induction l as [|x l IH]; intros w w' r; simpl; [by intros [= <- _] |].
  unfold mbind, io_bind. destruct (f x w) as [w1 [[]|e]] eqn:Hx.
  - intros Hrun. apply IH in Hrun. apply Hf in Hx. congruence.
  - intros [= <- _]. by apply Hf in Hx.
Qed.

Ltac talk :=
  repeat lazymatch goal with
    | |- talks _ _ (console_log _) => apply talks_log
    | |- talks _ _ (_ ≫= _) => eapply talks_bind; [| intros ?]
    | |- talks _ _ (writeFileSync _ _) => apply talks_quiet, quiet_write
    | |- talks _ _ (readFileSync _) => by apply talks_quiet; intros ? ? ? [= <- _]
    | |- talks _ _ (parse _) => by apply talks_quiet; intros ? ? ? [= <- _]
    | |- talks _ _ (lift _) => by apply talks_quiet; intros ? ? ? [= <- _]
    end.

(** ** Resolution of paths *)

Lemma walk_found (m : gmap fspath node) (cur rest : fspath) (n : node) :
  walk m cur rest = Ok n ->
  n = Dir \/ exists c, n = File c /\ m !! (cur ++ rest) = Some (File c).
Proof.
  revert cur. induction rest as [|x r IH]; intros cur; simpl; [intros [= <-]; by left |].
  destruct (m !! (cur ++ [x])) as [[c|]|] eqn:Hx; [| | done].
  - destruct r; [| done]. intros [= <-]. right. by exists c.
  - intros Hr%IH. by rewrite <- app_assoc in Hr.
Qed.

Lemma stat_dir (m : gmap fspath node) (d : fspath) :
  is_ok (stat m d) = true -> (forall c, m !! d <> Some (File c)) -> stat m d = Ok Dir.
Proof.
  intros Hok Hfree. destruct (stat m d) as [n|e] eqn:Hd; [| done].
  apply walk_found in Hd as [-> | (c & -> & Hc)]; [done |]. by destruct (Hfree c).
Qed.

Lemma walk_app (m : gmap fspath node) (cur a b : fspath) :
  walk m cur a = Ok Dir -> walk m cur (a ++ b) = walk m (cur ++ a) b.
Proof.
  revert cur. induction a as [|x a IH]; intros cur; simpl; [by rewrite app_nil_r |].
  destruct (m !! (cur ++ [x])) as [[c|]|] eqn:Hx; [by destruct a | | done].
  intros Ha. rewrite IH by done. by rewrite <- app_assoc.
Qed.

Lemma stat_child (m : gmap fspath node) (p : fspath) :
  p <> [] ->
  stat m (removelast p) = Ok Dir ->
  stat m p = match m !! p with
             | Some n => Ok n
             | None => Throw ENOENT
             end.
Proof.
  intros Hp Hdir. unfold stat in *.
  rewrite (app_removelast_last "" Hp) at 1. rewrite walk_app by done. simpl.
  rewrite <- (app_removelast_last "" Hp). by destruct (m !! p) as [[c|]|].
Qed.

Lemma write_all_not_dir (outs : list (fspath * string)) (m : gmap fspath node) (p : fspath) :
  m !! p <> Some Dir -> write_all outs m !! p <> Some Dir.
Proof.
  revert m. induction outs as [|[q c] outs IH]; intros m Hp; simpl; [done |].
  apply IH. destruct (decide (q = p)) as [-> | Hne];
    [by rewrite lookup_insert_eq | by rewrite lookup_insert_ne].
Qed.

(** ** Making the directories *)

Lemma mkdirs_clear (m : gmap fspath node) (cur rest : fspath) :
  (forall p c, p ∈ ancestors cur rest -> m !! p <> Some (File c)) ->
  snd (mkdirs m cur rest) = Ok tt.
Proof.
  revert m cur. induction rest as [|x r IH]; intros m cur Hfree; simpl; [done |].
  destruct (m !! (cur ++ [x])) as [[c|]|] eqn:Hx.
  - destruct (Hfree (cur ++ [x]) c); [left | done].
  - apply IH. intros p c Hp. apply Hfree. by right.
  - apply IH. intros p c Hp. destruct (decide (p = cur ++ [x])) as [-> | Hne].
    + by rewrite lookup_insert_eq.
    + rewrite lookup_insert_ne by done. apply Hfree. by right.
Qed.

Lemma ensure_dir_clear (d : fspath) (w : world) :
  (forall p c, p ∈ ancestors [] d -> files w !! p <> Some (File c)) ->
  snd (ensure_dir d w) = Ok tt.
Proof.
  intros Hfree. unfold ensure_dir, existsSync, mbind, io_bind.
  destruct (is_ok (stat (files w) d)); simpl; [done |].
  unfold mkdirSync_recursive. pose proof (mkdirs_clear _ _ _ Hfree) as Hrun.
  by destruct (mkdirs (files w) [] d) as [m r].
Qed.

Lemma ensure_dirs_clear (ds : list fspath) (w : world) :
  (forall p c, p ∈ concat (map (ancestors []) ds) -> files w !! p <> Some (File c)) ->
  snd (forEach_io ensure_dir ds w) = Ok tt.
Proof.
  revert w. induction ds as [|d ds IH]; intros w Hfree; simpl; [done |].
  unfold mbind, io_bind.
  assert (Hd : snd (ensure_dir d w) = Ok tt).
  { apply ensure_dir_clear. intros p c Hp. apply Hfree. apply elem_of_app. by left. }
  destruct (ensure_dir d w) as [w1 r] eqn:Hw. simpl in Hd. subst r.
  apply ensure_dir_run in Hw as (_ & Hmade & _).
  apply IH. intros p c Hp. rewrite (made_dirs_files _ _ _ _ _ Hmade).
  apply Hfree. apply elem_of_app. by right.
Qed.

(** ** The steps that write one file *)

Lemma write_step_run (a b : string) (p : fspath) (c : string) (w : world) :
  p <> [] ->
  stat (files w) (removelast p) = Ok Dir ->
  files w !! p <> Some Dir ->
  (console_log a;; writeFileSync p c;; console_log b) w
  = (World (<[p := File c]> (files w)) (console w ++ [Log a; Log b]), Ok tt).
Proof.
  intros Hp Hdir Hfree.
  rewrite (io_bind_run _ _ _ _ _ eq_refl).
  erewrite io_bind_run; [| by apply writeFileSync_run].
  unfold console_log. simpl. by rewrite <- app_assoc.
Qed.

Lemma writeFileSync_refused (p : fspath) (c : string) (w : world) :
  ~ (p <> [] /\ stat (files w) (removelast p) = Ok Dir /\ files w !! p <> Some Dir) ->
  exists e, writeFileSync p c w = (w, Throw e).
Proof.
  intros Hno. unfold writeFileSync. destruct p as [|x p]; [by eexists |].
  destruct (stat (files w) (removelast (x :: p))) as [[c'|]|e] eqn:Hdir; [by eexists | | by eexists].
  destruct (files w !! (x :: p)) as [[c'|]|] eqn:Hp; [| by eexists |];
    destruct Hno; by rewrite ?Hp.
Qed.

Lemma write_step_refused (a b : string) (p : fspath) (c : string) (w : world) :
  ~ (p <> [] /\ stat (files w) (removelast p) = Ok Dir /\ files w !! p <> Some Dir) ->
  exists e, (console_log a;; writeFileSync p c;; console_log b) w
            = (World (files w) (console w ++ [Log a]), Throw e).
Proof.
  intros Hno.
  destruct (writeFileSync_refused p c (World (files w) (console w ++ [Log a])) Hno) as [e He].
  exists e. rewrite (io_bind_run _ _ _ _ _ eq_refl). by rewrite (io_bind_Throw _ _ _ _ _ He).
Qed.

(** ** A [forEach] of writes that throws *)

Lemma write_each_Throw (outs : list (fspath * string)) (d : fspath) (w w' : world) (e : error) :
  Forall (fun pc => fst pc <> [] /\ removelast (fst pc) = d) outs ->
  NoDup (map fst outs) ->
  Forall (fun q => q ∉ ancestors [] d) (map fst outs) ->
  stat (files w) d = Ok Dir ->
  forEach_io write_one outs w = (w', Throw e) ->
  exists k pc,
    outs !! k = Some pc
    /\ files w' = write_all (take k outs) (files w)
    /\ console w' = console w
    /\ files w !! fst pc = Some Dir
    /\ e = EISDIR
    /\ Forall (fun earlier => files w !! fst earlier <> Some Dir) (take k outs).
Proof.
  revert w. induction outs as [|[p c] outs IH]; intros w Hshape Hnd Hsep Hdir; simpl; [done |].
  apply Forall_cons in Hshape as [[Hp Hparent] Hshape].
  apply NoDup_cons in Hnd as [Hfresh Hnd]. apply Forall_cons in Hsep as [Hanc Hsep].
  simpl in *. unfold mbind, io_bind. unfold write_one at 1. simpl.
  destruct (decide (files w !! p = Some Dir)) as [Hd | Hd].
  - unfold writeFileSync. destruct p as [|x p]; [done |]. rewrite Hparent, Hdir, Hd.
    intros [= <- <-]. exists 0, (x :: p, c). by repeat split.
  - rewrite (writeFileSync_run p c w) by (by rewrite ?Hparent).
    intros (k & pc & Hk & Hfiles & Hcons & Hpc & -> & Hearlier)%IH;
      [| done | done | done | by cbn [files]; rewrite stat_insert].
    assert (Hne : forall q, q ∈ map fst outs -> q <> p) by (by intros q Hq ->).
    exists (S k), pc. simpl in *. repeat split; try done.
    + rewrite lookup_insert_ne in Hpc; [done |]. intros Heq.
      apply (Hne (fst pc)); [| by symmetry].
      apply list_elem_of_fmap. exists pc. split; [done |]. by eapply list_elem_of_lookup_2.
    + constructor; [done |].
      apply Forall_forall. intros pc' Hin. rewrite Forall_forall in Hearlier.
      specialize (Hearlier pc' Hin). rewrite lookup_insert_ne in Hearlier; [done |].
      intros Heq. apply (Hne (fst pc')); [| by symmetry].
      apply list_elem_of_fmap. exists pc'. split; [done |].
      apply list_elem_of_lookup_1 in Hin as [j Hj]. apply lookup_take_Some in Hj as [Hj _].
      by eapply list_elem_of_lookup_2.
Qed.

Section MoreScript.
Context {num : Type} `{Number num} `{JSON num}.
Local Abbreviation value := (value num).

Lemma confined_exportDesignTokens :
  confined all_dirs output_files exportDesignTokens.
Proof.
  unfold exportDesignTokens.
  apply confined_bind; [apply confined_log | intros _].
  apply confined_bind; [by apply confined_pure | intros text].
  apply confined_bind; [by apply confined_pure | intros doc].
  apply confined_bind; [by apply confined_pure | intros fig].
  apply confined_bind; [apply confined_write; solve_paths | intros _].
  apply confined_bind; [by apply confined_pure | intros css].
  apply confined_bind; [apply confined_write; solve_paths | intros _].
  apply confined_log.
Qed.

Lemma confined_prepareExport : confined all_dirs output_files prepareExport.
Proof.
  unfold prepareExport.
  apply confined_bind; [apply confined_log | intros _].
  apply confined_bind; [| intros _].
  { apply confined_forEach, Forall_forall. intros d Hd. apply confined_ensure_dir.
    revert d Hd. apply Forall_forall. solve_paths. }
  apply confined_bind; [apply confined_exportDesignTokens | intros _].
  apply confined_bind; [| intros _].
  { unfold generateComponentSpecs.
    apply confined_bind; [apply confined_log | intros _].
    apply confined_bind; [| intros _; apply confined_log].
    apply confined_forEach, Forall_forall. intros c Hc. apply confined_write.
    revert c Hc. apply Forall_forall. solve_paths. }
  apply confined_bind; [| intros _].
  { unfold generatePagesGuide.
    apply confined_bind; [apply confined_log | intros _].
    apply confined_bind; [apply confined_write; solve_paths | intros _; apply confined_log]. }
  apply confined_bind; [| intros _].
  { unfold generateNavigationFlow.
    apply confined_bind; [apply confined_log | intros _].
    apply confined_bind; [apply confined_write; solve_paths | intros _; apply confined_log]. }
  apply confined_bind; [| intros _].
  { unfold generateImportGuide.
    apply confined_bind; [apply confined_log | intros _].
    apply confined_bind; [apply confined_write; solve_paths | intros _; apply confined_log]. }
  apply confined_log.
Qed.

(** X11.  Whatever the state it starts in and however it ends, the script does
    nothing to the files but make directories of the export where there was
    nothing and write its ten output files where there was no directory: it
    removes nothing, it replaces no directory, and it leaves the token
    document and every other file as they were. *)
Theorem script_confined (w : world) :
  touched all_dirs output_files (files w) (files (fst (run_script w)))
  /\ stat (files (fst (run_script w))) tokensPath = stat (files w) tokensPath
  /\ forall p n, files w !! p = Some n -> is_Some (files (fst (run_script w)) !! p).
Proof.
  assert (Hrun : touched all_dirs output_files (files w) (files (fst (run_script w)))).
  { assert (Hentry : confined all_dirs output_files entry_point).
    { apply confined_catch; [| intros e; apply confined_error].
      unfold main. apply confined_bind; [apply confined_prepareExport | intros _].
      repeat (apply confined_bind; [apply confined_log | intros _]).
      apply confined_log. }
    unfold run_script. destruct (entry_point w) as [w' r] eqn:Hw. by eapply Hentry. }
  split; [exact Hrun |]. split.
  - apply walk_agree. intros p Hp.
    assert (Hout : Forall (fun p => (p ∉ all_dirs) /\ (p ∉ output_files))
                          (ancestors [] tokensPath)) by solve_paths.
    rewrite Forall_forall in Hout. destruct (Hout p Hp) as [Hd Hf].
    by destruct (Hrun p) as [Heq | [(? & _) | (? & _)]].
  - intros p n Hn. destruct (Hrun p) as [-> | [(_ & ? & _) | (_ & _ & c & ->)]];
      [by eexists | congruence | by eexists].
Qed.

Lemma talks_main : talks transcript [1; 2; 4; 6; 8; 10] main.
Proof.
  eapply talks_weaken.
  - unfold main, prepareExport, exportDesignTokens, generateComponentSpecs,
      generatePagesGuide, generateNavigationFlow, generateImportGuide. talk.
    + apply talks_quiet. intros w w' r Hrun. by apply ensure_dirs_run in Hrun as [? _].
    + apply talks_quiet. apply quiet_forEach. intros c. apply quiet_write.
  - reflexivity.
  - solve_paths.
Qed.

(** X12.  The console tells how far a run got.  A run that ends well prints the
    eighteen lines of the transcript.  One that fails prints the first line
    and the opening lines of the steps up to the one that failed, never the
    closing line of that step or anything after it, and then the error. *)
Theorem script_transcript (w : world) :
  match snd (main w) with
  | Ok _ => console (fst (run_script w)) = console w ++ map Log transcript
  | Throw e =>
      exists k, k ∈ [1; 2; 4; 6; 8; 10]
                /\ console (fst (run_script w))
                   = console w ++ map Log (take k transcript) ++ [Error e]
  end.
Proof.
  pose proof (talks_main w) as Hmain.
  unfold run_script, entry_point, catch.
  destruct (main w) as [w' [[]|e]]; specialize (Hmain _ _ eq_refl); simpl in *; [done |].
  destruct Hmain as (k & Hk & _ & ->). exists k. split; [done |]. by rewrite <- app_assoc.
Qed.

Lemma exportDesignTokens_run (w : world) (text : string) (doc fig : value) (css : string) :
  stat (files w) tokensPath = Ok (File text) ->
  JSON_parse text = Some doc ->
  figmaTokens doc = Ok fig ->
  cssTokens doc = Ok css ->
  stat (files w) TOKENS_DIR = Ok Dir ->
  files w !! (TOKENS_DIR ++ ["figma-variables.json"]) <> Some Dir ->
  files w !! (TOKENS_DIR ++ ["tokens.css"]) <> Some Dir ->
  exportDesignTokens w
  = (World (write_all (token_outputs fig css) (files w))
           (console w ++ [Log "📋 Exportando design tokens..."; Log "✅ Design tokens exportados"]),
     Ok tt).
Proof.
  intros Hread Hparse Hfig Hcss Hdir Hf1 Hf2. unfold exportDesignTokens.
  rewrite (io_bind_run _ _ _ _ _ eq_refl).
  erewrite io_bind_run; [| unfold readFileSync; simpl; by rewrite Hread].
  erewrite io_bind_run; [| unfold parse, lift; by rewrite Hparse].
  erewrite io_bind_run; [| unfold lift; by rewrite Hfig].
  erewrite io_bind_run; [| by apply writeFileSync_run].
  erewrite io_bind_run; [| unfold lift; by rewrite Hcss].
  erewrite io_bind_run; [| apply writeFileSync_run; [done | |]].
  - unfold console_log. simpl. by rewrite <- app_assoc.
  - cbn [files]. rewrite stat_insert; [done | solve_paths].
  - cbn [files]. by rewrite lookup_insert_ne.
Qed.

Lemma generateComponentSpecs_run (w : world) :
  stat (files w) COMPONENTS_DIR = Ok Dir ->
  Forall (fun component => files w !! component_file component <> Some Dir) components ->
  generateComponentSpecs w
  = (World (write_all component_outputs (files w))
           (console w ++ [Log "🧩 Gerando especificações de componentes...";
                          Log "✅ Especificações de componentes geradas"]),
     Ok tt).
Proof.
  intros Hdir Hfree. unfold generateComponentSpecs.
  rewrite (io_bind_run _ _ _ _ _ eq_refl).
  change (fun component => writeFileSync (component_file component) (component_spec component))
    with (fun component => write_one (component_file component, component_spec component)).
  rewrite forEach_io_map. fold component_outputs.
  erewrite io_bind_run; [| apply write_each_run; [| solve_paths]].
  - unfold console_log. cbn [files console]. by rewrite <- app_assoc.
  - pose proof component_outputs_dir as Hshape.
    unfold component_outputs in *. rewrite Forall_fmap in *.
    rewrite Forall_forall in Hfree, Hshape. apply Forall_forall. intros c Hc. simpl in *.
    destruct (Hshape c Hc) as [Hne ->]. auto.
Qed.

(** The files a run leaves read back as what it wrote. *)
Lemma outputs_read_back (m : gmap fspath node) (fig : value) (css : string) (cs : list console_line) :
  Forall (fun d => stat m d = Ok Dir) [TOKENS_DIR; COMPONENTS_DIR; PAGES_DIR; OUTPUT_DIR] ->
  Forall (fun pc => readFileSync (fst pc) (World (write_all (outputs fig css) m) cs)
                    = (World (write_all (outputs fig css) m) cs, Ok (snd pc)))
         (outputs fig css).
Proof.
  intros Hdirs. apply Forall_forall. intros [p c] Hin. cbn [fst snd].
  assert (Hshape : Forall (fun pc => fst pc <> []
                                     /\ removelast (fst pc)
                                        ∈ [TOKENS_DIR; COMPONENTS_DIR; PAGES_DIR; OUTPUT_DIR])
                          (outputs fig css)) by solve_paths.
  rewrite Forall_forall in Hshape. destruct (Hshape _ Hin) as [Hp Hparent].
  cbn [fst snd] in Hp, Hparent.
  assert (Hkept : Forall (fun d => Forall (fun q => q ∉ ancestors [] d)
                                          (map fst (outputs fig css)))
                         [TOKENS_DIR; COMPONENTS_DIR; PAGES_DIR; OUTPUT_DIR]) by solve_paths.
  rewrite Forall_forall in Hkept, Hdirs.
  unfold readFileSync. cbn [files].
  rewrite stat_child; [| done |].
  - rewrite (write_all_lookup _ _ p c); [done | solve_paths | done].
  - rewrite stat_write_all by auto. auto.
Qed.

(** X13.  What a run of [prepareExport] that ends well leaves: the token
    document was there and converts, each of the ten output files reads back
    as the text the run wrote for it (the two token files as the converter's
    outputs for the token document), and the five directories are there. *)
Theorem export_postcondition (w w' : world) :
  prepareExport w = (w', Ok tt) ->
  exists text doc fig css,
    stat (files w) tokensPath = Ok (File text)
    /\ JSON_parse text = Some doc
    /\ figmaTokens doc = Ok fig
    /\ cssTokens doc = Ok css
    /\ Forall (fun pc => readFileSync (fst pc) w' = (w', Ok (snd pc))) (outputs fig css)
    /\ Forall (fun d => is_ok (stat (files w') d) = true) export_dirs.
Proof.
  intros Hrun.
  apply prepareExport_Ok in Hrun
    as (m1 & text & doc & fig & css & Hmade & Hdirs & Hread & Hparse & Hfig & Hcss
        & Hparents & Hfiles).
  exists text, doc, fig, css. rewrite <- (made_dirs_tokens _ _ Hmade).
  repeat split; try done.
  - rewrite <- (world_eta w'), Hfiles. by apply outputs_read_back.
  - rewrite Hfiles.
    assert (Hkept : Forall (fun d => Forall (fun q => q ∉ ancestors [] d)
                                            (map fst (outputs fig css)))
                           export_dirs) by solve_paths.
    rewrite Forall_forall in Hkept, Hdirs. apply Forall_forall. intros d Hd.
    rewrite stat_write_all by auto. auto.
Qed.

(** X14.  The export ends well from every state in which the token document is
    there and converts, no file sits where a directory of the export goes,
    and no directory sits where an output file goes: a fresh checkout, or the
    state any earlier run has left.  It then leaves the five directories and
    the ten files, each with the text of [outputs]. *)
Theorem export_succeeds (w : world) (text : string) (doc fig : value) (css : string) :
  stat (files w) tokensPath = Ok (File text) ->
  JSON_parse text = Some doc ->
  figmaTokens doc = Ok fig ->
  cssTokens doc = Ok css ->
  Forall (fun d => forall c, files w !! d <> Some (File c)) all_dirs ->
  Forall (fun p => files w !! p <> Some Dir) output_files ->
  exists w',
    prepareExport w = (w', Ok tt)
    /\ Forall (fun pc => readFileSync (fst pc) w' = (w', Ok (snd pc))) (outputs fig css)
    /\ Forall (fun d => stat (files w') d = Ok Dir) export_dirs.
Proof.
  intros Hread Hparse Hfig Hcss Hclear Hfree.
  set (w0 := World (files w) (console w ++ [Log "🎨 Preparando exportação para Figma..."])).
  assert (Hsub : Forall (fun p => p ∈ all_dirs) (concat (map (ancestors []) export_dirs)))
    by solve_paths.
  assert (Hok : snd (forEach_io ensure_dir export_dirs w0) = Ok tt).
  { apply ensure_dirs_clear. intros p c Hp. simpl.
    rewrite Forall_forall in Hsub, Hclear. auto. }
  destruct (forEach_io ensure_dir export_dirs w0) as [w1 r] eqn:Hdirs. simpl in Hok. subst r.
  pose proof (ensure_dirs_run _ _ _ _ Hdirs) as (_ & Hmade & Hthere).
  specialize (Hthere eq_refl). simpl in Hmade.
  assert (Hdir : Forall (fun d => stat (files w1) d = Ok Dir) export_dirs).
  { rewrite Forall_forall in Hthere, Hclear. apply Forall_forall. intros d Hd.
    apply stat_dir; [auto |]. intros c. rewrite (made_dirs_files _ _ _ _ _ Hmade).
    apply Hclear. by right. }
  assert (Hfree1 : Forall (fun p => files w1 !! p <> Some Dir) output_files).
  { assert (Hout : Forall (fun p => p ∉ concat (map (ancestors []) export_dirs)) output_files)
      by solve_paths.
    rewrite Forall_forall in Hout, Hfree. apply Forall_forall. intros p Hp.
    rewrite (made_dirs_outside _ _ _ _ Hmade) by auto. auto. }
  rewrite <- (made_dirs_tokens _ _ Hmade) in Hread.
  assert (Hd : Forall (fun d => stat (files w1) d = Ok Dir)
                      [TOKENS_DIR; COMPONENTS_DIR; PAGES_DIR; OUTPUT_DIR]).
  { rewrite Forall_forall in Hdir. repeat constructor; apply Hdir; solve_paths. }
  pose proof Hd as Hd'.
  apply Forall_cons in Hd' as [Hd1 Hd']. apply Forall_cons in Hd' as [Hd2 Hd'].
  apply Forall_cons in Hd' as [Hd3 Hd']. apply Forall_cons in Hd' as [Hd4 _].
  pose proof Hfree1 as Hfree'. unfold output_files, token_files, later_files in Hfree'.
  rewrite !Forall_app in Hfree'. destruct Hfree' as (Htok & Hcomp & Hrest).
  apply Forall_cons in Htok as [Hf1 Htok]. apply Forall_cons in Htok as [Hf2 _].
  apply Forall_cons in Hrest as [Hf3 Hrest]. apply Forall_cons in Hrest as [Hf4 Hrest].
  apply Forall_cons in Hrest as [Hf5 _]. rewrite Forall_fmap in Hcomp.
  assert (Hrun : exists cs, prepareExport w
                            = (World (write_all (outputs fig css) (files w1)) cs, Ok tt)).
  { eexists. unfold prepareExport.
    rewrite (io_bind_run _ _ _ _ _ eq_refl). fold w0.
    change [OUTPUT_DIR; COMPONENTS_DIR; PAGES_DIR; ASSETS_DIR; TOKENS_DIR] with export_dirs.
    rewrite (io_bind_run _ _ _ _ _ Hdirs).
    rewrite (io_bind_run _ _ _ _ _
               (exportDesignTokens_run w1 text doc fig css Hread Hparse Hfig Hcss Hd1 Hf1 Hf2)).
    erewrite io_bind_run; [| apply generateComponentSpecs_run].
    + erewrite io_bind_run; [| apply write_step_run; [done | |]].
      * erewrite io_bind_run; [| apply write_step_run; [done | |]].
        -- erewrite io_bind_run; [| apply write_step_run; [done | |]].
           ++ unfold console_log. cbn [files console].
              change (<[?p:=File ?c]> ?m) with (write_all [(p, c)] m).
              rewrite <- !write_all_app.
              change (token_outputs fig css ++ component_outputs ++ _) with (outputs fig css).
              reflexivity.
           ++ cbn [files]. rewrite !stat_insert by solve_paths.
              rewrite !stat_write_all by solve_paths. exact Hd4.
           ++ cbn [files]. rewrite !lookup_insert_ne by done.
              by rewrite !write_all_lookup_ne by solve_paths.
        -- cbn [files]. rewrite !stat_insert by solve_paths.
           rewrite !stat_write_all by solve_paths. exact Hd4.
        -- cbn [files]. rewrite !lookup_insert_ne by done.
           by rewrite !write_all_lookup_ne by solve_paths.
      * cbn [files]. rewrite !stat_write_all by solve_paths. exact Hd3.
      * cbn [files]. by rewrite !write_all_lookup_ne by solve_paths.
    + cbn [files]. rewrite !stat_write_all by solve_paths. exact Hd2.
    + cbn [files]. eapply Forall_impl; [exact Hcomp |]. intros c Hc.
      by apply write_all_not_dir. }
  destruct Hrun as [cs Hrun]. eexists. split; [exact Hrun |]. split.
  - by apply outputs_read_back.
  - cbn [files].
    assert (Hkept : Forall (fun d => Forall (fun q => q ∉ ancestors [] d)
                                            (map fst (outputs fig css)))
                           export_dirs) by solve_paths.
    rewrite Forall_forall in Hkept, Hdir. apply Forall_forall. intros d Hd0.
    rewrite stat_write_all by auto. auto.
Qed.

(** X15.  The converter does not undo what it has written.  When the document of
    Figma variables can be built and the CSS cannot (a value the template
    literal of line 117 cannot print), [figma-variables.json] has been
    written by the time the CSS throws: the step ends with that file in
    place, no [tokens.css] written, and no closing line on the console. *)
Theorem css_failure_leaves_figma_file (w : world) (text : string) (doc fig : value) (e : error) :
  stat (files w) tokensPath = Ok (File text) ->
  JSON_parse text = Some doc ->
  figmaTokens doc = Ok fig ->
  cssTokens doc = Throw e ->
  stat (files w) TOKENS_DIR = Ok Dir ->
  files w !! (TOKENS_DIR ++ ["figma-variables.json"]) <> Some Dir ->
  exportDesignTokens w
  = (World (<[TOKENS_DIR ++ ["figma-variables.json"] := File (JSON_stringify fig)]> (files w))
           (console w ++ [Log "📋 Exportando design tokens..."]),
     Throw e).
Proof.
  intros Hread Hparse Hfig Hcss Hdir Hf1. unfold exportDesignTokens.
  rewrite (io_bind_run _ _ _ _ _ eq_refl).
  erewrite io_bind_run; [| unfold readFileSync; simpl; by rewrite Hread].
  erewrite io_bind_run; [| unfold parse, lift; by rewrite Hparse].
  erewrite io_bind_run; [| unfold lift; by rewrite Hfig].
  erewrite io_bind_run; [| by apply writeFileSync_run].
  erewrite io_bind_Throw; [reflexivity |]. unfold lift. by rewrite Hcss.
Qed.

(** X16.  A regular file called [exports] stops the export at once: the first
    directory cannot be made, [prepareExport] throws [ENOTDIR] after its
    first line, and it has neither read the token document nor changed a
    file. *)
Theorem exports_blocked (w : world) (c : string) :
  files w !! ["exports"] = Some (File c) ->
  prepareExport w
  = (World (files w) (console w ++ [Log "🎨 Preparando exportação para Figma..."]),
     Throw ENOTDIR).
Proof.
  intros Hfile. unfold prepareExport.
  rewrite (io_bind_run _ _ _ _ _ eq_refl).
  erewrite io_bind_Throw; [reflexivity |].
  cbn [forEach_io]. erewrite io_bind_Throw; [reflexivity |].
  unfold ensure_dir, existsSync, mkdirSync_recursive, mbind, io_bind, stat.
  cbn [files console walk mkdirs OUTPUT_DIR app]. rewrite Hfile.
  cbn [is_ok negb files]. by rewrite Hfile.
Qed.

(** X17.  The callback of line 22 is [mkdir -p]: it prints nothing, it only
    makes directories, on the way to [dir] and where there was nothing, and
    when it returns [dir] is there and a second call changes nothing. *)
Theorem ensure_dir_postcondition (dir : fspath) (w w' : world) :
  ensure_dir dir w = (w', Ok tt) ->
  console w' = console w
  /\ made_dirs (files w) (files w') (ancestors [] dir)
  /\ is_ok (stat (files w') dir) = true
  /\ ensure_dir dir w' = (w', Ok tt).
Proof.
  intros Hrun. apply ensure_dir_run in Hrun as (Hcons & Hmade & Hok).
  specialize (Hok eq_refl). repeat split; try done. by apply ensure_dir_skip.
Qed.

(** X18.  The three steps that write one file each do all or nothing: with the
    directory of the file in place and no directory in the way of the file
    they write it, print their two lines and touch no other path; otherwise
    they throw after their first line and leave every file as it was. *)
Theorem single_file_steps_all_or_nothing (w : world) :
  all_or_nothing generatePagesGuide
    "📄 Gerando guia de páginas..." "✅ Guia de páginas gerado"
    (PAGES_DIR ++ ["README.md"]) pages_guide w
  /\ all_or_nothing generateNavigationFlow
       "🔄 Gerando fluxo de navegação..." "✅ Fluxo de navegação gerado"
       (OUTPUT_DIR ++ ["navigation-flow.json"]) (JSON_stringify (navigationFlow (num := num))) w
  /\ all_or_nothing generateImportGuide
       "📖 Gerando guia de importação..." "✅ Guia de importação gerado"
       (OUTPUT_DIR ++ ["IMPORT-GUIDE.md"]) import_guide w.
Proof.
  assert (Hstep : forall a b p c,
             p <> [] ->
             all_or_nothing (console_log a;; writeFileSync p c;; console_log b) a b p c w).
  { intros a b p c Hp. unfold all_or_nothing.
    destruct (stat (files w) (removelast p)) as [[c'|]|e] eqn:Hdir.
    - right. split; [by intros [? _] |].
      apply write_step_refused. intros (_ & ? & _). congruence.
    - destruct (decide (files w !! p = Some Dir)) as [Hd | Hd].
      + right. split; [by intros [_ ?] |]. apply write_step_refused. by intros (_ & _ & ?).
      + left. split; [done |]. split; [done |]. by apply write_step_run.
    - right. split; [by intros [? _] |].
      apply write_step_refused. intros (_ & ? & _). congruence. }
  split; [| split]; by apply Hstep.
Qed.

(** X19.  When the writer of component specifications throws, the files of the
    descriptors before the one that failed are written and no other path is
    changed; the console has the opening line only.  The write that failed
    is the first one when the directory of the component files is missing,
    and otherwise the first whose target is a directory. *)
Theorem component_specs_failure (w w' : world) (e : error) :
  generateComponentSpecs w = (w', Throw e) ->
  exists k component,
    components !! k = Some component
    /\ files w' = write_all (take k component_outputs) (files w)
    /\ console w' = console w ++ [Log "🧩 Gerando especificações de componentes..."]
    /\ ((stat (files w) COMPONENTS_DIR <> Ok Dir /\ k = 0)
        \/ (stat (files w) COMPONENTS_DIR = Ok Dir
            /\ files w !! component_file component = Some Dir
            /\ e = EISDIR
            /\ Forall (fun earlier => files w !! component_file earlier <> Some Dir)
                      (take k components))).
Proof.
  unfold generateComponentSpecs. rewrite (io_bind_run _ _ _ _ _ eq_refl).
  change (fun component => writeFileSync (component_file component) (component_spec component))
    with (fun component => write_one (component_file component, component_spec component)).
  rewrite forEach_io_map. fold component_outputs.
  set (w0 := World (files w) (console w ++ [Log "🧩 Gerando especificações de componentes..."])).
  unfold mbind at 1, io_bind at 1.
  destruct (forEach_io write_one component_outputs w0) as [w1 [[]|e1]] eqn:Hrun; [done |].
  intros [= <- <-].
  assert (Hcases : stat (files w) COMPONENTS_DIR = Ok Dir
                   \/ stat (files w) COMPONENTS_DIR <> Ok Dir).
  { destruct (stat (files w) COMPONENTS_DIR) as [[c|]|e0]; [by right | by left | by right]. }
  destruct Hcases as [Hd | Hd].
  - apply (write_each_Throw _ COMPONENTS_DIR) in Hrun
      as (k & pc & Hk & Hfiles & Hcons & Hpc & -> & Hearlier);
      [| apply component_outputs_dir | solve_paths | solve_paths | done].
    unfold component_outputs in Hk. rewrite list_lookup_fmap in Hk.
    destruct (components !! k) as [component|] eqn:Hc; [| done]. injection Hk as <-.
    exists k, component. repeat split; try done. right. repeat split; try done.
    unfold component_outputs in Hearlier. rewrite <- fmap_take, Forall_fmap in Hearlier.
    exact Hearlier.
  - destruct components as [|component rest] eqn:Hcs; [done |].
    exists 0, component. unfold component_outputs in Hrun. rewrite Hcs in Hrun.
    cbn [map forEach_io] in Hrun.
    destruct (writeFileSync_refused (component_file component) (component_spec component) w0)
      as [e' He'].
    { intros (_ & Hparent & _). apply Hd.
      pose proof component_outputs_dir as Hshape. unfold component_outputs in Hshape.
      rewrite Hcs in Hshape. apply Forall_cons in Hshape as [[_ Hshape] _].
      simpl in Hshape. by rewrite <- Hshape. }
    unfold write_one at 1 in Hrun. cbn [fst snd] in Hrun.
    rewrite (io_bind_Throw _ _ _ _ _ He') in Hrun. injection Hrun as <- <-.
    repeat split; try done. by left.
Qed.

End MoreScript.

(** * The theorems at concrete inputs *)

Lemma run_Ok (x : world * result unit) : is_ok (snd x) = true -> x = (fst x, Ok tt).
Proof. by destruct x as [w [[]|e]]. Qed.

Lemma run_Throw (x : world * result unit) (e : error) :
  snd x = Throw e -> x = (fst x, Throw e).
Proof. destruct x as [w r]. simpl. by intros ->. Qed.

Lemma token_count_and_categories_witness :
  well_formed (full_example : value Z) = true
  /\ exists fig : value Z,
       figmaTokens full_example = Ok fig
       /\ length (emitted_tokens fig) = 2 + 1 + 1
       /\ NoDup (map fst (emitted_tokens fig)).
Proof.
  split; [by vm_compute |].
  destruct (figmaTokens (full_example : value Z)) as [fig|e] eqn:Hfig;
    [| by vm_compute in Hfig].
  exists fig. split; [done |].
  destruct (token_count_and_categories full_example fig eq_refl Hfig) as (Hlen & Hnd & _).
  split; [exact Hlen | exact Hnd].
Defined.

(** C2 as stated fails: a value of two lines puts two declaration lines in
    the CSS for the one color of the document. *)
Lemma css_two_lines_for_one_color :
  exists css : string,
    cssTokens (two_line_color : value Z) = Ok css
    /\ length (category_entries Color (two_line_color : value Z)) = 1
    /\ declaration_lines "color" css = ["  --color-a: x;"; "  --color-b: y;"]
    /\ ~ Forall2 (declared "color") (category_entries Color (two_line_color : value Z))
                 (declaration_lines "color" css).
Proof.
  eexists. split; [by vm_compute |]. split; [by vm_compute |].
  split; [by vm_compute |].
  intros Hall%Forall2_length. vm_compute in Hall. discriminate.
Qed.

Lemma css_declaration_lines_witness :
  cssTokens (full_example : value Z)
    = Ok (css_text ["  --color-primary: #FF0000;"; "  --color-muted: #888888;"]
                   ["  --spacing-sm: 4px;"])
  /\ forallb entry_single_line
       (category_entries Color (full_example : value Z)
        ++ category_entries Spacing (full_example : value Z)) = true
  /\ Forall2 (declared "color") (category_entries Color (full_example : value Z))
             (declaration_lines "color"
                (css_text ["  --color-primary: #FF0000;"; "  --color-muted: #888888;"]
                          ["  --spacing-sm: 4px;"])).
Proof.
  split; [by vm_compute |]. split; [by vm_compute |].
  apply (css_declaration_lines full_example); by vm_compute.
Defined.

(** C3 as stated fails: the entry of a spacing has no [description]. *)
Lemma spacing_entry_without_description :
  exists (fig e : value Z),
    figmaTokens spec_example = Ok fig
    /\ ("sm", Obj [("value", Str "4px")]) ∈ category_entries Spacing (spec_example : value Z)
    /\ assoc "spacing/sm" (emitted_tokens fig) = Some e
    /\ ~ has_field e ["description"].
Proof.
  eexists _, _. split; [by vm_compute |]. split; [by left |].
  split; [by vm_compute |]. by intros [x Hx].
Qed.

Lemma emitted_entry_fields_witness :
  well_formed (spec_example : value Z) = true
  /\ ("sm", Obj [("value", Str "4px")]) ∈ category_entries Spacing (spec_example : value Z)
  /\ exists fig : value Z,
       figmaTokens spec_example = Ok fig
       /\ exists e, assoc "spacing/sm" (emitted_tokens fig) = Some e
                    /\ has_field e ["type"]
                    /\ has_field e ["extensions"; "figma"; "collection"]
                    /\ has_field e ["extensions"; "figma"; "scopes"]
                    /\ (has_field e ["value"] <-> has_value (Obj [("value", Str "4px")] : value Z))
                    /\ (has_field e ["description"] <-> Spacing = Color).
Proof.
  split; [by vm_compute |]. split; [by left |].
  destruct (figmaTokens (spec_example : value Z)) as [fig|e] eqn:Hfig;
    [| by vm_compute in Hfig].
  exists fig. split; [done |].
  apply (emitted_entry_fields spec_example fig Spacing "sm"); [by vm_compute | done | by left].
Defined.

Lemma typography_is_optional_witness :
  well_formed (spec_example : value Z) = true
  /\ own (spec_example : value Z) "typography" = None
  /\ exists fig : value Z,
       figmaTokens spec_example = Ok fig
       /\ Forall (fun kv => String.prefix "typography/size/" (fst kv) = false)
                 (emitted_tokens fig).
Proof.
  split; [by vm_compute |]. split; [done |].
  destruct (convert_colors (spec_example : value Z) []) as [v1|e] eqn:H1;
    [| by vm_compute in H1].
  destruct (convert_spacing (spec_example : value Z) v1) as [v2|e] eqn:H2.
  - exists (figma_document v2).
    apply (typography_is_optional spec_example v1 v2); [by vm_compute | by left | done | done].
  - vm_compute in H1. injection H1 as <-. by vm_compute in H2.
Defined.

Lemma color_description_default_witness :
  well_formed (full_example : value Z) = true
  /\ ("muted", Obj [("value", Str "#888888")]) ∈ category_entries Color (full_example : value Z)
  /\ own (Obj [("value", Str "#888888")] : value Z) "description" = None
  /\ exists fig : value Z,
       figmaTokens full_example = Ok fig
       /\ exists e, assoc "color/muted" (emitted_tokens fig) = Some e
                    /\ own e "description" = Some (Str "").
Proof.
  split; [by vm_compute |]. split; [right; left |]. split; [done |].
  destruct (figmaTokens (full_example : value Z)) as [fig|e] eqn:Hfig;
    [| by vm_compute in Hfig].
  exists fig. split; [done |].
  apply (color_description_default full_example fig "muted" (Obj [("value", Str "#888888")]));
    [by vm_compute | done | right; left | done].
Defined.

(** C4 as stated fails: without a token document [main] throws, and the
    process still exits with code 0. *)
Lemma failure_exits_with_zero :
  snd (main (num := Z) empty_world) = Throw ENOENT
  /\ snd (run_script (num := Z) empty_world) = 0%Z
  /\ ~ snd (run_script (num := Z) empty_world) <> 0%Z.
Proof.
  split; [by vm_compute |]. split; [by vm_compute |].
  intros Hne. apply Hne. by vm_compute.
Qed.

Lemma exit_code_is_zero_witness :
  exists w1,
    main (num := Z) empty_world = (w1, Throw ENOENT)
    /\ snd (run_script (num := Z) empty_world) = 0%Z
    /\ fst (run_script (num := Z) empty_world) = World (files w1) (console w1 ++ [Error ENOENT]).
Proof.
  assert (Hmain : main (num := Z) empty_world = (fst (main (num := Z) empty_world), Throw ENOENT)).
  { apply run_Throw. by vm_compute. }
  eexists. split; [exact Hmain |].
  exact (exit_code_is_zero (num := Z) empty_world _ (Throw ENOENT) Hmain).
Defined.

Lemma unreadable_tokens_abort_witness :
  unreadable (num := Z) empty_world
  /\ exists w' e, prepareExport (num := Z) empty_world = (w', Throw e)
                  /\ forall p c, files w' !! p = Some (File c)
                                 <-> files empty_world !! p = Some (File c).
Proof.
  assert (Hun : unreadable (num := Z) empty_world) by (by vm_compute).
  split; [exact Hun |].
  destruct (unreadable_tokens_abort (num := Z) empty_world Hun) as (w' & e & Hrun & Hfiles & _).
  exists w', e. split; [exact Hrun | exact Hfiles].
Defined.

Lemma export_idempotent_witness :
  exists w1 w2,
    prepareExport (num := Z) example_world = (w1, Ok tt)
    /\ prepareExport (num := Z) w1 = (w2, Ok tt)
    /\ files w2 = files w1.
Proof.
  assert (Hrun : prepareExport (num := Z) example_world
                 = (fst (prepareExport (num := Z) example_world), Ok tt)).
  { apply run_Ok. by vm_compute. }
  destruct (export_idempotent (num := Z) example_world _ Hrun)
    as ((w2 & Hagain & Hfiles) & _).
  eexists _, w2. split; [exact Hrun |]. split; [exact Hagain | exact Hfiles].
Defined.

Lemma component_specs_written_witness :
  stat (files components_world) COMPONENTS_DIR = Ok Dir
  /\ Forall (fun component => files components_world !! component_file component <> Some Dir)
            components
  /\ exists w',
       generateComponentSpecs components_world = (w', Ok tt)
       /\ Forall (fun component =>
                    files w' !! component_file component
                    = Some (File (component_spec component))) components.
Proof.
  assert (Hdir : stat (files components_world) COMPONENTS_DIR = Ok Dir) by (by vm_compute).
  assert (Hfree : Forall (fun component =>
                            files components_world !! component_file component <> Some Dir)
                         components) by solve_paths.
  split; [exact Hdir |]. split; [exact Hfree |].
  destruct (component_specs_written components_world Hdir Hfree)
    as (_ & (w' & Hrun & Hfiles & _) & _).
  exists w'. split; [exact Hrun | exact Hfiles].
Defined.

(** ** The further properties at concrete inputs *)



Lemma emitted_keys_in_order_witness :
  well_formed (full_example : value Z) = true
  /\ exists fig : value Z,
       figmaTokens full_example = Ok fig
       /\ map fst (emitted_tokens fig)
          = ["color/primary"; "color/muted"; "spacing/sm"; "typography/size/base"].
Proof.
  split; [by vm_compute |].
  destruct (figmaTokens (full_example : value Z)) as [fig|e] eqn:Hfig;
    [| by vm_compute in Hfig].
  exists fig. split; [done |].
  apply (emitted_keys_in_order full_example fig); [by vm_compute | done].
Defined.

Lemma conforming_document_converts_witness :
  conforms (spec_example : value Z) = true
  /\ is_ok (figmaTokens (spec_example : value Z)) = true
  /\ is_ok (cssTokens (spec_example : value Z)) = true.
Proof.
  split; [by vm_compute |]. apply (conforming_document_converts spec_example). by vm_compute.
Defined.

Lemma css_layout_witness :
  cssTokens (full_example : value Z)
    = Ok (css_text ["  --color-primary: #FF0000;"; "  --color-muted: #888888;"]
                   ["  --spacing-sm: 4px;"])
  /\ exists cs ss,
       Forall2 (declared "color") (category_entries Color (full_example : value Z)) cs
       /\ Forall2 (declared "spacing") (category_entries Spacing (full_example : value Z)) ss
       /\ lines (css_text ["  --color-primary: #FF0000;"; "  --color-muted: #888888;"]
                          ["  --spacing-sm: 4px;"])
          = [""; "/* Design Tokens para importação no Figma */"; ":root {"]
            ++ block cs ++ [""] ++ block ss ++ ["}"; ""].
Proof.
  split; [by vm_compute |]. apply (css_layout full_example); by vm_compute.
Defined.

Lemma css_missing_value_prints_undefined_witness :
  cssTokens (valueless_color : value Z) = Ok (css_text ["  --color-ghost: undefined;"] [])
  /\ ("ghost", Obj []) ∈ category_entries Color (valueless_color : value Z)
  /\ "  --color-ghost: undefined;" ∈ lines (css_text ["  --color-ghost: undefined;"] []).
Proof.
  split; [by vm_compute |]. split; [left |].
  apply (css_missing_value_prints_undefined (valueless_color : value Z) _ "ghost" (Obj []));
    [by vm_compute | by vm_compute | done | left].
Defined.

Lemma component_spec_lines_witness :
  lines (component_spec badge)
  = ["# Badge"; "";
     "## Descrição"; "Etiqueta de estado"; "";
     "## Props"; ""; "";
     "## Estados"; "- default"; "- active"; "";
     "## Variantes"; "- small"; "";
     "## Implementação"; "```tsx"; "// Ver: /components/Badge.tsx"; "```"; "";
     "## Design Guidelines";
     "- Usar Auto Layout para responsividade";
     "- Aplicar design tokens consistentes";
     "- Manter hierarquia visual clara";
     "- Estados de interação (hover, active, disabled)"; "";
     "## Figma Components";
     "1. Criar Component Set com variantes";
     "2. Configurar propriedades booleanas para estados";
     "3. Usar Instance Swap para conteúdo dinâmico";
     "4. Aplicar constraints para responsividade"; ""].
Proof. apply (component_spec_lines badge); by vm_compute. Defined.

Lemma page_section_lines_witness :
  lines (page_section contact_page)
  = [""; "### Contact";
     "- **Path:** `/contact`";
     "- **Descrição:** Formulário de contato";
     "- **Componentes:** Header, Footer";
     "- **Breakpoints:** Desktop, Mobile";
     ""; ""].
Proof. apply (page_section_lines contact_page); by vm_compute. Defined.

Lemma export_postcondition_witness :
  exists w',
    prepareExport (num := Z) example_world = (w', Ok tt)
    /\ exists text doc fig css,
         stat (files example_world) tokensPath = Ok (File text)
         /\ JSON_parse text = Some doc
         /\ figmaTokens doc = Ok fig
         /\ cssTokens doc = Ok css
         /\ Forall (fun pc => readFileSync (fst pc) w' = (w', Ok (snd pc))) (outputs fig css)
         /\ Forall (fun d => is_ok (stat (files w') d) = true) export_dirs.
Proof.
  assert (Hrun : prepareExport (num := Z) example_world
                 = (fst (prepareExport (num := Z) example_world), Ok tt)).
  { apply run_Ok. by vm_compute. }
  eexists. split; [exact Hrun |].
  exact (export_postcondition (num := Z) example_world _ Hrun).
Defined.

Lemma export_succeeds_witness :
  exists (fig : value Z) (css : string) (w' : world),
    figmaTokens spec_example = Ok fig
    /\ cssTokens (spec_example : value Z) = Ok css
    /\ prepareExport (num := Z) example_world = (w', Ok tt)
    /\ Forall (fun pc => readFileSync (fst pc) w' = (w', Ok (snd pc))) (outputs fig css).
Proof.
  destruct (figmaTokens (spec_example : value Z)) as [fig|e] eqn:Hfig;
    [| by vm_compute in Hfig].
  destruct (cssTokens (spec_example : value Z)) as [css|e] eqn:Hcss;
    [| by vm_compute in Hcss].
  assert (Hclear : Forall (fun d => forall c, files example_world !! d <> Some (File c))
                          all_dirs).
  { assert (Hnone : Forall (fun d => files example_world !! d = None) all_dirs)
      by solve_paths.
    eapply Forall_impl; [exact Hnone |]. intros d Hd c. by rewrite Hd. }
  assert (Hfree : Forall (fun p => files example_world !! p <> Some Dir) output_files)
    by solve_paths.
  destruct (export_succeeds (num := Z) example_world spec_example_text spec_example fig css)
    as (w' & Hrun & Hread & _);
    [by vm_compute | by vm_compute | exact Hfig | exact Hcss | exact Hclear | exact Hfree |].
  exists fig, css, w'. split; [reflexivity |]. split; [reflexivity |].
  split; [exact Hrun | exact Hread].
Defined.

Lemma css_failure_leaves_figma_file_witness :
  exists fig : value Z,
    figmaTokens unprintable_color = Ok fig
    /\ cssTokens unprintable_color = Throw TypeError
    /\ @exportDesignTokens Z Z_Number (reader_JSON unprintable_color)
         (prepared_world unprintable_color)
       = (World (<[TOKENS_DIR ++ ["figma-variables.json"] := File (print_json 0 fig)]>
                   (files (prepared_world unprintable_color)))
                [Log "📋 Exportando design tokens..."],
          Throw TypeError).
Proof.
  destruct (figmaTokens unprintable_color) as [fig|e] eqn:Hfig; [| by vm_compute in Hfig].
  exists fig. split; [done |]. split; [by vm_compute |].
  apply (@css_failure_leaves_figma_file Z Z_Number (reader_JSON unprintable_color)
           (prepared_world unprintable_color) (print_json 0 unprintable_color)
           unprintable_color fig TypeError);
    [by vm_compute | by vm_compute | done | by vm_compute | by vm_compute | solve_paths].
Defined.

Lemma exports_blocked_witness :
  prepareExport (num := Z) (World {[ ["exports"] := File "" ]} [])
  = (World {[ ["exports"] := File "" ]} [Log "🎨 Preparando exportação para Figma..."],
     Throw ENOTDIR).
Proof.
  exact (exports_blocked (num := Z) (World {[ ["exports"] := File "" ]} []) ""
           ltac:(by vm_compute)).
Defined.

Lemma ensure_dir_postcondition_witness :
  exists w',
    ensure_dir OUTPUT_DIR empty_world = (w', Ok tt)
    /\ is_ok (stat (files w') OUTPUT_DIR) = true
    /\ ensure_dir OUTPUT_DIR w' = (w', Ok tt).
Proof.
  assert (Hrun : ensure_dir OUTPUT_DIR empty_world
                 = (fst (ensure_dir OUTPUT_DIR empty_world), Ok tt)).
  { apply run_Ok. by vm_compute. }
  destruct (ensure_dir_postcondition OUTPUT_DIR empty_world _ Hrun) as (_ & _ & Hok & Hagain).
  eexists. split; [exact Hrun |]. split; [exact Hok | exact Hagain].
Defined.

Lemma component_specs_failure_witness :
  exists w' k component,
    generateComponentSpecs blocked_components_world = (w', Throw EISDIR)
    /\ components !! k = Some component
    /\ files w' = write_all (take k component_outputs) (files blocked_components_world)
    /\ console w' = [Log "🧩 Gerando especificações de componentes..."].
Proof.
  assert (Hrun : generateComponentSpecs blocked_components_world
                 = (fst (generateComponentSpecs blocked_components_world), Throw EISDIR)).
  { apply run_Throw. by vm_compute. }
  destruct (component_specs_failure blocked_components_world _ EISDIR Hrun)
    as (k & component & Hk & Hfiles & Hcons & _).
  eexists _, k, component. split; [exact Hrun |]. split; [exact Hk |].
  split; [exact Hfiles | exact Hcons].
Defined.
